(** * Connect: realtime coordination and conversation/message state engine

    A shallow embedding of the request handlers ([app/api/**/route.ts]),
    the conversation resolver ([lib/conversation.ts]), the realtime emitter
    ([lib/realtime-emitter.ts]) and the socket server ([server.js]), with the
    properties of the specification stated and settled against them.

    Conventions of the embedding.
    - A JavaScript string is a [string]; one character stands for one UTF-16
      code unit, so [length] is [.length] and [String.ltb] is [<] on strings.
    - An [ObjectId] is the number its twelve bytes denote.  The bson library
      is not part of the repository: parsing ([new Types.ObjectId(s)],
      [Types.ObjectId.isValid(s)]) and rendering ([toString()]) are the
      parameters [parseOid] and [oidStr].
    - [sanitize-html] is not part of the repository either: the parameter
      [sanitizeHtml] stands for the call with no allowed tag or attribute.
    - A [Date] is a number of milliseconds; [new Date()] reads the [clock] of
      the world.
    - A collection of the document store is the list of its documents in
      insertion order.  Of the Mongoose schemas the model has the validator
      of [participants] (exactly two), the unique index on [participantKey],
      and the options of [text] in the message schema ([trim], [required]);
      the other schema options are outside the model.
      Every awaited persistence call first consults the [faults] of the
      world: a [true] there makes the call throw, which is how an unavailable
      store, or a write that the store refuses, is represented.
    - [async] handlers are run to completion, one at a time, except in the
      section on concurrent first contact, which interleaves the awaited
      steps of [getOrCreateConversation]. *)

From Stdlib Require Import String Ascii List ZArith Lia Bool Sorted.
From stdpp Require Import base strings list gmap.
Import ListNotations.
Open Scope string_scope.
Open Scope list_scope.

(* ===================================================================== *)
(** ** JavaScript built-ins used by the handlers *)
(* ===================================================================== *)

Module JS.

(** [!s] on a string: only the empty string is falsy. *)
Definition falsy (s : string) : bool :=
  match s with EmptyString => true | String _ _ => false end.

(** [String(x ?? "")] for a field that is a string or missing. *)
Definition orEmpty (x : option string) : string := default "" x.

(** White space and line terminators among the first 256 code units. *)
Definition isSpace (c : ascii) : bool :=
  let n := nat_of_ascii c in
  ((n =? 32) || (n =? 9) || (n =? 10) || (n =? 11) || (n =? 12) || (n =? 13)
   || (n =? 160))%nat.

Fixpoint trimStart (s : string) : string :=
  match s with
  | EmptyString => EmptyString
  | String c r => if isSpace c then trimStart r else s
  end.

(** Drops the trailing white space: a character is kept when it is not a
    space or when something is kept after it. *)
Fixpoint trimEnd (s : string) : string :=
  match s with
  | EmptyString => EmptyString
  | String c r =>
      match trimEnd r with
      | EmptyString => if isSpace c then EmptyString else String c EmptyString
      | r' => String c r'
      end
  end.

(** [s.trim()] *)
Definition trim (s : string) : string := trimEnd (trimStart s).

(** [s.slice(0, n)] *)
Definition slice0 (n : nat) (s : string) : string := substring 0 n s.

Definition lowerChar (c : ascii) : ascii :=
  let n := nat_of_ascii c in
  if ((65 <=? n) && (n <=? 90))%nat then ascii_of_nat (n + 32)
  else if ((192 <=? n) && (n <=? 222) && negb (n =? 215))%nat then ascii_of_nat (n + 32)
  else c.

(** [s.toLowerCase()] *)
Fixpoint toLowerCase (s : string) : string :=
  match s with
  | EmptyString => EmptyString
  | String c r => String (lowerChar c) (toLowerCase r)
  end.

(** Insertion of [x] into a list sorted by [<] on strings; equal elements
    keep their order. *)
Fixpoint insertSorted (x : string) (l : list string) : list string :=
  match l with
  | [] => [x]
  | y :: r => if String.ltb x y then x :: y :: r else y :: insertSorted x r
  end.

(** [arr.sort()] with the default comparator on an array of strings
    (stable). *)
Definition sort (l : list string) : list string :=
  fold_left (fun acc x => insertSorted x acc) l [].

(** [arr.join(sep)] *)
Fixpoint join (sep : string) (l : list string) : string :=
  match l with
  | [] => ""
  | [x] => x
  | x :: r => x +:+ sep +:+ join sep r
  end.

(** [a || d] on a number that may be missing: [undefined] and [0] are
    falsy. *)
Definition orNum (a : option Z) (d : Z) : Z :=
  match a with
  | Some n => if (n =? 0)%Z then d else n
  | None => d
  end.

(** The character that a letter of a pattern with the flag [i] stands for:
    the two cases of an ASCII letter are one character, and every other
    character of the first 256 stands for itself. *)
Definition foldCase (c : ascii) : ascii :=
  let n := nat_of_ascii c in
  if ((65 <=? n) && (n <=? 90))%nat then ascii_of_nat (n + 32) else c.

(** What is left of [s] after the literal [p], written in lower case and
    matched with the flag [i], if [s] begins with it. *)
Fixpoint afterFold (p s : string) : option string :=
  match p, s with
  | EmptyString, _ => Some s
  | String _ _, EmptyString => None
  | String a p', String c s' =>
      if Ascii.eqb (foldCase c) a then afterFold p' s' else None
  end.

(** The longest prefix of characters of a class, and what follows it. *)
Fixpoint span (cls : ascii -> bool) (s : string) : string * string :=
  match s with
  | EmptyString => (EmptyString, EmptyString)
  | String c r =>
      if cls c then let (a, b) := span cls r in (String c a, b)
      else (EmptyString, s)
  end.

(** Every character of [s] is of the class. *)
Fixpoint all (cls : ascii -> bool) (s : string) : bool :=
  match s with
  | EmptyString => true
  | String c r => cls c && all cls r
  end.

(** [[a-zA-Z0-9]] *)
Definition isAlnum (c : ascii) : bool :=
  let n := nat_of_ascii c in
  (((48 <=? n) && (n <=? 57)) || ((65 <=? n) && (n <=? 90))
   || ((97 <=? n) && (n <=? 122)))%nat.

(** [s.split(sep)] for a separator of one character. *)
Fixpoint split (sep : ascii) (s : string) : list string :=
  match s with
  | EmptyString => [EmptyString]
  | String c r =>
      if Ascii.eqb c sep then EmptyString :: split sep r
      else match split sep r with
           | x :: xs => String c x :: xs
           | [] => [String c EmptyString]
           end
  end.

End JS.

(* ===================================================================== *)
(** ** Data model ([models/*.ts]) *)
(* ===================================================================== *)

Definition ObjectId := N.
Definition Date := N.

Definition oidIn (x : ObjectId) (l : list ObjectId) : bool := existsb (N.eqb x) l.

Module User.
Record t := mk {
  _id : ObjectId;
  email : string;
  displayName : string;
  about : string;
  avatarUrl : string;
  isOnline : bool;
  lastSeen : Date
}.
End User.

Module Conversation.
Record t := mk {
  _id : ObjectId;
  participants : list ObjectId;
  participantKey : string;
  hiddenFor : list ObjectId;
  lastMessageText : string;
  lastMessageAt : Date
}.
End Conversation.

Module Message.
Record t := mk {
  _id : ObjectId;
  conversationId : ObjectId;
  senderId : ObjectId;
  recipientId : ObjectId;
  text : string;
  readBy : list ObjectId;
  hiddenFor : list ObjectId;
  isDeletedForEveryone : bool;
  deletedAt : option Date;
  createdAt : Date
}.
End Message.

(** A JSON value of a realtime payload, and the payload as the object it is
    on the wire. *)
Inductive JVal :=
| JStr (s : string)
| JArr (l : list string)
| JBool (b : bool)
| JDate (d : N).

Definition Payload := list (string * JVal).

Fixpoint field (k : string) (p : Payload) : option JVal :=
  match p with
  | [] => None
  | (k', v) :: r => if String.eqb k k' then Some v else field k r
  end.

(** [`${payload.k}`]: the rendering of a field inside a template literal.
    The router builds room names from identifiers only; the rendering of a
    date, its ISO string, is left opaque. *)
Definition fieldStr (k : string) (p : Payload) : string :=
  match field k p with
  | Some (JStr s) => s
  | Some (JArr l) => JS.join "," l
  | Some (JBool b) => if b then "true" else "false"
  | Some (JDate _) => "[date]"
  | None => "undefined"
  end.

(** [payload.k === v] *)
Definition fieldIs (k v : string) (p : Payload) : bool :=
  match field k p with
  | Some (JStr s) => String.eqb s v
  | _ => false
  end.

(** One [io.to(room).emit(event, payload)]: the room, the event and the
    sessions that were in the room when it was emitted. *)
Record Emit := mkEmit {
  e_room : string;
  e_event : string;
  e_payload : Payload;
  e_recipients : list string
}.

Inductive Error :=
| BSONError          (* [new Types.ObjectId] on a string that is not one *)
| ValidationError    (* a schema validator refused the document *)
| DuplicateKey       (* the unique index on participantKey *)
| DocumentNotFound   (* [save()] of a document that is gone *)
| TypeError          (* property access on undefined *)
| StoreUnavailable.  (* the persistence call itself failed *)

Inductive Outcome (A : Type) :=
| Ok (a : A)
| Throw (e : Error).
Arguments Ok {A} a.
Arguments Throw {A} e.

(** The world the handlers run in: the three collections, the clock, the
    generator of fresh [_id]s, the fault oracle of the store, the requests
    that [emitRealtimeEvent] posted to [/internal/realtime], and the state of
    the socket server ([onlineCounts], [socketToUser], the rooms of the
    adapter, the sessions whose event handlers are installed, and everything
    the server emitted). *)
Record World := mkWorld {
  users : list User.t;
  conversations : list Conversation.t;
  messages : list Message.t;
  clock : Date;
  oidSeed : ObjectId;
  faults : list bool;
  outbox : list (string * Payload);
  onlineCounts : gmap string Z;
  socketToUser : gmap string string;
  listening : gset string;
  rooms : gmap string (gset string);
  wire : list Emit
}.

Definition with_users (f : list User.t -> list User.t) (w : World) : World :=
  mkWorld (f (users w)) (conversations w) (messages w) (clock w) (oidSeed w) (faults w)
          (outbox w) (onlineCounts w) (socketToUser w) (listening w) (rooms w) (wire w).
Definition with_conversations
    (f : list Conversation.t -> list Conversation.t) (w : World) : World :=
  mkWorld (users w) (f (conversations w)) (messages w) (clock w) (oidSeed w) (faults w)
          (outbox w) (onlineCounts w) (socketToUser w) (listening w) (rooms w) (wire w).
Definition with_messages (f : list Message.t -> list Message.t) (w : World) : World :=
  mkWorld (users w) (conversations w) (f (messages w)) (clock w) (oidSeed w) (faults w)
          (outbox w) (onlineCounts w) (socketToUser w) (listening w) (rooms w) (wire w).
Definition with_clock (f : Date -> Date) (w : World) : World :=
  mkWorld (users w) (conversations w) (messages w) (f (clock w)) (oidSeed w) (faults w)
          (outbox w) (onlineCounts w) (socketToUser w) (listening w) (rooms w) (wire w).
Definition with_oidSeed (f : ObjectId -> ObjectId) (w : World) : World :=
  mkWorld (users w) (conversations w) (messages w) (clock w) (f (oidSeed w)) (faults w)
          (outbox w) (onlineCounts w) (socketToUser w) (listening w) (rooms w) (wire w).
Definition with_faults (f : list bool -> list bool) (w : World) : World :=
  mkWorld (users w) (conversations w) (messages w) (clock w) (oidSeed w) (f (faults w))
          (outbox w) (onlineCounts w) (socketToUser w) (listening w) (rooms w) (wire w).
Definition with_outbox
    (f : list (string * Payload) -> list (string * Payload)) (w : World) : World :=
  mkWorld (users w) (conversations w) (messages w) (clock w) (oidSeed w) (faults w)
          (f (outbox w)) (onlineCounts w) (socketToUser w) (listening w) (rooms w)
          (wire w).
Definition with_onlineCounts (f : gmap string Z -> gmap string Z) (w : World) : World :=
  mkWorld (users w) (conversations w) (messages w) (clock w) (oidSeed w) (faults w)
          (outbox w) (f (onlineCounts w)) (socketToUser w) (listening w) (rooms w)
          (wire w).
Definition with_socketToUser
    (f : gmap string string -> gmap string string) (w : World) : World :=
  mkWorld (users w) (conversations w) (messages w) (clock w) (oidSeed w) (faults w)
          (outbox w) (onlineCounts w) (f (socketToUser w)) (listening w) (rooms w)
          (wire w).
Definition with_listening (f : gset string -> gset string) (w : World) : World :=
  mkWorld (users w) (conversations w) (messages w) (clock w) (oidSeed w) (faults w)
          (outbox w) (onlineCounts w) (socketToUser w) (f (listening w)) (rooms w)
          (wire w).
Definition with_rooms
    (f : gmap string (gset string) -> gmap string (gset string)) (w : World) : World :=
  mkWorld (users w) (conversations w) (messages w) (clock w) (oidSeed w) (faults w)
          (outbox w) (onlineCounts w) (socketToUser w) (listening w) (f (rooms w))
          (wire w).
Definition with_wire (f : list Emit -> list Emit) (w : World) : World :=
  mkWorld (users w) (conversations w) (messages w) (clock w) (oidSeed w) (faults w)
          (outbox w) (onlineCounts w) (socketToUser w) (listening w) (rooms w)
          (f (wire w)).

(* ===================================================================== *)
(** ** The monad of the handlers: state and exceptions *)
(* ===================================================================== *)

Definition M (A : Type) : Type := World -> Outcome A * World.

Definition ret {A} (a : A) : M A := fun w => (Ok a, w).
Definition throw {A} (e : Error) : M A := fun w => (Throw e, w).
Definition bind {A B} (c : M A) (k : A -> M B) : M B :=
  fun w => match c w with
           | (Ok a, w') => k a w'
           | (Throw e, w') => (Throw e, w')
           end.

Notation "x <- c ;; k" := (bind c (fun x => k))
  (at level 100, c at next level, right associativity).
Notation "c ;;; k" := (bind c (fun _ => k))
  (at level 100, right associativity).

Definition modify (f : World -> World) : M unit := fun w => (Ok tt, f w).
Definition gets {A} (f : World -> A) : M A := fun w => (Ok (f w), w).

(** [new Date()] *)
Definition newDate : M Date := gets clock.

(** The [_id] the driver gives a new document. *)
Definition freshOid : M ObjectId :=
  fun w => (Ok (oidSeed w), with_oidSeed N.succ w).

(** Entry of every awaited persistence call. *)
Definition store : M unit :=
  fun w => match faults w with
           | [] => (Ok tt, w)
           | false :: fs => (Ok tt, with_faults (fun _ => fs) w)
           | true :: fs => (Throw StoreUnavailable, with_faults (fun _ => fs) w)
           end.

(* ===================================================================== *)
(** ** Generic queries of the document store *)
(* ===================================================================== *)

(** The first document that satisfies [p] is replaced by its image under
    [f] ([updateOne]). *)
Fixpoint updateFirst {A} (p : A -> bool) (f : A -> A) (l : list A) : list A :=
  match l with
  | [] => []
  | x :: r => if p x then f x :: r else x :: updateFirst p f r
  end.

(** The first document that satisfies [p] is removed ([deleteOne]). *)
Fixpoint removeFirst {A} (p : A -> bool) (l : list A) : list A :=
  match l with
  | [] => []
  | x :: r => if p x then r else x :: removeFirst p r
  end.

(** Every document that satisfies [p] is replaced ([updateMany]). *)
Definition updateAll {A} (p : A -> bool) (f : A -> A) (l : list A) : list A :=
  List.map (fun x => if p x then f x else x) l.

(** Stable insertion by decreasing key ([sort({ key: -1 })]). *)
Fixpoint insertDesc {A} (key : A -> N) (x : A) (l : list A) : list A :=
  match l with
  | [] => [x]
  | y :: r => if (key y <? key x)%N then x :: y :: r else y :: insertDesc key x r
  end.

Definition sortDesc {A} (key : A -> N) (l : list A) : list A :=
  fold_left (fun acc x => insertDesc key x acc) l [].

(** [limit(n)]: zero means no limit. *)
Definition limitTo {A} (n : nat) (l : list A) : list A :=
  if (n =? 0)%nat then l else firstn n l.

(** [$addToSet] of one identifier. *)
Definition addToSet (x : ObjectId) (l : list ObjectId) : list ObjectId :=
  if oidIn x l then l else l ++ [x].

Definition setConvHiddenFor (h : list ObjectId) (c : Conversation.t) : Conversation.t :=
  Conversation.mk (Conversation._id c) (Conversation.participants c)
    (Conversation.participantKey c) h
    (Conversation.lastMessageText c) (Conversation.lastMessageAt c).

Definition setConvPreview (txt : string) (at_ : Date) (c : Conversation.t) : Conversation.t :=
  Conversation.mk (Conversation._id c) (Conversation.participants c)
    (Conversation.participantKey c) (Conversation.hiddenFor c) txt at_.

Definition setMsgReadBy (r : list ObjectId) (m : Message.t) : Message.t :=
  Message.mk (Message._id m) (Message.conversationId m) (Message.senderId m)
    (Message.recipientId m) (Message.text m) r (Message.hiddenFor m)
    (Message.isDeletedForEveryone m) (Message.deletedAt m) (Message.createdAt m).

Definition setMsgHiddenFor (h : list ObjectId) (m : Message.t) : Message.t :=
  Message.mk (Message._id m) (Message.conversationId m) (Message.senderId m)
    (Message.recipientId m) (Message.text m) (Message.readBy m) h
    (Message.isDeletedForEveryone m) (Message.deletedAt m) (Message.createdAt m).

Definition setMsgTombstone (at_ : Date) (txt : string) (m : Message.t) : Message.t :=
  Message.mk (Message._id m) (Message.conversationId m) (Message.senderId m)
    (Message.recipientId m) txt (Message.readBy m) (Message.hiddenFor m)
    true (Some at_) (Message.createdAt m).

Definition setUserPresence (online : bool) (seen : Date) (u : User.t) : User.t :=
  User.mk (User._id u) (User.email u) (User.displayName u) (User.about u)
    (User.avatarUrl u) online seen.

Definition convHasId (id : ObjectId) (c : Conversation.t) : bool :=
  (Conversation._id c =? id)%N.
Definition convHasKey (k : string) (c : Conversation.t) : bool :=
  String.eqb (Conversation.participantKey c) k.
Definition msgHasId (id : ObjectId) (m : Message.t) : bool :=
  (Message._id m =? id)%N.
Definition userHasId (id : ObjectId) (u : User.t) : bool :=
  (User._id u =? id)%N.

(* ---- User ---- *)

(** [User.find({ _id: { $in: ids } })] *)
Definition User_findIn (ids : list ObjectId) : M (list User.t) :=
  store ;;; gets (fun w => List.filter (fun u => oidIn (User._id u) ids) (users w)).

Definition User_findById (id : ObjectId) : M (option User.t) :=
  store ;;; gets (fun w => List.find (userHasId id) (users w)).

Definition User_findByIdAndUpdate (id : ObjectId) (online : bool) (seen : Date) : M unit :=
  store ;;; modify (with_users (updateFirst (userHasId id) (setUserPresence online seen))).

(* ---- Conversation ---- *)

Definition Conversation_findOne (p : Conversation.t -> bool) : M (option Conversation.t) :=
  store ;;; gets (fun w => List.find p (conversations w)).

(** [Conversation.create]: the validator of [participants] (exactly two) is
    checked, then the unique index on [participantKey]. *)
Definition Conversation_create (ps : list ObjectId) (key : string)
    (hidden : list ObjectId) (at_ : Date) (txt : string) : M Conversation.t :=
  if negb (length ps =? 2)%nat then throw ValidationError
  else
    store ;;;
    dup <- gets (fun w => existsb (convHasKey key) (conversations w)) ;;
    if dup : bool then throw DuplicateKey
    else
      id <- freshOid ;;
      let c := Conversation.mk id ps key hidden txt at_ in
      modify (with_conversations (fun l => l ++ [c])) ;;;
      ret c.

(** [conversation.save()]: the modified paths, given as [f], are written to
    the stored document of that [_id]. *)
Definition Conversation_save (id : ObjectId) (f : Conversation.t -> Conversation.t) : M unit :=
  store ;;;
  found <- gets (fun w => existsb (convHasId id) (conversations w)) ;;
  if found : bool
  then modify (with_conversations (updateFirst (convHasId id) f))
  else throw DocumentNotFound.

Definition Conversation_findById (id : ObjectId) : M (option Conversation.t) :=
  Conversation_findOne (convHasId id).

(** [Conversation.find(filter).sort({ lastMessageAt: -1 }).limit(n)] *)
Definition Conversation_find (p : Conversation.t -> bool) (n : nat) : M (list Conversation.t) :=
  store ;;;
  gets (fun w => limitTo n (sortDesc Conversation.lastMessageAt
                              (List.filter p (conversations w)))).

(** [Conversation.exists(filter)], read as a boolean. *)
Definition Conversation_exists (p : Conversation.t -> bool) : M bool :=
  store ;;; gets (fun w => existsb p (conversations w)).

Definition Conversation_deleteOne (id : ObjectId) : M unit :=
  store ;;; modify (with_conversations (removeFirst (convHasId id))).

(* ---- Message ---- *)

Definition Message_find (p : Message.t -> bool) : M (list Message.t) :=
  store ;;; gets (fun w => List.filter p (messages w)).

Definition Message_findById (id : ObjectId) : M (option Message.t) :=
  store ;;; gets (fun w => List.find (msgHasId id) (messages w)).

(** [Message.find(filter).sort({ createdAt: -1 }).limit(n)] *)
Definition Message_findPage (p : Message.t -> bool) (n : nat) : M (list Message.t) :=
  store ;;;
  gets (fun w => limitTo n (sortDesc Message.createdAt (List.filter p (messages w)))).

(** [Message.findOne(filter).sort({ createdAt: -1 })] *)
Definition Message_findLatest (p : Message.t -> bool) : M (option Message.t) :=
  store ;;;
  gets (fun w => head (sortDesc Message.createdAt (List.filter p (messages w)))).

(** What the message schema makes of a text that is set on a document,
    [text: { type: String, required: true, trim: true }]: the setter trims
    it, and the validator, which Mongoose runs before the write, refuses the
    empty string. *)
Definition Message_text (txt : string) : M string :=
  let trimmed := JS.trim txt in
  if JS.falsy trimmed then throw ValidationError else ret trimmed.

Definition Message_create (conv sender recipient : ObjectId) (txt : string)
    (readBy : list ObjectId) : M Message.t :=
  text <- Message_text txt ;;
  store ;;;
  id <- freshOid ;;
  at_ <- newDate ;;
  let m := Message.mk id conv sender recipient text readBy [] false None at_ in
  modify (with_messages (fun l => l ++ [m])) ;;;
  ret m.

(** [message.save()]: the modified paths, given as [f], are written to the
    stored document of that [_id].  The stored texts have passed the
    validator when they were set; a save that sets [text] is
    [Message_saveText]. *)
Definition Message_save (id : ObjectId) (f : Message.t -> Message.t) : M unit :=
  store ;;;
  found <- gets (fun w => existsb (msgHasId id) (messages w)) ;;
  if found : bool
  then modify (with_messages (updateFirst (msgHasId id) f))
  else throw DocumentNotFound.

(** [message.text = txt; ...; message.save()]: the text goes through the
    setter and the validator of the schema before anything is written. *)
Definition Message_saveText (id : ObjectId) (txt : string)
    (f : string -> Message.t -> Message.t) : M unit :=
  text <- Message_text txt ;;
  Message_save id (f text).

Definition Message_updateMany (p : Message.t -> bool) (f : Message.t -> Message.t) : M unit :=
  store ;;; modify (with_messages (updateAll p f)).

Definition Message_deleteMany (p : Message.t -> bool) : M unit :=
  store ;;; modify (with_messages (List.filter (fun m => negb (p m)))).

(* ===================================================================== *)
(** ** Small helpers *)
(* ===================================================================== *)

(** Sequencing of a list of actions ([Promise.all] run one after the other, a
    loop, a cast of every element). *)
Fixpoint mapM {A B} (f : A -> M B) (l : list A) : M (list B) :=
  match l with
  | [] => ret []
  | x :: r => y <- f x ;; ys <- mapM f r ;; ret (y :: ys)
  end.

(** [arr.length === limit ? arr[arr.length - 1].key : null]: the last
    element of an empty array is [undefined], and reading its property
    throws. *)
Definition cursorAfter {A} (key : A -> Date) (limit : nat) (arr : list A)
    : M (option Date) :=
  if (length arr =? limit)%nat
  then match last arr with
       | Some x => ret (Some (key x))
       | None => throw TypeError
       end
  else ret None.

(** [[...new Set(l)]]: the first occurrence of every string, in order. *)
Fixpoint uniqueFrom (seen l : list string) : list string :=
  match l with
  | [] => []
  | x :: r => if existsb (String.eqb x) seen then uniqueFrom seen r
              else x :: uniqueFrom (x :: seen) r
  end.

(** [new Map(entries).get(k)]: the last entry of a key wins. *)
Fixpoint mapGet {A} (k : string) (entries : list (string * A)) : option A :=
  match entries with
  | [] => None
  | (k', v) :: r =>
      match mapGet k r with
      | Some v' => Some v'
      | None => if String.eqb k k' then Some v else None
      end
  end.

(* ===================================================================== *)
(** ** Responses of the request handlers *)
(* ===================================================================== *)

Record MessageView := mkMessageView {
  mv_id : string;
  mv_conversationId : string;
  mv_senderId : string;
  mv_recipientId : string;
  mv_text : string;
  mv_readBy : list string;
  mv_isDeletedForEveryone : bool;
  mv_deletedAt : option Date;
  mv_createdAt : Date
}.

(** An entry of the conversation list.  Of the other participant the entry
    keeps the identifier; the profile fields copied next to it (name, avatar,
    presence) play no part in which conversations are listed. *)
Record ConversationItem := mkConversationItem {
  ci_conversationId : string;
  ci_lastMessageText : string;
  ci_lastMessageAt : Date;
  ci_userId : string
}.

Inductive Body :=
| BError (error : string)
| BOk
| BMessages (conversationId : string) (msgs : list MessageView) (nextCursor : option Date)
| BMessage (message : MessageView)
| BMessageDeleted (messageId mode : string)
| BConversations (items : list ConversationItem) (nextCursor : option Date)
| BConversationDeleted (conversationId mode : string)
| BUpdated (updated : nat).

Record Response := json { status : nat; body : Body }.

(** The sessions of a room, and the number of copies of its event that an
    emission, or a sequence of emissions, hands to one session. *)
Definition members (w : World) (room : string) : gset string :=
  default ∅ (rooms w !! room).

Definition copiesIn (sid : string) (e : Emit) : nat :=
  count_occ string_dec (e_recipients e) sid.

Definition copiesTo (sid : string) (es : list Emit) : nat :=
  list_sum (List.map (copiesIn sid) es).

(** The point a call of [getOrCreateConversation] has reached: suspended at
    one of its three [await]s, with what it holds there, or over. *)
Inductive Call :=
| AtFindOne (userA userB : string)
| AtCreate (ps : list ObjectId) (key : string) (at_ : Date)
| AtSave (conversation : Conversation.t) (hiddenFor : list ObjectId)
| Returned (conversation : Conversation.t)
| Rejected (e : Error).

(* ===================================================================== *)
(** ** The client's view of a conversation ([app/page.tsx])

    The updaters that the page passes to [setMessages], as functions of the
    previous list; a date is the string the server sent. *)
(* ===================================================================== *)

Module Page.

Record Message := mkMessage {
  id : string;
  conversationId : string;
  senderId : string;
  recipientId : string;
  text : string;
  readBy : list string;
  isDeletedForEveryone : bool;
  deletedAt : option string;
  createdAt : string
}.

(** [ref.current && x !== ref.current], for a ref that holds a string or
    [null]. *)
Definition setAndNot (ref : option string) (x : string) : bool :=
  match ref with
  | Some current => negb (JS.falsy current) && negb (x =? current)
  | None => false
  end.

(** [ref.current && x === ref.current] *)
Definition setAndIs (ref : option string) (x : string) : bool :=
  match ref with
  | Some current => negb (JS.falsy current) && (x =? current)
  | None => false
  end.

(** The message that the handler of [message:new] builds from the
    payload. *)
Definition incomingOf (messageId conversationId senderId recipientId text createdAt : string)
    : Message :=
  mkMessage messageId conversationId senderId recipientId text [senderId] false None
            createdAt.

(** The updater of the handler of [message:new]. *)
Definition onMessageNew (conversationIdRef : option string) (incoming : Message)
    (previous : list Message) : list Message :=
  if existsb (fun message => id message =? id incoming) previous then previous
  else if setAndNot conversationIdRef (conversationId incoming) then previous
  else previous ++ [incoming].

(** The handler of [message:read]: it returns early for another
    conversation, and maps its updater over the list otherwise. *)
Definition onMessageRead (conversationIdRef : option string)
    (conversationId readerId : string) (messageIds : list string)
    (previous : list Message) : list Message :=
  if setAndNot conversationIdRef conversationId then previous
  else
    List.map
      (fun message =>
         if existsb (String.eqb (id message)) messageIds
         then mkMessage (id message) (Page.conversationId message) (senderId message)
                (recipientId message) (text message)
                (if existsb (String.eqb readerId) (readBy message)
                 then readBy message else readBy message ++ [readerId])
                (isDeletedForEveryone message) (deletedAt message) (createdAt message)
         else message)
      previous.

(** The handler of [message:deleted]; [now] is [new Date().toISOString()]. *)
Definition onMessageDeleted (conversationIdRef : option string)
    (conversationId messageId mode : string) (payloadDeletedAt : option string)
    (now : string) (previous : list Message) : list Message :=
  if setAndIs conversationIdRef conversationId
  then
    if mode =? "me"
    then List.filter (fun message => negb (id message =? messageId)) previous
    else
      List.map
        (fun message =>
           if id message =? messageId
           then mkMessage (id message) (Page.conversationId message) (senderId message)
                  (recipientId message) "" (readBy message) true
                  (Some (match payloadDeletedAt with
                         | Some d => d
                         | None => default now (deletedAt message)
                         end))
                  (createdAt message)
           else message)
        previous
  else previous.

(** The updater of [loadMessages]: the page replaces the list, or goes
    before it without the messages that the list has already. *)
Definition onMessagesLoaded (replace : bool) (resultMessages previous : list Message)
    : list Message :=
  if replace then resultMessages
  else
    let older :=
      List.filter
        (fun message =>
           negb (existsb (String.eqb (id message)) (List.map id previous)))
        resultMessages in
    older ++ previous.

End Page.

(* ===================================================================== *)
(** ** Hexadecimal identifiers, for the worked examples

    The rendering of an [ObjectId] as 24 hexadecimal digits, and its parser,
    which takes the digits in either case. *)
(* ===================================================================== *)

Module Hex.

Definition digit (c : ascii) : option N :=
  let n := N_of_ascii c in
  if ((48 <=? n) && (n <=? 57))%N then Some (n - 48)%N
  else if ((97 <=? n) && (n <=? 102))%N then Some (n - 87)%N
  else if ((65 <=? n) && (n <=? 70))%N then Some (n - 55)%N
  else None.

Fixpoint value (acc : N) (s : string) : option N :=
  match s with
  | EmptyString => Some acc
  | String c r =>
      match digit c with
      | Some d => value (16 * acc + d)%N r
      | None => None
      end
  end.

Definition parse (s : string) : option ObjectId :=
  if (String.length s =? 24)%nat then value 0%N s else None.

Definition char (d : N) : ascii :=
  if (d <? 10)%N then ascii_of_N (48 + d) else ascii_of_N (87 + d).

Fixpoint digits (k : nat) (n : N) (acc : string) : string :=
  match k with
  | O => acc
  | S k' => digits k' (n / 16)%N (String (char (n mod 16)%N) acc)
  end.

Definition str (n : ObjectId) : string := digits 24 n "".

End Hex.

(* ===================================================================== *)
(** ** Worked examples: identifiers and worlds *)
(* ===================================================================== *)

Module Sample.

Definition alice : string := "aaaaaaaaaaaaaaaaaaaaaaaa".
Definition bob : string := "bbbbbbbbbbbbbbbbbbbbbbbb".
Definition carol : string := "cccccccccccccccccccccccc".

Definition aliceId : ObjectId := default 0%N (Hex.parse alice).
Definition bobId : ObjectId := default 0%N (Hex.parse bob).

Definition user (id : ObjectId) (name : string) : User.t :=
  User.mk id (name +:+ "@example.com") name "" "" false 0%N.

(** A store with the two users Alice and Bob, no conversation, no message,
    and nobody connected. *)
Definition start : World :=
  mkWorld [user aliceId "alice"; user bobId "bob"] [] [] 1000%N 1%N [] []
          ∅ ∅ ∅ ∅ [].

(** The same identifier as [alice], written in capitals. *)
Definition aliceCapitals : string := "AAAAAAAAAAAAAAAAAAAAAAAA".

Definition carolId : ObjectId := default 0%N (Hex.parse carol).

(** The conversation of Alice and Bob, and a store that holds it. *)
Definition chat : Conversation.t :=
  Conversation.mk 1%N [aliceId; bobId] (alice +:+ ":" +:+ bob) [] "" 1000%N.

Definition chatting : World :=
  mkWorld [user aliceId "alice"; user bobId "bob"] [chat] [] 2000%N 2%N [] []
          ∅ ∅ ∅ ∅ [].

(** Alice has sent "hello" to Bob, who has not read it yet. *)
Definition hello : Message.t :=
  Message.mk 2%N 1%N aliceId bobId "hello" [aliceId] [] false None 1500%N.

Definition greeted : Conversation.t :=
  Conversation.mk 1%N [aliceId; bobId] (alice +:+ ":" +:+ bob) [] "hello" 1500%N.

Definition talked : World :=
  mkWorld [user aliceId "alice"; user bobId "bob"] [greeted] [hello] 3000%N 3%N [] []
          ∅ ∅ ∅ ∅ [].

(** The identifiers of the conversation and of the message, as the clients
    write them. *)
Definition chatRef : string := "000000000000000000000001".
Definition helloRef : string := "000000000000000000000002".

(** [sanitize-html] on a text without markup: the text. *)
Definition plain (s : string) : string := s.

(** Alice and Bob open the conversation at the same moment, each from their
    own side; the two calls take their turns alternately. *)
Definition bothAtOnce : list Call :=
  [AtFindOne alice bob; AtFindOne bob alice].

Definition alternately : list nat := [0; 1; 0; 1].

(** Bob has deleted "hello" for himself. *)
Definition hiddenHello : Message.t :=
  Message.mk 2%N 1%N aliceId bobId "hello" [aliceId] [bobId] false None 1500%N.

Definition muted : World :=
  mkWorld [user aliceId "alice"; user bobId "bob"] [greeted] [hiddenHello] 3000%N 3%N [] []
          ∅ ∅ ∅ ∅ [].

(** A session of Alice watches the presence of Bob. *)
Definition watching : World :=
  mkWorld [user aliceId "alice"; user bobId "bob"] [chat] [] 2000%N 2%N [] []
          ∅ ∅ ∅ {[ "presence:watch:" +:+ bob := {[ "tab-1" ]} ]} [].

(** What Alice sends next, and what Bob's page shows of it. *)
Definition hi : Message.t :=
  Message.mk 3%N 1%N aliceId bobId "hi" [aliceId] [] false None 3000%N.

(** [decodeURIComponent] on the escapes of the first 128 characters, which
    are all that the examples hold. *)
Fixpoint unescape (s : string) : option string :=
  match s with
  | EmptyString => Some EmptyString
  | String c r =>
      if Ascii.eqb c "%"
      then match r with
           | String a (String b r') =>
               match Hex.digit a, Hex.digit b with
               | Some x, Some y =>
                   if (16 * x + y <? 128)%N
                   then option_map (String (ascii_of_N (16 * x + y))) (unescape r')
                   else None
               | _, _ => None
               end
           | _ => None
           end
      else option_map (String c) (unescape r)
  end.

(** A verification that accepts the tokens [signed:<userId>]. *)
Definition verify (token : string) : option (option string) :=
  if String.prefix "signed:" token
  then Some (Some (substring 7 (String.length token - 7) token))
  else None.

(** The cookies of a browser that is logged in as Alice. *)
Definition cookies : list (string * string) :=
  [("theme", "dark"); ("connect_token", "signed:" +:+ alice)].

End Sample.

(* ===================================================================== *)
(** ** The handlers *)
(* ===================================================================== *)

Section Connect.

(** [new Types.ObjectId(s)] as a partial function, and [oid.toString()]. *)
Variable parseOid : string -> option ObjectId.
Variable oidStr : ObjectId -> string.
(** [sanitizeHtml(input, { allowedTags: [], allowedAttributes: {} })] *)
Variable sanitizeHtml : string -> string.
(** [decodeURIComponent(s)], which throws on a malformed escape sequence; and
    [jwt.verify(token, process.env.JWT_SECRET)], which throws on a token it
    refuses and otherwise gives the payload, read here at [.userId]. *)
Variable decodeURIComponent : string -> option string.
Variable jwtVerify : string -> option (option string).

(** [Types.ObjectId.isValid(s)] *)
Definition isValid (s : string) : bool :=
  match parseOid s with Some _ => true | None => false end.

(** [new Types.ObjectId(s)] *)
Definition newObjectId (s : string) : M ObjectId :=
  match parseOid s with
  | Some o => ret o
  | None => throw BSONError
  end.

(* ------------------------------------------------------------------- *)
(** *** lib/conversation.ts *)

Definition buildParticipantKey (a b : string) : string :=
  JS.join ":" (JS.sort [a; b]).

(** [hiddenFor.filter(userId => !userId.equals(me))] *)
Definition unhide (me : ObjectId) (c : Conversation.t) : list ObjectId :=
  List.filter (fun userId => negb (userId =? me)%N) (Conversation.hiddenFor c).

Definition getOrCreateConversation (userA userB : string) : M Conversation.t :=
  let participantKey := buildParticipantKey userA userB in
  currentUserObjectId <- newObjectId userA ;;
  found <- Conversation_findOne (convHasKey participantKey) ;;
  match found with
  | None =>
      userBObjectId <- newObjectId userB ;;
      at_ <- newDate ;;
      Conversation_create [currentUserObjectId; userBObjectId] participantKey [] at_ ""
  | Some conversation =>
      if oidIn currentUserObjectId (Conversation.hiddenFor conversation)
      then
        let hiddenFor := unhide currentUserObjectId conversation in
        Conversation_save (Conversation._id conversation) (setConvHiddenFor hiddenFor) ;;;
        ret (setConvHiddenFor hiddenFor conversation)
      else ret conversation
  end.

(* ------------------------------------------------------------------- *)
(** *** lib/sanitize.ts *)

Definition sanitizePlainText (input : string) : string :=
  JS.trim (sanitizeHtml input).

Definition sanitizeMessage (input : string) : string :=
  JS.slice0 2000 (sanitizePlainText input).

Definition sanitizeProfileText (input : string) : string :=
  JS.slice0 140 (sanitizePlainText input).

(** [/^https?:\/\//i.test(value)] *)
Definition isHttpUrl (value : string) : bool :=
  match JS.afterFold "http" value with
  | Some rest =>
      match JS.afterFold "://" rest with
      | Some _ => true
      | None =>
          match JS.afterFold "s://" rest with
          | Some _ => true
          | None => false
          end
      end
  | None => false
  end.

(** [[a-zA-Z0-9.+-]] and [[a-zA-Z0-9+/=\s]] *)
Definition isMediaTypeChar (c : ascii) : bool :=
  JS.isAlnum c || Ascii.eqb c "." || Ascii.eqb c "+" || Ascii.eqb c "-".

Definition isBase64Char (c : ascii) : bool :=
  JS.isAlnum c || Ascii.eqb c "+" || Ascii.eqb c "/" || Ascii.eqb c "="
  || JS.isSpace c.

(** [/^data:image\/[a-zA-Z0-9.+-]+;base64,[a-zA-Z0-9+/=\s]+$/i.test(value)]:
    the first class does not hold [;], so its run is the longest one. *)
Definition isDataImageUrl (value : string) : bool :=
  match JS.afterFold "data:image/" value with
  | Some rest =>
      let (mediaType, rest') := JS.span isMediaTypeChar rest in
      negb (JS.falsy mediaType)
      && match JS.afterFold ";base64," rest' with
         | Some data => negb (JS.falsy data) && JS.all isBase64Char data
         | None => false
         end
  | None => false
  end.

Definition sanitizeAvatarUrl (input : string) : string :=
  let value := JS.slice0 (12 * 1000) (JS.trim input) in
  if JS.falsy value then ""
  else if isHttpUrl value then value
  else if isDataImageUrl value then value
  else "".

(* ------------------------------------------------------------------- *)
(** *** lib/realtime-emitter.ts

    The event is posted to [/internal/realtime]; a post that fails is
    swallowed, so the caller never sees an error.  [outbox] lists the posts
    in the order they were issued. *)

Definition emitRealtimeEvent (type : string) (payload : Payload) : M unit :=
  modify (with_outbox (fun l => l ++ [(type, payload)])).

(* ------------------------------------------------------------------- *)
(** *** app/api/messages/route.ts

    [auth] is what [requireAuth] found in the cookie: the [userId] of the
    verified token, or nothing. *)

Definition unauthorized : Response := json 401 (BError "Unauthorized").

Definition messageView (message : Message.t) : MessageView :=
  mkMessageView
    (oidStr (Message._id message))
    (oidStr (Message.conversationId message))
    (oidStr (Message.senderId message))
    (oidStr (Message.recipientId message))
    (sanitizeMessage (Message.text message))
    (List.map oidStr (Message.readBy message))
    (Message.isDeletedForEveryone message)
    (Message.deletedAt message)
    (Message.createdAt message).

Definition GET_messages (auth : option string) (userIdParam : option string)
    (cursor : option Date) (limitParam : option nat) : M Response :=
  match auth with
  | None => ret unauthorized
  | Some authUserId =>
      let userId := JS.trim (JS.orEmpty userIdParam) in
      let limit := Nat.min (default 30 limitParam) 100 in
      if JS.falsy userId || negb (isValid userId)
      then ret (json 400 (BError "Valid userId is required."))
      else
        conversation <- getOrCreateConversation authUserId userId ;;
        me <- newObjectId authUserId ;;
        found <- Message_findPage
                   (fun m =>
                      (Message.conversationId m =? Conversation._id conversation)%N
                      && negb (oidIn me (Message.hiddenFor m))
                      && match cursor with
                         | Some c => (Message.createdAt m <? c)%N
                         | None => true
                         end)
                   limit ;;
        (* [messages.reverse()] reverses in place, before [nextCursor] is
           computed from the same array. *)
        let reversed := rev found in
        nextCursor <- cursorAfter Message.createdAt limit reversed ;;
        ret (json 200
               (BMessages (oidStr (Conversation._id conversation))
                  (List.map messageView reversed)
                  nextCursor))
  end.

Definition POST_messages (auth : option string)
    (toUserIdField textField : option string) : M Response :=
  match auth with
  | None => ret unauthorized
  | Some authUserId =>
      let toUserId := JS.trim (JS.orEmpty toUserIdField) in
      let rawText := JS.orEmpty textField in
      let text := JS.slice0 2000 (sanitizeMessage rawText) in
      if JS.falsy toUserId || negb (isValid toUserId)
      then ret (json 400 (BError "Valid recipient is required."))
      else if JS.falsy text
      then ret (json 400 (BError "Message text is required."))
      else
        toOid <- newObjectId toUserId ;;
        recipient <- User_findById toOid ;;
        match recipient with
        | None => ret (json 404 (BError "Recipient not found."))
        | Some _ =>
            conversation <- getOrCreateConversation authUserId toUserId ;;
            senderId <- newObjectId authUserId ;;
            recipientId <- newObjectId toUserId ;;
            reader <- newObjectId authUserId ;;
            message <- Message_create (Conversation._id conversation)
                         senderId recipientId text [reader] ;;
            at_ <- newDate ;;
            Conversation_save (Conversation._id conversation)
                              (setConvPreview text at_) ;;;
            let payload :=
              mkMessageView (oidStr (Message._id message))
                (oidStr (Conversation._id conversation))
                authUserId toUserId text [authUserId] false None
                (Message.createdAt message) in
            emitRealtimeEvent "message:new"
              [ ("conversationId", JStr (mv_conversationId payload));
                ("messageId", JStr (mv_id payload));
                ("senderId", JStr (mv_senderId payload));
                ("recipientId", JStr (mv_recipientId payload));
                ("text", JStr (mv_text payload));
                ("createdAt", JDate (mv_createdAt payload)) ] ;;;
            ret (json 200 (BMessage payload))
        end
  end.

Definition DELETE_messages (auth : option string)
    (messageIdField modeField : option string) : M Response :=
  match auth with
  | None => ret unauthorized
  | Some authUserId =>
      let messageId := JS.trim (JS.orEmpty messageIdField) in
      let mode := JS.toLowerCase (JS.trim (default "me" modeField)) in
      if JS.falsy messageId || negb (isValid messageId)
      then ret (json 400 (BError "Valid messageId is required."))
      else if negb (mode =? "me") && negb (mode =? "everyone")
      then ret (json 400 (BError "mode must be 'me' or 'everyone'."))
      else
        mid <- newObjectId messageId ;;
        found <- Message_findById mid ;;
        match found with
        | None => ret (json 404 (BError "Message not found."))
        | Some message =>
            requesterId <- newObjectId authUserId ;;
            let isParticipant :=
              (Message.senderId message =? requesterId)%N
              || (Message.recipientId message =? requesterId)%N in
            if negb isParticipant
            then ret (json 403 (BError "Forbidden."))
            else if (mode =? "everyone")
                    && negb (Message.senderId message =? requesterId)%N
            then ret (json 403 (BError "Only sender can delete for everyone."))
            else
              let conversationId := Message.conversationId message in
              let senderId := oidStr (Message.senderId message) in
              let recipientId := oidStr (Message.recipientId message) in
              if mode =? "me"
              then
                (if negb (oidIn requesterId (Message.hiddenFor message))
                 then Message_save (Message._id message)
                        (setMsgHiddenFor (Message.hiddenFor message ++ [requesterId]))
                 else ret tt) ;;;
                emitRealtimeEvent "message:deleted"
                  [ ("conversationId", JStr (oidStr conversationId));
                    ("messageId", JStr (oidStr (Message._id message)));
                    ("mode", JStr "me");
                    ("targetUserId", JStr authUserId) ] ;;;
                ret (json 200 (BMessageDeleted (oidStr (Message._id message)) "me"))
              else
                deletedAt <- newDate ;;
                Message_saveText (Message._id message) ""
                                 (setMsgTombstone deletedAt) ;;;
                latestMessage <- Message_findLatest
                                   (fun m => (Message.conversationId m =? conversationId)%N) ;;
                conversation <- Conversation_findById conversationId ;;
                match conversation with
                | Some conversation =>
                    match latestMessage with
                    | Some latest =>
                        Conversation_save (Conversation._id conversation)
                          (setConvPreview
                             (if Message.isDeletedForEveryone latest
                              then "This message was deleted"
                              else Message.text latest)
                             (Message.createdAt latest))
                    | None =>
                        at_ <- newDate ;;
                        Conversation_save (Conversation._id conversation)
                          (setConvPreview "" at_)
                    end
                | None => ret tt
                end ;;;
                emitRealtimeEvent "message:deleted"
                  [ ("conversationId", JStr (oidStr conversationId));
                    ("messageId", JStr (oidStr (Message._id message)));
                    ("mode", JStr "everyone");
                    ("deletedAt", JDate deletedAt);
                    ("senderId", JStr senderId);
                    ("recipientId", JStr recipientId) ] ;;;
                ret (json 200 (BMessageDeleted (oidStr (Message._id message)) "everyone"))
        end
  end.

(* ------------------------------------------------------------------- *)
(** *** app/api/messages/read/route.ts *)

(** The filter of the messages that a call marks: addressed to the caller,
    not read by the caller, not hidden for the caller. *)
Definition unreadBy (cid me : ObjectId) (m : Message.t) : bool :=
  (Message.conversationId m =? cid)%N
  && (Message.recipientId m =? me)%N
  && negb (oidIn me (Message.readBy m))
  && negb (oidIn me (Message.hiddenFor m)).

Definition POST_messages_read (auth : option string)
    (conversationIdField : option string) : M Response :=
  match auth with
  | None => ret unauthorized
  | Some authUserId =>
      let conversationId := JS.trim (JS.orEmpty conversationIdField) in
      if JS.falsy conversationId || negb (isValid conversationId)
      then ret (json 400 (BError "Valid conversationId is required."))
      else
        cid <- newObjectId conversationId ;;
        me <- newObjectId authUserId ;;
        unreadMessages <- Message_find (unreadBy cid me) ;;
        if (length unreadMessages =? 0)%nat
        then ret (json 200 (BUpdated 0))
        else
          let messageIds := List.map Message._id unreadMessages in
          Message_updateMany
            (fun m => oidIn (Message._id m) messageIds)
            (fun m => setMsgReadBy (addToSet me (Message.readBy m)) m) ;;;
          emitRealtimeEvent "message:read"
            [ ("conversationId", JStr conversationId);
              ("readerId", JStr authUserId);
              ("messageIds", JArr (List.map oidStr messageIds)) ] ;;;
          ret (json 200 (BUpdated (length messageIds)))
  end.

(* ------------------------------------------------------------------- *)
(** *** app/api/conversations/route.ts *)

(** [participants.find(p => p.toString() !== authUser.userId)] *)
Definition otherParticipant (authUserId : string) (c : Conversation.t) : option ObjectId :=
  List.find (fun participant => negb (oidStr participant =? authUserId))
            (Conversation.participants c).

(** The filter of the conversation list of one user. *)
Definition listedFor (me : ObjectId) (cursor : option Date) (c : Conversation.t) : bool :=
  oidIn me (Conversation.participants c)
  && negb (oidIn me (Conversation.hiddenFor c))
  && match cursor with
     | Some d => (Conversation.lastMessageAt c <? d)%N
     | None => true
     end.

(** The filter of the latest message that one user still sees. *)
Definition visibleIn (cid me : ObjectId) (m : Message.t) : bool :=
  (Message.conversationId m =? cid)%N && negb (oidIn me (Message.hiddenFor m)).

Definition conversationItem (authUserId : string) (users : list User.t)
    (latest : list (string * option Message.t)) (c : Conversation.t)
    : option ConversationItem :=
  match otherParticipant authUserId c with
  | None => None
  | Some other =>
      match mapGet (oidStr other)
              (List.map (fun u => (oidStr (User._id u), u)) users) with
      | None => None
      | Some otherUser =>
          let latestVisibleMessage :=
            default None (mapGet (oidStr (Conversation._id c)) latest) in
          Some (mkConversationItem
                  (oidStr (Conversation._id c))
                  (match latestVisibleMessage with
                   | Some m => if Message.isDeletedForEveryone m
                               then "This message was deleted"
                               else sanitizeMessage (Message.text m)
                   | None => ""
                   end)
                  (match latestVisibleMessage with
                   | Some m => Message.createdAt m
                   | None => Conversation.lastMessageAt c
                   end)
                  (oidStr (User._id otherUser)))
      end
  end.

Definition GET_conversations (auth : option string)
    (limitParam : option nat) (cursor : option Date) : M Response :=
  match auth with
  | None => ret unauthorized
  | Some authUserId =>
      let limit := Nat.min (default 20 limitParam) 50 in
      currentUserObjectId <- newObjectId authUserId ;;
      found <- Conversation_find (listedFor currentUserObjectId cursor) limit ;;
      let otherUserIds :=
        List.map (fun c => option_map oidStr (otherParticipant authUserId c)) found in
      let uniqueOtherUserIds :=
        uniqueFrom [] (List.filter (fun x => negb (JS.falsy x)) (omap id otherUserIds)) in
      ids <- mapM newObjectId uniqueOtherUserIds ;;
      users <- User_findIn ids ;;
      latestVisibleMessages <-
        mapM (fun c => Message_findLatest
                         (visibleIn (Conversation._id c) currentUserObjectId))
             found ;;
      let latestVisibleMessagesMap :=
        combine (List.map (fun c => oidStr (Conversation._id c)) found)
                latestVisibleMessages in
      let items :=
        omap (conversationItem authUserId users latestVisibleMessagesMap) found in
      nextCursor <- cursorAfter Conversation.lastMessageAt limit found ;;
      ret (json 200 (BConversations items nextCursor))
  end.

Definition DELETE_conversations (auth : option string)
    (conversationIdField modeField : option string) : M Response :=
  match auth with
  | None => ret unauthorized
  | Some authUserId =>
      let conversationId := JS.trim (JS.orEmpty conversationIdField) in
      let mode := JS.toLowerCase (JS.trim (default "everyone" modeField)) in
      if JS.falsy conversationId || negb (isValid conversationId)
      then ret (json 400 (BError "Valid conversationId is required."))
      else
        cid <- newObjectId conversationId ;;
        me <- newObjectId authUserId ;;
        found <- Conversation_findOne
                   (fun c => convHasId cid c && oidIn me (Conversation.participants c)) ;;
        match found with
        | None => ret (json 404 (BError "Conversation not found."))
        | Some conversation =>
            if negb (mode =? "me") && negb (mode =? "everyone")
            then ret (json 400 (BError "mode must be 'me' or 'everyone'."))
            else if mode =? "me"
            then
              currentUserObjectId <- newObjectId authUserId ;;
              let hiddenFor := Conversation.hiddenFor conversation in
              (if negb (oidIn currentUserObjectId hiddenFor)
               then Conversation_save (Conversation._id conversation)
                      (setConvHiddenFor (hiddenFor ++ [currentUserObjectId]))
               else ret tt) ;;;
              Message_updateMany
                (visibleIn (Conversation._id conversation) currentUserObjectId)
                (fun m => setMsgHiddenFor
                            (addToSet currentUserObjectId (Message.hiddenFor m)) m) ;;;
              ret (json 200 (BConversationDeleted conversationId "me"))
            else
              Message_deleteMany
                (fun m => (Message.conversationId m =? Conversation._id conversation)%N) ;;;
              Conversation_deleteOne (Conversation._id conversation) ;;;
              ret (json 200 (BConversationDeleted conversationId "everyone"))
        end
  end.

(* ------------------------------------------------------------------- *)
(** *** server.js: rooms and emissions *)

(** [socket.join(room)] *)
Definition join (sid room : string) : M unit :=
  modify (fun w => with_rooms (<[room := {[sid]} ∪ members w room]>) w).

(** [socket.leave(room)] *)
Definition leave (sid room : string) : M unit :=
  modify (fun w => with_rooms (<[room := members w room ∖ {[sid]}]>) w).

(** What the adapter does when a socket closes: it leaves every room. *)
Definition leaveAll (sid : string) : M unit :=
  modify (with_rooms (fmap (fun s : gset string => s ∖ {[sid]}))).

(** [io.to(room).emit(event, payload)]: one copy for each session that is in
    the room now. *)
Definition io_to_emit (room event : string) (payload : Payload) : M unit :=
  modify (fun w =>
    with_wire (fun l => l ++ [mkEmit room event payload (elements (members w room))]) w).

(** [socket.emit(event, payload)]: one copy for that session. *)
Definition socket_emit (sid event : string) (payload : Payload) : M unit :=
  modify (with_wire (fun l => l ++ [mkEmit sid event payload [sid]])).

(* ------------------------------------------------------------------- *)
(** *** server.js: the handshake

    [parseCookies] fills an object from the items of the header; the object
    is kept as the list of its assignments, in order, of which the last one
    of a name is the value of the property.  Nothing stands for a thrown
    [URIError]. *)

Fixpoint parseCookieItems (items : list string) (cookieMap : list (string * string))
    : option (list (string * string)) :=
  match items with
  | [] => Some cookieMap
  | item :: items' =>
      match JS.split "=" (JS.trim item) with
      | rawKey :: rest =>
          if JS.falsy rawKey then parseCookieItems items' cookieMap
          else
            match decodeURIComponent (JS.join "=" rest) with
            | Some value => parseCookieItems items' (cookieMap ++ [(rawKey, value)])
            | None => None
            end
      | [] => parseCookieItems items' cookieMap
      end
  end.

Definition parseCookies (cookieHeader : option string) : option (list (string * string)) :=
  match cookieHeader with
  | None => Some []
  | Some cookieHeader =>
      if JS.falsy cookieHeader then Some []
      else parseCookieItems (JS.split ";" cookieHeader) []
  end.

(** What the middleware of [io.use] makes of a handshake: it refuses it, or
    lets it through with [socket.data.userId] set. *)
Inductive Handshake :=
| Refused
| Accepted (userId : option string).

Definition io_use (cookieHeader : option string) : Handshake :=
  match parseCookies cookieHeader with
  | None => Refused
  | Some cookies =>
      match mapGet "connect_token" cookies with
      | None => Refused
      | Some token =>
          if JS.falsy token then Refused
          else
            match jwtVerify token with
            | Some userId => Accepted userId
            | None => Refused
            end
      end
  end.

(* ------------------------------------------------------------------- *)
(** *** server.js: presence *)

Definition canWatchPresence (watcherUserId targetUserId : string) : M bool :=
  if JS.falsy watcherUserId || JS.falsy targetUserId then ret false
  else if watcherUserId =? targetUserId then ret true
  else if negb (isValid watcherUserId) || negb (isValid targetUserId) then ret false
  else
    watcherObjectId <- newObjectId watcherUserId ;;
    targetObjectId <- newObjectId targetUserId ;;
    Conversation_exists
      (fun c => oidIn watcherObjectId (Conversation.participants c)
                && oidIn targetObjectId (Conversation.participants c)).

Definition presencePayload (targetUserId : string) (isOnline : bool) (lastSeen : Date)
    : Payload :=
  [ ("userId", JStr targetUserId);
    ("isOnline", JBool isOnline);
    ("lastSeen", JDate lastSeen) ].

Definition emitPresenceUpdate (targetUserId : string) (isOnline : bool) (lastSeen : Date)
    : M unit :=
  let payload := presencePayload targetUserId isOnline lastSeen in
  io_to_emit ("presence:watch:" +:+ targetUserId) "presence:update" payload ;;;
  io_to_emit ("user:" +:+ targetUserId) "presence:update" payload.

(** [io.on("connection", ...)]; [userId] is [socket.data.userId], set by the
    middleware from the verified token.  The handlers of the socket are
    installed at the end, after the awaited write. *)
Definition onConnection (sid userId : string) : M unit :=
  if JS.falsy userId then leaveAll sid
  else
    modify (with_socketToUser (<[sid := userId]>)) ;;;
    join sid ("user:" +:+ userId) ;;;
    cur <- gets (fun w => onlineCounts w !! userId) ;;
    let count := (JS.orNum cur 0 + 1)%Z in
    modify (with_onlineCounts (<[userId := count]>)) ;;;
    now <- newDate ;;
    uid <- newObjectId userId ;;
    User_findByIdAndUpdate uid true now ;;;
    (if (count =? 1)%Z then emitPresenceUpdate userId true now else ret tt) ;;;
    modify (with_listening (fun s => {[sid]} ∪ s)).

(** The ["disconnect"] handler; the adapter has removed the socket from its
    rooms when it runs, and it runs only for a socket whose handlers are
    installed. *)
Definition onDisconnect (sid : string) : M unit :=
  leaveAll sid ;;;
  installed <- gets (fun w => bool_decide (sid ∈ listening w)) ;;
  if installed : bool
  then
    modify (with_listening (fun s => s ∖ {[sid]})) ;;;
    disconnectedUserId <- gets (fun w => socketToUser w !! sid) ;;
    modify (with_socketToUser (delete sid)) ;;;
    match disconnectedUserId with
    | None => ret tt
    | Some disconnectedUserId =>
        if JS.falsy disconnectedUserId then ret tt
        else
          cur <- gets (fun w => onlineCounts w !! disconnectedUserId) ;;
          let updatedCount := Z.max (JS.orNum cur 1 - 1) 0 in
          if (updatedCount =? 0)%Z
          then
            modify (with_onlineCounts (delete disconnectedUserId)) ;;;
            now <- newDate ;;
            uid <- newObjectId disconnectedUserId ;;
            User_findByIdAndUpdate uid false now ;;;
            emitPresenceUpdate disconnectedUserId false now
          else
            modify (with_onlineCounts (<[disconnectedUserId := updatedCount]>))
    end
  else ret tt.

(** ["presence:subscribe"] of the session [sid] of user [userId]. *)
Definition onPresenceSubscribe (sid userId : string) (targetUserId : option string)
    : M unit :=
  let normalizedTargetId := JS.trim (JS.orEmpty targetUserId) in
  if JS.falsy normalizedTargetId then ret tt
  else
    allowed <- canWatchPresence userId normalizedTargetId ;;
    if negb allowed then ret tt
    else
      join sid ("presence:watch:" +:+ normalizedTargetId) ;;;
      tid <- newObjectId normalizedTargetId ;;
      targetUser <- User_findById tid ;;
      match targetUser with
      | None => ret tt
      | Some targetUser =>
          cur <- gets (fun w => onlineCounts w !! normalizedTargetId) ;;
          socket_emit sid "presence:update"
            (presencePayload normalizedTargetId
               (User.isOnline targetUser || (0 <? JS.orNum cur 0)%Z)
               (User.lastSeen targetUser))
      end.

Definition onPresenceUnsubscribe (sid : string) (targetUserId : option string) : M unit :=
  let normalizedTargetId := JS.trim (JS.orEmpty targetUserId) in
  if JS.falsy normalizedTargetId then ret tt
  else leave sid ("presence:watch:" +:+ normalizedTargetId).

Definition onConversationJoin (sid : string) (conversationId : option string) : M unit :=
  match conversationId with
  | Some conversationId =>
      if JS.falsy conversationId then ret tt
      else join sid ("conversation:" +:+ conversationId)
  | None => ret tt
  end.

Definition onTypingUpdate (userId : string) (conversationId toUserId : option string)
    (isTyping : bool) : M unit :=
  if JS.falsy (JS.orEmpty toUserId) || JS.falsy (JS.orEmpty conversationId) then ret tt
  else
    io_to_emit ("user:" +:+ JS.orEmpty toUserId) "typing:update"
      [ ("conversationId", JStr (JS.orEmpty conversationId));
        ("fromUserId", JStr userId);
        ("isTyping", JBool isTyping) ].

(* ------------------------------------------------------------------- *)
(** *** server.js: the ingress of domain events, [POST /internal/realtime] *)

(** The groups an event is emitted to, in the order of the emissions. *)
Definition routes (type : string) (payload : Payload) : list string :=
  (if type =? "message:new"
   then [ "conversation:" +:+ fieldStr "conversationId" payload;
          "user:" +:+ fieldStr "recipientId" payload;
          "user:" +:+ fieldStr "senderId" payload ]
   else [])
  ++ (if type =? "message:read"
      then [ "conversation:" +:+ fieldStr "conversationId" payload ]
      else [])
  ++ (if type =? "message:deleted"
      then if fieldIs "mode" "me" payload
           then [ "user:" +:+ fieldStr "targetUserId" payload ]
           else [ "conversation:" +:+ fieldStr "conversationId" payload;
                  "user:" +:+ fieldStr "recipientId" payload;
                  "user:" +:+ fieldStr "senderId" payload ]
      else []).

Definition recognized (type : string) : bool :=
  (type =? "message:new") || (type =? "message:read") || (type =? "message:deleted").

Definition internalRealtime (expectedSecret : string) (receivedSecret : option string)
    (type : option string) (payload : option Payload) : M Response :=
  let refused :=
    match receivedSecret with
    | None => true
    | Some r => JS.falsy r || negb (r =? expectedSecret)
    end in
  if refused : bool then ret (json 401 (BError "Unauthorized"))
  else
    match type with
    | None => ret (json 200 BOk)
    | Some type =>
        match payload with
        | None => if recognized type then throw TypeError else ret (json 200 BOk)
        | Some payload =>
            mapM (fun room => io_to_emit room type payload) (routes type payload) ;;;
            ret (json 200 BOk)
        end
    end.

(* ------------------------------------------------------------------- *)
(** *** Concurrent calls of [getOrCreateConversation]

    A call is suspended at each [await]; the store runs the awaited
    operation atomically when the call gets its turn, and the call then
    runs on to its next [await] or to its end.  [resume] gives a call one
    turn. *)

Definition resume (c : Call) (w : World) : Call * World :=
  match c with
  | AtFindOne userA userB =>
      let participantKey := buildParticipantKey userA userB in
      match newObjectId userA w with
      | (Throw e, w0) => (Rejected e, w0)
      | (Ok currentUserObjectId, w0) =>
          match Conversation_findOne (convHasKey participantKey) w0 with
          | (Throw e, w1) => (Rejected e, w1)
          | (Ok None, w1) =>
              match newObjectId userB w1 with
              | (Throw e, w2) => (Rejected e, w2)
              | (Ok userBObjectId, w2) =>
                  (AtCreate [currentUserObjectId; userBObjectId] participantKey (clock w2), w2)
              end
          | (Ok (Some conversation), w1) =>
              if oidIn currentUserObjectId (Conversation.hiddenFor conversation)
              then (AtSave conversation (unhide currentUserObjectId conversation), w1)
              else (Returned conversation, w1)
          end
      end
  | AtCreate ps key at_ =>
      match Conversation_create ps key [] at_ "" w with
      | (Ok conversation, w1) => (Returned conversation, w1)
      | (Throw e, w1) => (Rejected e, w1)
      end
  | AtSave conversation hiddenFor =>
      match Conversation_save (Conversation._id conversation)
                              (setConvHiddenFor hiddenFor) w with
      | (Ok _, w1) => (Returned (setConvHiddenFor hiddenFor conversation), w1)
      | (Throw e, w1) => (Rejected e, w1)
      end
  | Returned _ | Rejected _ => (c, w)
  end.

Definition finished (c : Call) : bool :=
  match c with
  | Returned _ | Rejected _ => true
  | _ => false
  end.

(** The call of index [i] gets a turn. *)
Definition turn (i : nat) (st : list Call * World) : list Call * World :=
  match fst st !! i with
  | Some c => let (c', w') := resume c (snd st) in (<[i := c']> (fst st), w')
  | None => st
  end.

(** The calls take their turns in the order of the schedule. *)
Definition interleave (schedule : list nat) (st : list Call * World) : list Call * World :=
  fold_left (fun st i => turn i st) schedule st.

(** The number of stored conversations of one participant key. *)
Definition keyCount (key : string) (w : World) : nat :=
  length (List.filter (convHasKey key) (conversations w)).

(** The turns a call still needs. *)
Definition remaining (c : Call) : nat :=
  match c with
  | AtFindOne _ _ => 2
  | AtCreate _ _ _ | AtSave _ _ => 1
  | Returned _ | Rejected _ => 0
  end.

(** A call that has just been made for the pair of the key [key]. *)
Definition firstContact (key : string) (c : Call) : Prop :=
  exists userA userB,
    c = AtFindOne userA userB
    /\ buildParticipantKey userA userB = key
    /\ isValid userA = true /\ isValid userB = true.

(** What holds of a call at any moment of a first contact on [key]. *)
Definition onTrack (key : string) (w : World) (c : Call) : Prop :=
  match c with
  | AtFindOne userA userB =>
      buildParticipantKey userA userB = key
      /\ isValid userA = true /\ isValid userB = true
  | AtCreate ps k _ => k = key /\ length ps = 2
  | AtSave _ _ => False
  | Returned conv =>
      Conversation.participantKey conv = key
      /\ option_map Conversation._id
           (List.find (convHasKey key) (conversations w))
         = Some (Conversation._id conv)
  | Rejected e => e = DuplicateKey /\ keyCount key w = 1
  end.

Definition firstContactInv (key : string) (st : list Call * World) : Prop :=
  faults (snd st) = []
  /\ keyCount key (snd st) <= 1
  /\ (forall c, In c (conversations (snd st)) ->
                convHasKey key c = true -> Conversation.hiddenFor c = [])
  /\ Forall (onTrack key (snd st)) (fst st).

(* ------------------------------------------------------------------- *)
(** *** Vocabulary of the properties *)

(** The event that a send posts. *)
Definition sent (conversationId messageId senderId recipientId text : string)
    (createdAt : Date) : string * Payload :=
  ("message:new",
   [ ("conversationId", JStr conversationId);
     ("messageId", JStr messageId);
     ("senderId", JStr senderId);
     ("recipientId", JStr recipientId);
     ("text", JStr text);
     ("createdAt", JDate createdAt) ]).

(** The second world differs from the first in the store's pending faults
    at most. *)
Definition sameButFaults (w w1 : World) : Prop :=
  users w1 = users w /\ conversations w1 = conversations w
  /\ messages w1 = messages w /\ clock w1 = clock w
  /\ oidSeed w1 = oidSeed w /\ outbox w1 = outbox w.

(** The second world has the users, the messages, the clock and the posted
    events of the first. *)
Definition sameButConversations (w w1 : World) : Prop :=
  users w1 = users w /\ messages w1 = messages w
  /\ clock w1 = clock w /\ outbox w1 = outbox w.

(** [new Types.ObjectId(s)] for every string of a list, as a function. *)
Fixpoint castAll (l : list string) : Outcome (list ObjectId) :=
  match l with
  | [] => Ok []
  | s :: r =>
      match parseOid s with
      | None => Throw BSONError
      | Some o =>
          match castAll r with
          | Ok os => Ok (o :: os)
          | Throw e => Throw e
          end
      end
  end.

(** [cursorAfter] as a function. *)
Definition cursorOf {A} (key : A -> Date) (limit : nat) (arr : list A)
    : Outcome (option Date) :=
  if (length arr =? limit)%nat
  then match last arr with
       | Some x => Ok (Some (key x))
       | None => Throw TypeError
       end
  else Ok None.

(** What [GET_conversations] answers to the user [me] when no fault is
    pending, as a function of the three collections. *)
Definition conversationList (authUserId : string) (me : ObjectId)
    (limitParam : option nat) (cursor : option Date)
    (us : list User.t) (cs : list Conversation.t) (ms : list Message.t)
    : Outcome Response :=
  let limit := Nat.min (default 20 limitParam) 50 in
  let found :=
    limitTo limit (sortDesc Conversation.lastMessageAt
                     (List.filter (listedFor me cursor) cs)) in
  let otherUserIds :=
    List.map (fun c => option_map oidStr (otherParticipant authUserId c)) found in
  let uniqueOtherUserIds :=
    uniqueFrom [] (List.filter (fun x => negb (JS.falsy x)) (omap id otherUserIds)) in
  match castAll uniqueOtherUserIds with
  | Throw e => Throw e
  | Ok ids =>
      let users := List.filter (fun u => oidIn (User._id u) ids) us in
      let latestVisibleMessages :=
        List.map (fun c => head (sortDesc Message.createdAt
                                   (List.filter (visibleIn (Conversation._id c) me) ms)))
                 found in
      let latestVisibleMessagesMap :=
        combine (List.map (fun c => oidStr (Conversation._id c)) found)
                latestVisibleMessages in
      match cursorOf Conversation.lastMessageAt limit found with
      | Throw e => Throw e
      | Ok nextCursor =>
          Ok (json 200
                (BConversations
                   (omap (conversationItem authUserId users latestVisibleMessagesMap)
                         found)
                   nextCursor))
      end
  end.

(** A document as one user sees it: of [hiddenFor], only that user's own
    entries count. *)
Definition onlyFor (x : ObjectId) (l : list ObjectId) : list ObjectId :=
  List.filter (N.eqb x) l.


Definition msgSeenBy (x : ObjectId) (m : Message.t) : Message.t :=
  setMsgHiddenFor (onlyFor x (Message.hiddenFor m)) m.

(** Every stored conversation of the identifier [cid] is hidden for [x]. *)
Definition hiddenFrom (x cid : ObjectId) (w : World) : Prop :=
  forall c, In c (conversations w) -> Conversation._id c = cid ->
            oidIn x (Conversation.hiddenFor c) = true.

(** The groups a presence event is emitted to, in the order of the
    emissions. *)
Definition presenceRoutes (targetUserId : string) : list string :=
  [ "presence:watch:" +:+ targetUserId; "user:" +:+ targetUserId ].

(** The emissions of one event to a list of groups, as the adapter records
    them in the world [w]. *)
Definition emissions (w : World) (event : string) (payload : Payload)
    (groups : list string) : list Emit :=
  List.map (fun room => mkEmit room event payload (elements (members w room))) groups.

(** The number of the groups of a list that the session [sid] belongs to,
    a group counting each time it is listed. *)
Definition memberships (w : World) (sid : string) (groups : list string) : nat :=
  length (List.filter (fun room => bool_decide (sid ∈ members w room)) groups).

(** Every counter of [onlineCounts] is positive. *)
Definition countsPositive (w : World) : Prop :=
  forall u n, onlineCounts w !! u = Some n -> (0 < n)%Z.

(** The stored presence of a user. *)
Definition presenceOf (id : ObjectId) (w : World) : option (bool * Date) :=
  option_map (fun u => (User.isOnline u, User.lastSeen u))
             (List.find (userHasId id) (users w)).

(** The event that a delete for oneself posts. *)
Definition deletedForMe (message : Message.t) (authUserId : string) : string * Payload :=
  ("message:deleted",
   [ ("conversationId", JStr (oidStr (Message.conversationId message)));
     ("messageId", JStr (oidStr (Message._id message)));
     ("mode", JStr "me");
     ("targetUserId", JStr authUserId) ]).

(** The filter of a page of the history of the conversation [cid], as the
    user [me] fetches it. *)
Definition inHistory (cid me : ObjectId) (cursor : option Date) (m : Message.t) : bool :=
  (Message.conversationId m =? cid)%N
  && negb (oidIn me (Message.hiddenFor m))
  && match cursor with
     | Some c => (Message.createdAt m <? c)%N
     | None => true
     end.

(** The stored messages of such a page, newest first. *)
Definition historyPage (cid me : ObjectId) (cursor : option Date) (limit : nat)
    (ms : list Message.t) : list Message.t :=
  limitTo limit (sortDesc Message.createdAt (List.filter (inHistory cid me cursor) ms)).



(** What a history fetch answers with, for the conversation [cid] and the
    user [me], as a function of the stored messages. *)
Definition historyAnswer (cid me : ObjectId) (cursor : option Date) (limit : nat)
    (ms : list Message.t) : Outcome Response :=
  let page := rev (historyPage cid me cursor limit ms) in
  match cursorOf Message.createdAt limit page with
  | Throw e => Throw e
  | Ok nextCursor =>
      Ok (json 200 (BMessages (oidStr cid) (List.map messageView page) nextCursor))
  end.

(** What a mark-read by [me] in the conversation [cid] makes of a stored
    message: the caller becomes its last reader if the message was unread by
    them, and it is left as it is otherwise. *)
Definition markedRead (cid me : ObjectId) (m : Message.t) : Message.t :=
  if unreadBy cid me m then setMsgReadBy (Message.readBy m ++ [me]) m else m.

(** A run of [c] that starts in a world of [P] ends in a world of [P],
    whatever it answers. *)
Definition preserves {A} (P : World -> Prop) (c : M A) : Prop :=
  forall w r w', P w -> c w = (r, w') -> P w'.

(** [P] does not look at the pending faults of the store. *)
Definition faultBlind (P : World -> Prop) : Prop :=
  forall w fs, P w -> P (with_faults (fun _ => fs) w).

(** The store is sound: identifiers name one conversation and one message,
    a participant key names one conversation, every conversation has two
    participants, and every identifier in use was given out by the
    generator. *)
Definition wellStored (w : World) : Prop :=
  List.NoDup (List.map Conversation._id (conversations w))
  /\ List.NoDup (List.map Conversation.participantKey (conversations w))
  /\ List.NoDup (List.map Message._id (messages w))
  /\ (forall c, In c (conversations w) ->
        length (Conversation.participants c) = 2
        /\ (Conversation._id c < oidSeed w)%N)
  /\ (forall m, In m (messages w) -> (Message._id m < oidSeed w)%N).

(** The message [m'] is what has become of the message [m]: the same
    identifier, conversation, sender, recipient and creation time, and
    nobody taken out of its readers or of those it is hidden for. *)
Definition keeps (m m' : Message.t) : Prop :=
  Message._id m' = Message._id m
  /\ Message.conversationId m' = Message.conversationId m
  /\ Message.senderId m' = Message.senderId m
  /\ Message.recipientId m' = Message.recipientId m
  /\ Message.createdAt m' = Message.createdAt m
  /\ (forall x, In x (Message.readBy m) -> In x (Message.readBy m'))
  /\ (forall x, In x (Message.hiddenFor m) -> In x (Message.hiddenFor m')).

(** The world [w] is a later state of the history of [w0]: every message of
    [w] is what has become of a message of [w0], or was created since;
    the users are those of [w0], and the socket server is as it was. *)
Definition historyOf (w0 w : World) : Prop :=
  (oidSeed w0 <= oidSeed w)%N
  /\ users w = users w0
  /\ onlineCounts w = onlineCounts w0 /\ socketToUser w = socketToUser w0
  /\ listening w = listening w0 /\ rooms w = rooms w0 /\ wire w = wire w0
  /\ (exists posted, outbox w = outbox w0 ++ posted)
  /\ forall m', In m' (messages w) ->
       (exists m, In m (messages w0) /\ keeps m m')
       \/ (oidSeed w0 <= Message._id m')%N.

(** A request to one of the routes of [app/api/messages] and
    [app/api/conversations], with what the handler reads of it: the verified
    user of the cookie, and the parameters or the fields of the body. *)
Inductive Request :=
| GetMessages (auth : option string) (userId : option string)
    (cursor : option Date) (limit : option nat)
| PostMessages (auth : option string) (toUserId text : option string)
| DeleteMessages (auth : option string) (messageId mode : option string)
| PostMessagesRead (auth : option string) (conversationId : option string)
| GetConversations (auth : option string) (limit : option nat) (cursor : option Date)
| DeleteConversations (auth : option string) (conversationId mode : option string).

(** The handler that the route and the method of a request select. *)
Definition handle (q : Request) : M Response :=
  match q with
  | GetMessages auth userId cursor limit => GET_messages auth userId cursor limit
  | PostMessages auth toUserId text => POST_messages auth toUserId text
  | DeleteMessages auth messageId mode => DELETE_messages auth messageId mode
  | PostMessagesRead auth conversationId => POST_messages_read auth conversationId
  | GetConversations auth limit cursor => GET_conversations auth limit cursor
  | DeleteConversations auth conversationId mode =>
      DELETE_conversations auth conversationId mode
  end.

(** The world after a sequence of requests, each handled to its end before
    the next, whatever each was answered. *)
Definition serve (qs : list Request) (w : World) : World :=
  fold_left (fun w q => snd (handle q w)) qs w.

(** The documents of the conversations and of the messages, and the events
    posted, are in [w'] what they are in [w]. *)
Definition sameDocuments (w w' : World) : Prop :=
  conversations w' = conversations w /\ messages w' = messages w
  /\ outbox w' = outbox w /\ oidSeed w' = oidSeed w.

(** The characters of a [data:image] address that the avatar filter lets
    through: letters, digits, [.+-/=:;,] and white space. *)
Definition isDataUrlChar (c : ascii) : bool :=
  isMediaTypeChar c || isBase64Char c
  || Ascii.eqb c ":" || Ascii.eqb c ";" || Ascii.eqb c ",".

(** A string is trimmed at its start when it is empty or begins with a
    character that is not white space. *)
Definition startsTrimmed (s : string) : bool :=
  match s with
  | EmptyString => true
  | String c _ => negb (JS.isSpace c)
  end.

(** No character of [s] is a colon, as in an identifier of 24 hexadecimal
    digits. *)
Definition colonFree (s : string) : bool :=
  JS.all (fun c => negb (Ascii.eqb c ":")) s.

(** A cookie header as a browser writes it: the pairs [name=value],
    separated by a semicolon and a space. *)
Definition cookieItem (kv : string * string) : string := fst kv +:+ "=" +:+ snd kv.

Definition cookieHeaderOf (pairs : list (string * string)) : string :=
  JS.join "; " (List.map cookieItem pairs).

(** The characters of the name of a cookie, and of its value as it is
    written in the header. *)
Definition isCookieValueChar (c : ascii) : bool :=
  negb (JS.isSpace c) && negb (Ascii.eqb c ";").

Definition isCookieNameChar (c : ascii) : bool :=
  isCookieValueChar c && negb (Ascii.eqb c "=").

Definition wellFormedCookie (kv : string * string) : Prop :=
  fst kv <> "" /\ JS.all isCookieNameChar (fst kv) = true
  /\ JS.all isCookieValueChar (snd kv) = true.

(** The values of the pairs, decoded; nothing when one of them is
    malformed. *)
Fixpoint decodeAll (pairs : list (string * string)) : option (list (string * string)) :=
  match pairs with
  | [] => Some []
  | (name, value) :: rest =>
      match decodeURIComponent value with
      | None => None
      | Some decoded =>
          match decodeAll rest with
          | Some cookies => Some ((name, decoded) :: cookies)
          | None => None
          end
      end
  end.


(** The conversation of the identifier [cid] is hidden for [x], and the
    identifier is not one that the generator has yet to give out. *)
Definition keptHidden (x cid : ObjectId) (w : World) : Prop :=
  hiddenFrom x cid w /\ (cid < oidSeed w)%N.


(* =================================================================== *)
(** ** Properties *)
(* =================================================================== *)

Set Default Proof Using "Type".

(** Unfolds the monad down to functions on worlds. *)
Ltac unfold_m := repeat progress (unfold bind, gets, ret, modify, newDate, freshOid).

(** Reads the fields of an updated world. *)
Ltac fields :=
  cbn beta iota delta
    [users conversations messages clock oidSeed faults outbox onlineCounts
     socketToUser listening rooms wire
     with_users with_conversations with_messages with_clock with_oidSeed
     with_faults with_outbox with_onlineCounts with_socketToUser with_listening
     with_rooms with_wire].

Tactic Notation "fields" "in" hyp(H) :=
  cbn beta iota delta
    [users conversations messages clock oidSeed faults outbox onlineCounts
     socketToUser listening rooms wire
     with_users with_conversations with_messages with_clock with_oidSeed
     with_faults with_outbox with_onlineCounts with_socketToUser with_listening
     with_rooms with_wire] in H.

(** *** The store when no fault is pending *)

Lemma store_ok w : faults w = [] -> store w = (Ok tt, w).
Proof. intros H. unfold store. now rewrite H. Qed.

Lemma newObjectId_valid s :
  isValid s = true -> exists o, parseOid s = Some o /\ forall w, newObjectId s w = (Ok o, w).
Proof.
  unfold isValid, newObjectId. destruct (parseOid s) as [o|]; [|discriminate].
  intros _. exists o. split; [reflexivity|]. intros w. reflexivity.
Qed.

(** *** The cursor of a page *)

Lemma cursorAfter_run {A} (key : A -> Date) limit arr w :
  cursorAfter key limit arr w = (cursorOf key limit arr, w).
Proof.
  unfold cursorAfter, cursorOf.
  destruct (length arr =? limit)%nat; [|reflexivity].
  destruct (last arr); reflexivity.
Qed.

Lemma bind_cursorAfter {A} (key : A -> Date) limit arr (k : option Date -> Response) w :
  bind (cursorAfter key limit arr) (fun nextCursor => ret (k nextCursor)) w
  = (match cursorOf key limit arr with
     | Throw e => Throw e
     | Ok nextCursor => Ok (k nextCursor)
     end, w).
Proof.
  unfold bind. rewrite cursorAfter_run.
  destruct (cursorOf key limit arr); reflexivity.
Qed.

Lemma filter_none_of {A} (p : A -> bool) l :
  (forall x, In x l -> p x = false) -> List.filter p l = [].
Proof.
  induction l as [|a l IH]; intros H; [reflexivity|]. simpl.
  rewrite (H a (or_introl eq_refl)). apply IH. intros x Hx. apply H. now right.
Qed.

Lemma last_nonempty {A} (l : list A) : l <> [] -> exists x, last l = Some x.
Proof.
  induction l as [|a l IH]; [congruence|]. intros _.
  destruct l as [|b l]; [now exists a|].
  destruct IH as [x Hx]; [discriminate|]. exists x. exact Hx.
Qed.

(** With a limit that is not zero, a full page has a last element. *)
Lemma cursorOf_limit {A} (key : A -> Date) limit arr :
  limit <> 0 ->
  cursorOf key limit arr
  = Ok (if (length arr =? limit)%nat then option_map key (last arr) else None).
Proof.
  intros Hl. unfold cursorOf.
  destruct (Nat.eqb_spec (length arr) limit) as [E|E]; [|reflexivity].
  destruct (last_nonempty arr) as [x Hx].
  { intros ->. simpl in E. congruence. }
  now rewrite Hx.
Qed.

(** *** The participant key *)

Lemma sort_pair a b :
  JS.sort [a; b] = if String.ltb b a then [b; a] else [a; b].
Proof. reflexivity. Qed.

Lemma ltb_asym a b : String.ltb a b = true -> String.ltb b a = false.
Proof.
  unfold String.ltb. rewrite (String.compare_antisym b a).
  destruct (String.compare a b); simpl; congruence.
Qed.

Lemma ltb_total a b : String.ltb a b = false -> String.ltb b a = false -> a = b.
Proof.
  unfold String.ltb. intros H1 H2.
  apply String.compare_eq_iff.
  rewrite (String.compare_antisym b a) in H2.
  destruct (String.compare a b); simpl in *; congruence.
Qed.

Lemma buildParticipantKey_sym a b :
  buildParticipantKey a b = buildParticipantKey b a.
Proof.
  unfold buildParticipantKey. rewrite !sort_pair.
  destruct (String.ltb b a) eqn:Hba.
  - now rewrite (ltb_asym _ _ Hba).
  - destruct (String.ltb a b) eqn:Hab; [reflexivity|].
    now rewrite (ltb_total _ _ Hab Hba).
Qed.

(** *** The three ways through [getOrCreateConversation] *)

Lemma find_existsb {A} (p : A -> bool) l :
  existsb p l = match List.find p l with Some _ => true | None => false end.
Proof. induction l as [|x l IH]; simpl; [reflexivity|]. destruct (p x); auto. Qed.

Lemma find_has_id (p : Conversation.t -> bool) l c :
  List.find p l = Some c -> existsb (convHasId (Conversation._id c)) l = true.
Proof.
  intros H. apply List.find_some in H as [Hin _].
  apply existsb_exists. exists c. split; [assumption|].
  unfold convHasId. apply N.eqb_refl.
Qed.

Lemma getOrCreate_creates userA userB oa ob w :
  faults w = [] ->
  parseOid userA = Some oa -> parseOid userB = Some ob ->
  List.find (convHasKey (buildParticipantKey userA userB)) (conversations w) = None ->
  let c := Conversation.mk (oidSeed w) [oa; ob] (buildParticipantKey userA userB)
                           [] "" (clock w) in
  getOrCreateConversation userA userB w
  = (Ok c, with_conversations (fun l => l ++ [c]) (with_oidSeed N.succ w)).
Proof.
  intros Hf Ha Hb Hnone c.
  unfold getOrCreateConversation, newObjectId, Conversation_findOne,
    Conversation_create, bind, gets, ret, newDate, freshOid, modify.
  rewrite Ha, (store_ok _ Hf), Hnone, Hb. simpl.
  rewrite (store_ok _ Hf), find_existsb, Hnone. reflexivity.
Qed.

Lemma getOrCreate_finds userA userB oa c w :
  faults w = [] ->
  parseOid userA = Some oa ->
  List.find (convHasKey (buildParticipantKey userA userB)) (conversations w) = Some c ->
  oidIn oa (Conversation.hiddenFor c) = false ->
  getOrCreateConversation userA userB w = (Ok c, w).
Proof.
  intros Hf Ha Hsome Hvis.
  unfold getOrCreateConversation, newObjectId, Conversation_findOne, bind, gets, ret.
  rewrite Ha, (store_ok _ Hf), Hsome, Hvis. reflexivity.
Qed.

Lemma getOrCreate_unhides userA userB oa c w :
  faults w = [] ->
  parseOid userA = Some oa ->
  List.find (convHasKey (buildParticipantKey userA userB)) (conversations w) = Some c ->
  oidIn oa (Conversation.hiddenFor c) = true ->
  getOrCreateConversation userA userB w
  = (Ok (setConvHiddenFor (unhide oa c) c),
     with_conversations
       (updateFirst (convHasId (Conversation._id c)) (setConvHiddenFor (unhide oa c))) w).
Proof.
  intros Hf Ha Hsome Hhid.
  unfold getOrCreateConversation, newObjectId, Conversation_findOne,
    Conversation_save, bind, gets, ret, modify.
  rewrite Ha, (store_ok _ Hf), Hsome, Hhid, (store_ok _ Hf).
  rewrite (find_has_id _ _ _ Hsome). reflexivity.
Qed.

(** *** What a resolved call leaves in the store *)

Lemma find_updateFirst_id (p q : Conversation.t -> bool) f l :
  (forall c, p (f c) = p c) ->
  (forall c, Conversation._id (f c) = Conversation._id c) ->
  option_map Conversation._id (List.find p (updateFirst q f l))
  = option_map Conversation._id (List.find p l).
Proof.
  intros Hp Hid. induction l as [|x l IH]; simpl; [reflexivity|].
  destruct (q x); simpl.
  - rewrite Hp. destruct (p x); simpl; [now rewrite Hid | reflexivity].
  - destruct (p x); simpl; [reflexivity | exact IH].
Qed.

Lemma filter_updateFirst_length {A} (p q : A -> bool) f l :
  (forall c, p (f c) = p c) ->
  length (List.filter p (updateFirst q f l)) = length (List.filter p l).
Proof.
  intros Hp. induction l as [|x l IH]; simpl; [reflexivity|].
  destruct (q x); simpl.
  - rewrite Hp. destruct (p x); reflexivity.
  - destruct (p x); simpl; now rewrite IH.
Qed.

Lemma find_snoc {A} (p : A -> bool) l x :
  List.find p l = None -> List.find p (l ++ [x]) = if p x then Some x else None.
Proof.
  induction l as [|y l IH]; simpl; [reflexivity|].
  destruct (p y); [discriminate | exact IH].
Qed.

Lemma find_none_filter {A} (p : A -> bool) l :
  List.find p l = None -> List.filter p l = [].
Proof.
  induction l as [|y l IH]; simpl; [reflexivity|].
  destruct (p y); [discriminate | exact IH].
Qed.

Lemma find_some_filter {A} (p : A -> bool) l x :
  List.find p l = Some x -> 1 <= length (List.filter p l).
Proof.
  induction l as [|y l IH]; simpl; [discriminate|].
  destruct (p y); simpl; [lia | exact IH].
Qed.

Lemma convHasKey_eq k c : convHasKey k c = true -> Conversation.participantKey c = k.
Proof. unfold convHasKey. apply String.eqb_eq. Qed.

(** With no fault pending and two well-formed identifiers the call
    returns; the conversation it returns carries the key of the pair and is
    the first one of that key in the store, and the number of conversations
    of that key is one if there was none and is unchanged otherwise. *)
Lemma getOrCreate_resolves userA userB w :
  faults w = [] -> isValid userA = true -> isValid userB = true ->
  exists c w',
    getOrCreateConversation userA userB w = (Ok c, w')
    /\ faults w' = []
    /\ Conversation.participantKey c = buildParticipantKey userA userB
    /\ option_map Conversation._id
         (List.find (convHasKey (buildParticipantKey userA userB)) (conversations w'))
       = Some (Conversation._id c)
    /\ keyCount (buildParticipantKey userA userB) w'
       = Nat.max 1 (keyCount (buildParticipantKey userA userB) w).
Proof.
  intros Hf Ha Hb.
  destruct (newObjectId_valid _ Ha) as (oa & Hoa & _).
  destruct (newObjectId_valid _ Hb) as (ob & Hob & _).
  set (K := buildParticipantKey userA userB).
  destruct (List.find (convHasKey K) (conversations w)) as [c|] eqn:Hfind.
  - pose proof (List.find_some _ _ Hfind) as [_ Hkey].
    pose proof (find_some_filter _ _ _ Hfind) as Hcount.
    destruct (oidIn oa (Conversation.hiddenFor c)) eqn:Hhid.
    + eexists _, _. split; [apply (getOrCreate_unhides _ _ _ _ _ Hf Hoa Hfind Hhid)|].
      split; [exact Hf|]. split; [now apply convHasKey_eq|]. split.
      * simpl. rewrite find_updateFirst_id by reflexivity.
        fold K. now rewrite Hfind.
      * unfold keyCount. simpl. rewrite filter_updateFirst_length by reflexivity.
        fold K. lia.
    + eexists _, _. split; [apply (getOrCreate_finds _ _ _ _ _ Hf Hoa Hfind Hhid)|].
      split; [exact Hf|]. split; [now apply convHasKey_eq|]. split.
      * fold K. now rewrite Hfind.
      * unfold keyCount. fold K. lia.
  - eexists _, _. split; [apply (getOrCreate_creates _ _ _ _ _ Hf Hoa Hob Hfind)|].
    split; [exact Hf|]. split; [reflexivity|]. split.
    + simpl. fold K. rewrite (find_snoc _ _ _ Hfind).
      unfold convHasKey at 1. simpl. fold K. now rewrite String.eqb_refl.
    + unfold keyCount. simpl. fold K. rewrite List.filter_app, List.length_app.
      rewrite (find_none_filter _ _ Hfind). simpl.
      unfold convHasKey. simpl. fold K. now rewrite String.eqb_refl.
Qed.

(** C2.  For two well-formed identifiers the participant key does not
    depend on their order, and a call for (A, B) followed by a call for
    (B, A) both return, with the same conversation: the same [_id] under the
    same key.  After the two calls the store holds one conversation of that
    key if it held none before, and as many as before otherwise. *)
Theorem getOrCreateConversation_order_independent userA userB w :
  isValid userA = true -> isValid userB = true -> faults w = [] ->
  buildParticipantKey userA userB = buildParticipantKey userB userA
  /\ exists c1 w1 c2 w2,
       getOrCreateConversation userA userB w = (Ok c1, w1)
       /\ getOrCreateConversation userB userA w1 = (Ok c2, w2)
       /\ Conversation._id c1 = Conversation._id c2
       /\ Conversation.participantKey c1 = buildParticipantKey userA userB
       /\ Conversation.participantKey c2 = buildParticipantKey userA userB
       /\ keyCount (buildParticipantKey userA userB) w2
          = Nat.max 1 (keyCount (buildParticipantKey userA userB) w).
Proof.
  intros Ha Hb Hf. split; [apply buildParticipantKey_sym|].
  destruct (getOrCreate_resolves userA userB w Hf Ha Hb)
    as (c1 & w1 & Hrun1 & Hf1 & Hk1 & Hfind1 & Hcnt1).
  destruct (newObjectId_valid _ Hb) as (ob & Hob & _).
  destruct (newObjectId_valid _ Ha) as (oa & Hoa & _).
  exists c1, w1.
  rewrite (buildParticipantKey_sym userA userB) in Hfind1.
  destruct (List.find (convHasKey (buildParticipantKey userB userA)) (conversations w1))
    as [c|] eqn:Hfind; [|discriminate].
  simpl in Hfind1. injection Hfind1 as Hid.
  pose proof (List.find_some _ _ Hfind) as [_ Hkey]. apply convHasKey_eq in Hkey.
  destruct (oidIn ob (Conversation.hiddenFor c)) eqn:Hhid.
  - eexists _, _. split; [exact Hrun1|].
    split; [apply (getOrCreate_unhides _ _ _ _ _ Hf1 Hob Hfind Hhid)|].
    split; [simpl; congruence|]. split; [exact Hk1|].
    split; [simpl; rewrite Hkey; symmetry; apply buildParticipantKey_sym|].
    unfold keyCount in *. simpl. rewrite filter_updateFirst_length by reflexivity.
    rewrite Hcnt1. lia.
  - eexists _, _. split; [exact Hrun1|].
    split; [apply (getOrCreate_finds _ _ _ _ _ Hf1 Hob Hfind Hhid)|].
    split; [congruence|]. split; [exact Hk1|].
    split; [rewrite Hkey; symmetry; apply buildParticipantKey_sym|].
    rewrite Hcnt1. lia.
Qed.

(** *** Presence authorization *)

Lemma falsy_empty s : JS.falsy s = true <-> s = "".
Proof. destruct s; simpl; split; congruence. Qed.

Lemma oidIn_In x l : oidIn x l = true <-> In x l.
Proof.
  unfold oidIn. rewrite existsb_exists. split.
  - intros (y & Hin & Heq). apply N.eqb_eq in Heq. now subst.
  - intros Hin. exists x. split; [assumption | apply N.eqb_refl].
Qed.

(** Two different identifiers inside a list of length two are the list. *)
Lemma pair_of_two (a b : ObjectId) l :
  length l = 2 -> a <> b -> In a l -> In b l ->
  forall x, In x l <-> x = a \/ x = b.
Proof.
  intros Hlen Hne Ha Hb x.
  destruct l as [|p [|q [|r l]]]; simpl in Hlen; try discriminate.
  simpl in Ha, Hb. simpl.
  destruct Ha as [Ha|[Ha|[]]]; destruct Hb as [Hb|[Hb|[]]]; subst;
    try congruence;
    (split; [intros [H|[H|[]]]; subst; auto | intros [H|H]; subst; auto]).
Qed.

Ltac finish_guard :=
  repeat split;
  try reflexivity; try (intros; reflexivity); try (intros; congruence);
  try (intros [?|?]; congruence).

(** The query of [canWatchPresence] away from its guards. *)
Lemma canWatchPresence_query watcher target wo to w :
  JS.falsy watcher = false -> JS.falsy target = false ->
  watcher <> target ->
  parseOid watcher = Some wo -> parseOid target = Some to ->
  faults w = [] ->
  canWatchPresence watcher target w
  = (Ok (existsb (fun c => oidIn wo (Conversation.participants c)
                           && oidIn to (Conversation.participants c))
                 (conversations w)), w).
Proof.
  intros Hw Ht Hne Hwo Hto Hf.
  unfold canWatchPresence, isValid, newObjectId, Conversation_exists, bind, gets, ret.
  rewrite Hw, Ht. simpl.
  destruct (String.eqb_spec watcher target) as [Heq|_]; [contradiction|].
  rewrite Hwo, Hto. simpl. now rewrite (store_ok _ Hf).
Qed.

(** C8, as the code has it.  With no fault pending the check returns and
    leaves the world as it is.  It answers false when either identifier is
    empty; otherwise true when the two identifiers are equal; otherwise false
    when one of them is not well formed; otherwise true exactly when some
    conversation has both among its participants.  When every stored
    conversation has two participants and the two identifiers denote
    different users, that is a conversation whose participants are exactly
    the watcher and the target. *)
Theorem canWatchPresence_decides watcher target w :
  faults w = [] ->
  exists b,
    canWatchPresence watcher target w = (Ok b, w)
    /\ (watcher = "" \/ target = "" -> b = false)
    /\ (watcher <> "" -> watcher = target -> b = true)
    /\ (watcher <> "" -> target <> "" -> watcher <> target ->
        isValid watcher = false \/ isValid target = false -> b = false)
    /\ (forall wo to,
          watcher <> "" -> target <> "" -> watcher <> target ->
          parseOid watcher = Some wo -> parseOid target = Some to ->
          (b = true <->
             exists c, In c (conversations w)
                       /\ In wo (Conversation.participants c)
                       /\ In to (Conversation.participants c))
          /\ (wo <> to ->
              (forall c, In c (conversations w) ->
                         length (Conversation.participants c) = 2) ->
              (b = true <->
                 exists c, In c (conversations w)
                           /\ forall x, In x (Conversation.participants c)
                                        <-> x = wo \/ x = to))).
Proof.
  intros Hf.
  destruct (JS.falsy watcher) eqn:Hw.
  { exists false. apply falsy_empty in Hw. subst watcher.
    finish_guard. }
  destruct (JS.falsy target) eqn:Ht.
  { exists false. apply falsy_empty in Ht. subst target.
    unfold canWatchPresence. rewrite Hw. simpl.
    finish_guard. }
  assert (Hwne : watcher <> "") by (intros E; apply falsy_empty in E; congruence).
  assert (Htne : target <> "") by (intros E; apply falsy_empty in E; congruence).
  destruct (String.eqb_spec watcher target) as [Heq|Hne].
  { exists true. unfold canWatchPresence. rewrite Hw, Ht. simpl.
    subst target. rewrite String.eqb_refl.
    finish_guard. }
  destruct (parseOid watcher) as [wo|] eqn:Hwo.
  2:{ exists false. unfold canWatchPresence, isValid. rewrite Hw, Ht, Hwo. simpl.
      destruct (String.eqb_spec watcher target); [contradiction|].
      finish_guard. }
  destruct (parseOid target) as [to|] eqn:Hto.
  2:{ exists false. unfold canWatchPresence, isValid. rewrite Hw, Ht, Hwo, Hto. simpl.
      destruct (String.eqb_spec watcher target); [contradiction|].
      finish_guard. }
  eexists. split; [apply (canWatchPresence_query _ _ _ _ _ Hw Ht Hne Hwo Hto Hf)|].
  split; [intros [E|E]; congruence|]. split; [congruence|].
  split; [unfold isValid; rewrite Hwo, Hto; intros _ _ _ [E|E]; discriminate|].
  intros wo' to' _ _ _ Ewo Eto. injection Ewo as <-. injection Eto as <-.
  assert (Hmain :
    existsb (fun c => oidIn wo (Conversation.participants c)
                      && oidIn to (Conversation.participants c)) (conversations w) = true
    <-> exists c, In c (conversations w)
                  /\ In wo (Conversation.participants c)
                  /\ In to (Conversation.participants c)).
  { rewrite existsb_exists. split.
    - intros (c & Hin & Hb). apply andb_true_iff in Hb as [H1 H2].
      exists c. rewrite <- !oidIn_In. auto.
    - intros (c & Hin & H1 & H2). exists c. split; [assumption|].
      apply andb_true_iff. rewrite !oidIn_In. auto. }
  split; [exact Hmain|].
  intros Hdiff Hlen. rewrite Hmain. split.
  - intros (c & Hin & H1 & H2). exists c. split; [assumption|].
    apply pair_of_two; auto.
  - intros (c & Hin & Hset). exists c. split; [assumption|].
    split; apply Hset; auto.
Qed.

(** *** History fetch and first contact *)

Lemma canWatchPresence_after_create a b oa ob c w :
  JS.falsy a = false -> JS.falsy b = false ->
  parseOid a = Some oa -> parseOid b = Some ob ->
  faults w = [] ->
  In c (conversations w) ->
  In oa (Conversation.participants c) -> In ob (Conversation.participants c) ->
  canWatchPresence a b w = (Ok true, w).
Proof.
  intros Ha Hb Hoa Hob Hf Hin H1 H2.
  destruct (String.eqb_spec a b) as [Heq|Hne].
  - unfold canWatchPresence. rewrite Ha, Hb. simpl. subst b.
    now rewrite String.eqb_refl.
  - rewrite (canWatchPresence_query _ _ _ _ _ Ha Hb Hne Hoa Hob Hf).
    f_equal. f_equal. apply existsb_exists. exists c. split; [assumption|].
    apply andb_true_iff. rewrite !oidIn_In. auto.
Qed.

(** C10.  A history fetch by an authenticated caller, for any well-formed
    target identifier with which the caller has no conversation yet, stores a
    new conversation between the caller and that identifier, whatever the
    cursor and the limit.  The collection of users is not consulted: nothing
    is asked of the target but its syntax.  From then on the presence check
    passes between the two identifiers, in both directions.  The fetch is
    answered 200 when the limit is not zero; with the limit zero, which lifts
    the limit, and no message of the new conversation, the handler throws a
    [TypeError] when it reads the cursor of the empty page, after the
    conversation has been stored. *)
Theorem GET_messages_creates_without_user_check me userIdParam cursor limitParam w :
  let userId := JS.trim (JS.orEmpty userIdParam) in
  let limit := Nat.min (default 30 limitParam) 100 in
  JS.falsy me = false -> isValid me = true ->
  JS.falsy userId = false -> isValid userId = true ->
  faults w = [] ->
  List.find (convHasKey (buildParticipantKey me userId)) (conversations w) = None ->
  exists outcome w' mo to,
    parseOid me = Some mo /\ parseOid userId = Some to
    /\ GET_messages (Some me) userIdParam cursor limitParam w = (outcome, w')
    /\ users w' = users w
    /\ conversations w'
       = conversations w
         ++ [Conversation.mk (oidSeed w) [mo; to] (buildParticipantKey me userId)
                             [] "" (clock w)]
    /\ canWatchPresence me userId w' = (Ok true, w')
    /\ canWatchPresence userId me w' = (Ok true, w')
    /\ (limit <> 0 -> exists resp, outcome = Ok resp /\ status resp = 200)
    /\ (limit = 0 ->
        (forall m, In m (messages w) -> Message.conversationId m <> oidSeed w) ->
        outcome = Throw TypeError).
Proof.
  intros userId limit Hme Hvme Hu Hvu Hf Hnone.
  destruct (newObjectId_valid _ Hvme) as (mo & Hmo & _).
  destruct (newObjectId_valid _ Hvu) as (to & Hto & _).
  set (c := Conversation.mk (oidSeed w) [mo; to] (buildParticipantKey me userId)
                            [] "" (clock w)).
  set (w' := with_conversations (fun l => l ++ [c]) (with_oidSeed N.succ w)).
  assert (Hf' : faults w' = []) by exact Hf.
  assert (Hin : In c (conversations w')).
  { simpl. apply in_or_app. right. now left. }
  set (page := rev (historyPage (oidSeed w) mo cursor limit (messages w))).
  exists (match cursorOf Message.createdAt limit page with
          | Throw e => Throw e
          | Ok nextCursor =>
              Ok (json 200 (BMessages (oidStr (oidSeed w))
                              (List.map messageView page) nextCursor))
          end), w', mo, to.
  split; [exact Hmo|]. split; [exact Hto|]. split.
  { unfold GET_messages. fold userId. rewrite Hu, Hvu. simpl.
    unfold bind at 1.
    rewrite (getOrCreate_creates _ _ _ _ _ Hf Hmo Hto Hnone).
    fold c. fold w'.
    unfold newObjectId. rewrite Hmo.
    unfold bind at 1. unfold ret at 1.
    unfold bind at 1. unfold Message_findPage.
    unfold bind at 1. rewrite (store_ok _ Hf'). unfold gets at 1.
    fold limit.
    exact (bind_cursorAfter Message.createdAt limit _
             (fun nextCursor =>
                json 200 (BMessages (oidStr (Conversation._id c))
                            (List.map messageView page) nextCursor)) w'). }
  split; [reflexivity|]. split; [reflexivity|].
  split.
  { apply (canWatchPresence_after_create _ _ mo to c); auto; simpl; auto. }
  split.
  { apply (canWatchPresence_after_create _ _ to mo c); auto; simpl; auto. }
  split.
  - intros Hl. rewrite (cursorOf_limit _ _ _ Hl). eexists. split; reflexivity.
  - intros Hl Hnew.
    assert (Hpage : page = []).
    { unfold page, historyPage. rewrite Hl. unfold limitTo. simpl.
      replace (List.filter (inHistory (oidSeed w) mo cursor) (messages w))
        with (@nil Message.t); [reflexivity|].
      symmetry. apply filter_none_of. intros m Hm.
      unfold inHistory.
      destruct (N.eqb_spec (Message.conversationId m) (oidSeed w)) as [E|E];
        [now apply Hnew in Hm|reflexivity]. }
    rewrite Hpage, Hl. reflexivity.
Qed.

(** *** Concurrent first contact *)

(** A call that runs alone takes two turns and does what
    [getOrCreateConversation] does. *)
Lemma resume_alone userA userB w :
  let (c1, w1) := resume (AtFindOne userA userB) w in
  let (c2, w2) := resume c1 w1 in
  Some (getOrCreateConversation userA userB w)
  = match c2 with
    | Returned conv => Some (Ok conv, w2)
    | Rejected e => Some (Throw e, w2)
    | _ => None
    end.
Proof.
  unfold getOrCreateConversation. unfold_m. unfold resume at 1.
  destruct (newObjectId userA w) as [[oa|e] w0]; [|reflexivity].
  destruct (Conversation_findOne _ w0) as [[[conv|]|e] w1]; [| |reflexivity].
  - destruct (oidIn oa (Conversation.hiddenFor conv)); [|reflexivity].
    simpl. destruct (Conversation_save _ _ w1) as [[[]|e] w2]; reflexivity.
  - destruct (newObjectId userB w1) as [[ob|e] w2]; [|reflexivity].
    simpl. destruct (Conversation_create _ _ _ _ _ w2) as [[c|e] w3]; reflexivity.
Qed.

Lemma resume_remaining c w : remaining (fst (resume c w)) <= pred (remaining c).
Proof.
  destruct c as [a b|ps k d|conv hf|conv|e]; simpl.
  - destruct (newObjectId a w) as [[oa|e] w0]; simpl; [|lia].
    destruct (Conversation_findOne _ w0) as [[[conv|]|e] w1]; simpl; try lia.
    + destruct (oidIn oa (Conversation.hiddenFor conv)); simpl; lia.
    + destruct (newObjectId b w1) as [[ob|e] w2]; simpl; lia.
  - destruct (Conversation_create _ _ _ _ _ w) as [[c|e] w1]; simpl; lia.
  - destruct (Conversation_save _ _ w) as [[[]|e] w1]; simpl; lia.
  - lia.
  - lia.
Qed.

Lemma turn_length i st : length (fst (turn i st)) = length (fst st).
Proof.
  unfold turn. destruct (fst st !! i) as [c|] eqn:Hc; [|reflexivity].
  destruct (resume c (snd st)) as [c' w']. simpl. apply length_insert.
Qed.

Lemma interleave_length schedule st :
  length (fst (interleave schedule st)) = length (fst st).
Proof.
  revert st. induction schedule as [|i schedule IH]; intros st; simpl; [reflexivity|].
  unfold interleave in *. simpl. rewrite IH. apply turn_length.
Qed.

Lemma turn_remaining i j st c :
  fst st !! i = Some c ->
  exists c', fst (turn j st) !! i = Some c'
             /\ remaining c' <= remaining c - (if Nat.eq_dec j i then 1 else 0).
Proof.
  intros Hc. unfold turn.
  destruct (fst st !! j) as [cj|] eqn:Hj.
  - pose proof (resume_remaining cj (snd st)) as Hrem.
    destruct (resume cj (snd st)) as [c' w']. simpl in *.
    destruct (Nat.eq_dec j i) as [->|Hne].
    + exists c'. split.
      * apply list_lookup_insert_eq. apply lookup_lt_Some in Hc. exact Hc.
      * rewrite Hc in Hj. injection Hj as ->. lia.
    + exists c. split; [|lia]. rewrite list_lookup_insert_ne by exact Hne. exact Hc.
  - exists c. split; [exact Hc|].
    destruct (Nat.eq_dec j i) as [->|Hne]; [congruence | lia].
Qed.

Lemma interleave_remaining schedule : forall st i c,
  fst st !! i = Some c ->
  exists c', fst (interleave schedule st) !! i = Some c'
             /\ remaining c' <= remaining c - count_occ Nat.eq_dec schedule i.
Proof.
  induction schedule as [|j schedule IH]; intros st i c Hc.
  - exists c. split; [exact Hc | simpl; lia].
  - destruct (turn_remaining i j st c Hc) as (c1 & Hc1 & Hrem1).
    destruct (IH (turn j st) i c1 Hc1) as (c2 & Hc2 & Hrem2).
    exists c2. split; [exact Hc2|]. simpl.
    destruct (Nat.eq_dec j i); lia.
Qed.

Lemma keyCount_find key w :
  keyCount key w = 0 <-> List.find (convHasKey key) (conversations w) = None.
Proof.
  unfold keyCount. induction (conversations w) as [|c l IH]; simpl;
    [split; reflexivity|].
  destruct (convHasKey key c); simpl; [split; discriminate | exact IH].
Qed.

(** Nothing changes for the calls on track when the world does not. *)
Lemma onTrack_same key w w' c :
  conversations w' = conversations w -> onTrack key w c -> onTrack key w' c.
Proof.
  intros Hc. destruct c; simpl; unfold keyCount; rewrite ?Hc; auto.
Qed.

Lemma resume_firstContact key c w :
  firstContactInv key ([c], w) ->
  faults (snd (resume c w)) = []
  /\ keyCount key (snd (resume c w)) <= 1
  /\ (forall c0, In c0 (conversations (snd (resume c w))) ->
                 convHasKey key c0 = true -> Conversation.hiddenFor c0 = [])
  /\ onTrack key (snd (resume c w)) (fst (resume c w))
  /\ (conversations (snd (resume c w)) = conversations w
      \/ keyCount key w = 0).
Proof.
  intros (Hf & Hcnt & Hhid & Hcalls). simpl in Hf, Hcnt, Hhid, Hcalls.
  apply Forall_inv in Hcalls.
  destruct c as [a b|ps k d|conv hf|conv|e]; simpl in Hcalls.
  - destruct Hcalls as (Hkey & Ha & Hb).
    destruct (newObjectId_valid _ Ha) as (oa & Hoa & Hna).
    destruct (newObjectId_valid _ Hb) as (ob & Hob & Hnb).
    simpl. rewrite Hna. unfold Conversation_findOne. unfold_m.
    rewrite (store_ok _ Hf), Hkey.
    destruct (List.find (convHasKey key) (conversations w)) as [conv|] eqn:Hfind.
    + pose proof (List.find_some _ _ Hfind) as [Hin Hk].
      rewrite (Hhid conv Hin Hk). simpl.
      repeat split; auto. now apply convHasKey_eq.
      now rewrite Hfind.
    + rewrite Hnb. simpl. repeat split; auto.
  - destruct Hcalls as (-> & Hlen).
    simpl. unfold Conversation_create. rewrite Hlen. simpl. unfold_m.
    rewrite (store_ok _ Hf), find_existsb.
    destruct (List.find (convHasKey key) (conversations w)) as [conv|] eqn:Hfind.
    + simpl. pose proof (find_some_filter _ _ _ Hfind) as Hge.
      repeat split; auto. unfold keyCount in *. lia.
    + simpl. apply keyCount_find in Hfind as Hzero.
      assert (Hone : keyCount key
                (with_conversations
                   (fun l => l ++ [Conversation.mk (oidSeed w) ps key [] "" d])
                   (with_oidSeed N.succ w)) = 1).
      { unfold keyCount in *. simpl. rewrite List.filter_app, List.length_app, Hzero.
        simpl. unfold convHasKey. simpl. now rewrite String.eqb_refl. }
      split; [exact Hf|]. split; [lia|]. split.
      * intros c0 Hin Hk. simpl in Hin. apply in_app_or in Hin as [Hin|[<-|[]]].
        -- now apply Hhid.
        -- reflexivity.
      * split; [|now right]. simpl. split; [reflexivity|].
        rewrite (find_snoc _ _ _ Hfind). unfold convHasKey. simpl.
        now rewrite String.eqb_refl.
  - contradiction.
  - simpl. repeat split; try apply Hcalls; auto.
  - simpl. repeat split; try apply Hcalls; auto.
Qed.

(** When a conversation of the key appears, no call had returned or been
    rejected yet. *)
Lemma onTrack_fresh key w w' c :
  keyCount key w = 0 -> onTrack key w c -> onTrack key w' c.
Proof.
  intros Hzero. destruct c as [a b|ps k d|conv hf|conv|e]; simpl; auto.
  - intros (_ & Hfind). apply keyCount_find in Hzero. now rewrite Hzero in Hfind.
  - intros (_ & Hone). lia.
Qed.

Lemma turn_firstContact key i st :
  firstContactInv key st -> firstContactInv key (turn i st).
Proof.
  intros Hinv. unfold turn.
  destruct (fst st !! i) as [c|] eqn:Hc; [|exact Hinv].
  destruct Hinv as (Hf & Hcnt & Hhid & Hcalls).
  assert (Hone : firstContactInv key ([c], snd st)).
  { repeat split; auto. constructor; [|constructor].
    apply (Forall_lookup_1 _ _ _ _ Hcalls Hc). }
  pose proof (resume_firstContact key c (snd st) Hone) as (Hf' & Hcnt' & Hhid' & Hc' & Hw).
  destruct (resume c (snd st)) as [c' w']. simpl in *.
  repeat split; auto.
  apply Forall_insert; [|exact Hc'].
  eapply List.Forall_impl; [|exact Hcalls]. intros c0 H0.
  destruct Hw as [Hsame|Hzero].
  - now apply (onTrack_same key (snd st)).
  - now apply (onTrack_fresh key (snd st)).
Qed.

Lemma interleave_firstContact key schedule : forall st,
  firstContactInv key st -> firstContactInv key (interleave schedule st).
Proof.
  induction schedule as [|i schedule IH]; intros st Hinv; [exact Hinv|].
  apply (IH (turn i st)). now apply turn_firstContact.
Qed.

(** C3, as the code has it.  Any number of calls for one pair are started
    on a store that has no conversation of their key and no fault pending, and
    take their turns in any order.  At every moment the store holds at most
    one conversation of that key; a call that has returned has returned that
    conversation; a call that was rejected was rejected by the unique index,
    and its duplicate-key error is what its caller receives: it is not
    retried.  Once every call has had two turns all of them are over, and the
    store holds exactly one conversation of the key. *)
Theorem concurrent_first_contact key calls w schedule calls' w' :
  faults w = [] ->
  keyCount key w = 0 ->
  Forall (firstContact key) calls ->
  interleave schedule (calls, w) = (calls', w') ->
  length calls' = length calls
  /\ keyCount key w' <= 1
  /\ (forall conv, In (Returned conv) calls' ->
        Conversation.participantKey conv = key
        /\ option_map Conversation._id
             (List.find (convHasKey key) (conversations w'))
           = Some (Conversation._id conv))
  /\ (forall e, In (Rejected e) calls' -> e = DuplicateKey /\ keyCount key w' = 1)
  /\ ((forall i, i < length calls -> 2 <= count_occ Nat.eq_dec schedule i) ->
      Forall (fun c => finished c = true) calls'
      /\ (calls <> [] -> keyCount key w' = 1)).
Proof.
  intros Hf Hzero Hcalls Hrun.
  assert (Hinv : firstContactInv key (calls, w)).
  { repeat split; simpl; auto; [lia| |].
    - intros c Hin Hk. apply keyCount_find in Hzero.
      exfalso. eapply List.find_none in Hzero; [|exact Hin]. congruence.
    - eapply List.Forall_impl; [|exact Hcalls].
      intros c (a & b & -> & Hk & Ha & Hb). simpl. auto. }
  apply (interleave_firstContact key schedule) in Hinv. rewrite Hrun in Hinv.
  destruct Hinv as (Hf' & Hcnt' & Hhid' & Htrack). simpl in Hf', Hcnt', Hhid', Htrack.
  pose proof (interleave_length schedule (calls, w)) as Hlen.
  rewrite Hrun in Hlen. simpl in Hlen.
  rewrite List.Forall_forall in Htrack.
  split; [exact Hlen|]. split; [exact Hcnt'|].
  split; [intros conv Hin; exact (Htrack _ Hin)|].
  split; [intros e Hin; exact (Htrack _ Hin)|].
  intros Hfair.
  assert (Hdone : Forall (fun c => finished c = true) calls').
  { apply Forall_lookup_2. intros i c' Hi.
    assert (Hlt : i < length calls) by (rewrite <- Hlen; now apply lookup_lt_Some in Hi).
    destruct (lookup_lt_is_Some_2 calls i Hlt) as [c Hc].
    destruct (interleave_remaining schedule (calls, w) i c Hc) as (c2 & Hc2 & Hrem).
    rewrite Hrun in Hc2. simpl in Hc2. rewrite Hi in Hc2. injection Hc2 as <-.
    specialize (Hfair i Hlt).
    assert (remaining c <= 2) by (destruct c; simpl; lia).
    destruct c'; simpl in *; try lia; reflexivity. }
  split; [exact Hdone|].
  intros Hne. destruct calls' as [|c' rest].
  { destruct calls; [congruence | discriminate]. }
  apply Forall_inv in Hdone.
  specialize (Htrack c' (or_introl eq_refl)).
  destruct c' as [a b|ps k d|conv hf|conv|e]; simpl in Hdone; try discriminate.
  - destruct Htrack as (_ & Hfind).
    destruct (List.find (convHasKey key) (conversations w')) as [c0|] eqn:Hfind0;
      [|discriminate].
    apply find_some_filter in Hfind0. unfold keyCount in *. lia.
  - apply Htrack.
Qed.

(** *** Read receipts *)

Lemma oidIn_addToSet x l : oidIn x (addToSet x l) = true.
Proof.
  unfold addToSet. destruct (oidIn x l) eqn:H; [exact H|].
  unfold oidIn. rewrite existsb_app. simpl. rewrite N.eqb_refl.
  now rewrite orb_true_r.
Qed.

Lemma filter_none {A} (p : A -> bool) l :
  (forall x, In x l -> p x = false) -> List.filter p l = [].
Proof.
  induction l as [|x l IH]; intros H; simpl; [reflexivity|].
  rewrite (H x (or_introl eq_refl)). apply IH. intros y Hy. apply H. now right.
Qed.

(** Once the unread messages of a caller are marked, none is left unread. *)
Lemma unread_after_mark cid me l :
  List.filter (unreadBy cid me)
    (updateAll (fun m => oidIn (Message._id m)
                           (List.map Message._id (List.filter (unreadBy cid me) l)))
               (fun m => setMsgReadBy (addToSet me (Message.readBy m)) m) l)
  = [].
Proof.
  apply filter_none. intros m' Hin. unfold updateAll in Hin.
  apply in_map_iff in Hin as (m & <- & Hm).
  destruct (oidIn (Message._id m) _) eqn:Hids.
  - unfold unreadBy. simpl. rewrite oidIn_addToSet. simpl.
    now rewrite andb_false_r.
  - destruct (unreadBy cid me m) eqn:Hun; [|reflexivity].
    assert (Hmem : In (Message._id m)
                      (List.map Message._id (List.filter (unreadBy cid me) l))).
    { apply in_map. apply filter_In. auto. }
    apply oidIn_In in Hmem. congruence.
Qed.

(** One run of mark-read, with no fault pending. *)
Lemma POST_messages_read_run me conversationIdField cid mo w :
  let conversationId := JS.trim (JS.orEmpty conversationIdField) in
  JS.falsy conversationId = false ->
  parseOid conversationId = Some cid -> parseOid me = Some mo ->
  faults w = [] ->
  POST_messages_read (Some me) conversationIdField w
  = let unread := List.filter (unreadBy cid mo) (messages w) in
    if (length unread =? 0)%nat
    then (Ok (json 200 (BUpdated 0)), w)
    else (Ok (json 200 (BUpdated (length (List.map Message._id unread)))),
          with_outbox
            (fun l => l ++ [("message:read",
                             [ ("conversationId", JStr conversationId);
                               ("readerId", JStr me);
                               ("messageIds",
                                JArr (List.map oidStr (List.map Message._id unread))) ])])
            (with_messages
               (updateAll
                  (fun m => oidIn (Message._id m) (List.map Message._id unread))
                  (fun m => setMsgReadBy (addToSet mo (Message.readBy m)) m))
               w)).
Proof.
  intros conversationId Hne Hcid Hmo Hf.
  unfold POST_messages_read, isValid. fold conversationId. rewrite Hne, Hcid.
  cbn [orb negb].
  unfold newObjectId, Message_find, Message_updateMany, emitRealtimeEvent.
  rewrite Hcid, Hmo. unfold_m. rewrite (store_ok _ Hf).
  cbv zeta.
  destruct (length (List.filter (unreadBy cid mo) (messages w)) =? 0)%nat;
    [reflexivity|].
  now rewrite (store_ok _ Hf).
Qed.

(** C9.  With no fault pending, an authenticated caller and a well-formed
    conversation identifier, a call of mark-read answers with the number of
    messages it marked, and the same call repeated at once answers 200 with
    [updated = 0] and leaves the world as it found it: nothing is written and
    no event is posted.  The first call posts one [message:read] event when
    it marked something, and none otherwise. *)
Theorem POST_messages_read_idempotent me conversationIdField w :
  let conversationId := JS.trim (JS.orEmpty conversationIdField) in
  isValid me = true ->
  JS.falsy conversationId = false -> isValid conversationId = true ->
  faults w = [] ->
  exists n w1,
    POST_messages_read (Some me) conversationIdField w
    = (Ok (json 200 (BUpdated n)), w1)
    /\ POST_messages_read (Some me) conversationIdField w1
       = (Ok (json 200 (BUpdated 0)), w1)
    /\ length (outbox w1) = length (outbox w) + (if (n =? 0)%nat then 0 else 1)
    /\ (forall cid mo, parseOid conversationId = Some cid -> parseOid me = Some mo ->
          n = length (List.filter (unreadBy cid mo) (messages w))
          /\ List.filter (unreadBy cid mo) (messages w1) = []).
Proof.
  intros conversationId Hme Hne Hvalid Hf.
  destruct (newObjectId_valid _ Hme) as (mo & Hmo & _).
  destruct (newObjectId_valid _ Hvalid) as (cid & Hcid & _).
  rewrite (POST_messages_read_run me conversationIdField cid mo w Hne Hcid Hmo Hf).
  cbv zeta.
  destruct (length (List.filter (unreadBy cid mo) (messages w)) =? 0)%nat eqn:Hzero.
  - exists 0, w. split; [reflexivity|]. split.
    + rewrite (POST_messages_read_run me conversationIdField cid mo w Hne Hcid Hmo Hf).
      cbv zeta. now rewrite Hzero.
    + split; [simpl; lia|].
      intros cid' mo' E1 E2. rewrite Hcid in E1. rewrite Hmo in E2.
      injection E1 as <-. injection E2 as <-.
      apply Nat.eqb_eq in Hzero. split; [now rewrite Hzero|].
      now apply length_zero_iff_nil.
  - eexists _, _. split; [reflexivity|].
    assert (Hnone :
      List.filter (unreadBy cid mo)
        (updateAll
           (fun m => oidIn (Message._id m)
                       (List.map Message._id (List.filter (unreadBy cid mo) (messages w))))
           (fun m => setMsgReadBy (addToSet mo (Message.readBy m)) m)
           (messages w)) = []) by apply unread_after_mark.
    split.
    + rewrite (POST_messages_read_run me conversationIdField cid mo _ Hne Hcid Hmo
                 (Hf : faults (with_outbox _ (with_messages _ w)) = [])).
      cbv zeta. cbn [messages with_outbox with_messages]. now rewrite Hnone.
    + rewrite List.length_map. rewrite Hzero. split.
      * cbn [outbox with_outbox with_messages]. rewrite List.length_app. simpl. lia.
      * intros cid' mo' E1 E2. rewrite Hcid in E1. rewrite Hmo in E2.
        injection E1 as <-. injection E2 as <-.
        split; [reflexivity | exact Hnone].
Qed.

(** *** Delete for everyone *)

Lemma find_updateFirst_same {A} (p : A -> bool) f l x :
  List.find p l = Some x -> p (f x) = true ->
  List.find p (updateFirst p f l) = Some (f x).
Proof.
  induction l as [|y l IH]; simpl; [discriminate|].
  destruct (p y) eqn:Hy; simpl.
  - intros [= ->] Hfx. now rewrite Hfx.
  - intros Hfind Hfx. rewrite Hy. now apply IH.
Qed.

Lemma find_msg_has_id (p : Message.t -> bool) l m :
  List.find p l = Some m -> existsb (msgHasId (Message._id m)) l = true.
Proof.
  intros H. apply List.find_some in H as [Hin _].
  apply existsb_exists. exists m. split; [assumption|].
  unfold msgHasId. apply N.eqb_refl.
Qed.

Lemma msgHasId_eq id m : msgHasId id m = true -> Message._id m = id.
Proof. unfold msgHasId. apply N.eqb_eq. Qed.

(** A save that sets the empty text is refused before anything is
    written. *)
Lemma Message_saveText_empty id f w :
  Message_saveText id "" f w = (Throw ValidationError, w).
Proof. reflexivity. Qed.

(** C5, as the code has it.  A delete for everyone of a stored message, with
    no fault pending: a requester who is not the sender is answered 403 and
    nothing changes.  For the sender the handler sets the flag, the date and
    the empty text on the document and saves it; the schema requires a text,
    so the save is refused with a [ValidationError] before anything is
    written: no tombstone is stored and no event is posted, whether the
    message is a tombstone already or not.  Whatever the store does, a delete
    for everyone writes no document, posts no event and is never answered
    200. *)
Theorem DELETE_messages_everyone me messageIdField modeField mid requester message w :
  let messageId := JS.trim (JS.orEmpty messageIdField) in
  JS.toLowerCase (JS.trim (default "me" modeField)) = "everyone" ->
  JS.falsy messageId = false ->
  parseOid messageId = Some mid -> parseOid me = Some requester ->
  faults w = [] ->
  List.find (msgHasId mid) (messages w) = Some message ->
  (Message.senderId message <> requester ->
     exists resp,
       DELETE_messages (Some me) messageIdField modeField w = (Ok resp, w)
       /\ status resp = 403)
  /\ (Message.senderId message = requester ->
        DELETE_messages (Some me) messageIdField modeField w
        = (Throw ValidationError, w))
  /\ (forall w0 r w',
        DELETE_messages (Some me) messageIdField modeField w0 = (r, w') ->
        sameDocuments w0 w' /\ users w' = users w0
        /\ forall body, r <> Ok (json 200 body)).
Proof.
  intros messageId Hmode Hne Hmid Hme Hf Hfind.
  split; [|split].
  - intros Hns. apply N.eqb_neq in Hns.
    unfold DELETE_messages, isValid. fold messageId.
    rewrite Hmode, Hne, Hmid. cbn [orb negb andb String.eqb Ascii.eqb Bool.eqb].
    unfold newObjectId, Message_findById. rewrite Hmid, Hme. unfold_m.
    rewrite (store_ok _ Hf), Hfind. rewrite Hns. cbn [orb negb andb].
    destruct (Message.recipientId message =? requester)%N;
      eexists; split; reflexivity.
  - intros Hs. apply N.eqb_eq in Hs.
    unfold DELETE_messages, isValid. fold messageId.
    rewrite Hmode, Hne, Hmid. cbn [orb negb andb String.eqb Ascii.eqb Bool.eqb].
    unfold newObjectId, Message_findById. rewrite Hmid, Hme. unfold_m.
    rewrite (store_ok _ Hf), Hfind. rewrite Hs. cbn [orb negb andb].
    now rewrite Message_saveText_empty.
  - intros w0 r w' Hrun.
    unfold DELETE_messages, isValid in Hrun. fold messageId in Hrun.
    rewrite Hmode, Hne, Hmid in Hrun.
    cbn [orb negb andb String.eqb Ascii.eqb Bool.eqb] in Hrun.
    unfold newObjectId, Message_findById in Hrun. rewrite Hmid, Hme in Hrun.
    repeat progress (unfold bind, gets, ret, newDate in Hrun).
    unfold store in Hrun.
    assert (Hend : forall (w1 : World) r1,
              (r1, w1) = (r, w') ->
              conversations w1 = conversations w0 -> messages w1 = messages w0 ->
              outbox w1 = outbox w0 -> oidSeed w1 = oidSeed w0 ->
              users w1 = users w0 ->
              (forall body, r1 <> Ok (json 200 body)) ->
              sameDocuments w0 w' /\ users w' = users w0
              /\ forall body, r <> Ok (json 200 body)).
    { intros w1 r1 E H1 H2 H3 H4 H5 Hr1. injection E as <- <-.
      repeat split; assumption. }
    destruct (faults w0) as [|[] fs];
      cbv beta iota in Hrun; cbn [messages with_faults] in Hrun.
    2: { apply (Hend _ _ Hrun); try reflexivity. discriminate. }
    all: destruct (List.find (msgHasId mid) (messages w0)) as [m0|];
      [|apply (Hend _ _ Hrun); try reflexivity; discriminate].
    all: destruct (negb _);
      [apply (Hend _ _ Hrun); try reflexivity; discriminate|].
    all: destruct (Message.senderId m0 =? requester)%N; cbn [orb negb andb] in Hrun;
      [rewrite Message_saveText_empty in Hrun; cbv beta iota in Hrun|];
      apply (Hend _ _ Hrun); try reflexivity; discriminate.
Qed.

(** *** Send *)

Lemma substring_length n : forall s, String.length (substring 0 n s) <= n.
Proof.
  induction n as [|n IH]; intros [|c s]; simpl; try lia.
  specialize (IH s). lia.
Qed.

Lemma slice0_length n s : String.length (JS.slice0 n s) <= n.
Proof. apply substring_length. Qed.

Lemma substring_substring n : forall m s,
  substring 0 n (substring 0 m s) = substring 0 (Nat.min n m) s.
Proof.
  induction n as [|n IH]; intros m s.
  - simpl. destruct (substring 0 m s), s; reflexivity.
  - destruct m as [|m]; destruct s as [|c s]; simpl; try reflexivity.
    now rewrite IH.
Qed.

Lemma trimStart_startsTrimmed s : startsTrimmed (JS.trimStart s) = true.
Proof.
  induction s as [|c s IH]; simpl; [reflexivity|].
  destruct (JS.isSpace c) eqn:E; [exact IH|]. simpl. now rewrite E.
Qed.

Lemma trimEnd_startsTrimmed s :
  startsTrimmed s = true -> startsTrimmed (JS.trimEnd s) = true.
Proof.
  destruct s as [|c s]; simpl; [auto|]. intros H.
  destruct (JS.trimEnd s); simpl; [|exact H].
  apply negb_true_iff in H. rewrite H. simpl. now rewrite H.
Qed.

Lemma startsTrimmed_fixed s : startsTrimmed s = true -> JS.trimStart s = s.
Proof.
  destruct s as [|c s]; simpl; [auto|]. intros H.
  apply negb_true_iff in H. now rewrite H.
Qed.

Lemma slice0_startsTrimmed n s :
  startsTrimmed s = true -> startsTrimmed (JS.slice0 n s) = true.
Proof. destruct n, s; simpl; auto. Qed.

Lemma trimStart_length s : String.length (JS.trimStart s) <= String.length s.
Proof.
  induction s as [|c s IH]; simpl; [lia|].
  destruct (JS.isSpace c); simpl; lia.
Qed.

Lemma trimEnd_length s : String.length (JS.trimEnd s) <= String.length s.
Proof.
  induction s as [|c s IH]; simpl; [lia|].
  destruct (JS.trimEnd s); [destruct (JS.isSpace c)|]; simpl in *; lia.
Qed.

Lemma trim_length s : String.length (JS.trim s) <= String.length s.
Proof.
  unfold JS.trim. pose proof (trimEnd_length (JS.trimStart s)).
  pose proof (trimStart_length s). lia.
Qed.

(** A text that is not empty and does not begin with white space is not
    empty after [trim]. *)
Lemma trim_survives s :
  startsTrimmed s = true -> JS.falsy s = false -> JS.falsy (JS.trim s) = false.
Proof.
  intros Hs Hne. unfold JS.trim. rewrite (startsTrimmed_fixed _ Hs).
  destruct s as [|c r]; [discriminate|]. simpl in Hs. apply negb_true_iff in Hs.
  simpl. destruct (JS.trimEnd r); [now rewrite Hs|reflexivity].
Qed.

Lemma sanitizeMessage_startsTrimmed input : startsTrimmed (sanitizeMessage input) = true.
Proof.
  unfold sanitizeMessage, sanitizePlainText, JS.trim.
  apply slice0_startsTrimmed, trimEnd_startsTrimmed, trimStart_startsTrimmed.
Qed.

Lemma Message_text_run txt w :
  Message_text txt w
  = (if JS.falsy (JS.trim txt) then Throw ValidationError else Ok (JS.trim txt), w).
Proof. unfold Message_text. destruct (JS.falsy (JS.trim txt)); reflexivity. Qed.

(** Whatever the store answers, it changes nothing but its pending faults;
    with none pending it answers. *)
Lemma store_inv w r w1 :
  store w = (r, w1) ->
  sameButFaults w w1
  /\ (r = Ok tt \/ r = Throw StoreUnavailable)
  /\ (faults w = [] -> r = Ok tt /\ faults w1 = []).
Proof.
  unfold store, sameButFaults.
  destruct (faults w) as [|[] fs] eqn:Hf; intros [= <- <-]; simpl;
    repeat split; auto; try discriminate.
Qed.

Lemma getOrCreate_frame userA userB w r w1 :
  getOrCreateConversation userA userB w = (r, w1) -> sameButConversations w w1.
Proof.
  unfold getOrCreateConversation, newObjectId, Conversation_findOne,
    Conversation_create, Conversation_save, sameButConversations.
  unfold_m. destruct (parseOid userA) as [oa|]; [|now intros [= <- <-]].
  destruct (store w) as [r0 w0] eqn:Hs0.
  apply store_inv in Hs0 as ((Hu0 & Hc0 & Hm0 & Hk0 & Ho0 & Hb0) & [->| ->] & _);
    [|intros [= <- <-]; auto].
  destruct (List.find _ (conversations w0)) as [conv|].
  - destruct (oidIn oa (Conversation.hiddenFor conv)); [|intros [= <- <-]; auto].
    destruct (store w0) as [r2 w2] eqn:Hs2.
    apply store_inv in Hs2 as ((Hu2 & Hc2 & Hm2 & Hk2 & Ho2 & Hb2) & [->| ->] & _);
      [|intros [= <- <-]; repeat split; congruence].
    destruct (existsb _ (conversations w2)); intros [= <- <-]; simpl;
      repeat split; congruence.
  - destruct (parseOid userB) as [ob|]; [|intros [= <- <-]; auto].
    cbn [length Nat.eqb negb].
    destruct (store w0) as [r2 w2] eqn:Hs2.
    apply store_inv in Hs2 as ((Hu2 & Hc2 & Hm2 & Hk2 & Ho2 & Hb2) & [->| ->] & _);
      [|intros [= <- <-]; repeat split; congruence].
    destruct (existsb _ (conversations w2)); intros [= <- <-]; simpl;
      repeat split; congruence.
Qed.

Lemma getOrCreate_stored userA userB w :
  faults w = [] -> isValid userA = true -> isValid userB = true ->
  exists c w',
    getOrCreateConversation userA userB w = (Ok c, w')
    /\ faults w' = []
    /\ sameButConversations w w'
    /\ existsb (convHasId (Conversation._id c)) (conversations w') = true.
Proof.
  intros Hf Ha Hb.
  destruct (getOrCreate_resolves userA userB w Hf Ha Hb)
    as (c & w' & Hrun & Hf' & _ & Hfind & _).
  exists c, w'. split; [exact Hrun|]. split; [exact Hf'|].
  split; [exact (getOrCreate_frame _ _ _ _ _ Hrun)|].
  destruct (List.find _ (conversations w')) as [c0|] eqn:Hc0; [|discriminate].
  injection Hfind as <-. exact (find_has_id _ _ _ Hc0).
Qed.

(** The first document of an identifier that is in the collection is
    there, changed, after [updateFirst]. *)
Lemma updateFirst_changed (id : ObjectId) f l :
  existsb (convHasId id) l = true ->
  exists c, In c l /\ Conversation._id c = id /\ In (f c) (updateFirst (convHasId id) f l).
Proof.
  induction l as [|x l IH]; simpl; [discriminate|].
  destruct (convHasId id x) eqn:Hx; simpl.
  - intros _. exists x. repeat split; auto. unfold convHasId in Hx.
    now apply N.eqb_eq in Hx.
  - intros H. destruct (IH H) as (c & Hin & Hid & Hin'). exists c. auto.
Qed.

(** A document of the collection is still there after [updateFirst], as it
    was or changed. *)
Lemma In_updateFirst_or {A} (p : A -> bool) f (x : A) l :
  In x l -> In x (updateFirst p f l) \/ In (f x) (updateFirst p f l).
Proof.
  induction l as [|y l IH]; simpl; [tauto|].
  intros [->|Hin].
  - destruct (p x); [right|left]; now left.
  - destruct (p y); [left; now right|].
    destruct (IH Hin); [left|right]; now right.
Qed.

(** Whatever the store does, the conversation that a call returns carries
    the participant key of the pair, and a stored conversation has its
    identifier and that key. *)
Lemma getOrCreate_returns userA userB w c w1 :
  getOrCreateConversation userA userB w = (Ok c, w1) ->
  Conversation.participantKey c = buildParticipantKey userA userB
  /\ exists c1, In c1 (conversations w1)
                /\ Conversation._id c1 = Conversation._id c
                /\ Conversation.participantKey c1 = buildParticipantKey userA userB.
Proof.
  unfold getOrCreateConversation, newObjectId, Conversation_findOne,
    Conversation_create, Conversation_save.
  unfold_m. destruct (parseOid userA) as [oa|]; [|discriminate].
  destruct (store w) as [r0 w0] eqn:Hs0.
  apply store_inv in Hs0 as (_ & [->| ->] & _); [|discriminate].
  destruct (List.find _ (conversations w0)) as [conv|] eqn:Hfind.
  - apply List.find_some in Hfind as [Hin Hkey]. apply convHasKey_eq in Hkey.
    destruct (oidIn oa (Conversation.hiddenFor conv)).
    + destruct (store w0) as [r2 w2] eqn:Hs2.
      apply store_inv in Hs2 as ((_ & Hc2 & _) & [->| ->] & _); [|discriminate].
      destruct (existsb _ (conversations w2)); intros [= <- <-]; simpl.
      split; [exact Hkey|]. rewrite <- Hc2 in Hin.
      destruct (In_updateFirst_or (convHasId (Conversation._id conv))
                  (setConvHiddenFor (unhide oa conv)) conv _ Hin) as [H|H].
      * exists conv. auto.
      * exists (setConvHiddenFor (unhide oa conv) conv). auto.
    + intros [= <- <-]. split; [exact Hkey|]. exists conv. auto.
  - destruct (parseOid userB) as [ob|]; [|discriminate].
    cbn [length Nat.eqb negb].
    destruct (store w0) as [r2 w2] eqn:Hs2.
    apply store_inv in Hs2 as (_ & [->| ->] & _); [|discriminate].
    destruct (existsb _ (conversations w2)); intros [= <- <-]; simpl.
    split; [reflexivity|]. eexists. split; [apply in_or_app; right; now left|].
    split; reflexivity.
Qed.

(** Whatever the store does, a send either posts nothing, or has stored the
    message and the preview and answers 200. *)
Lemma POST_messages_emits_last me toUserIdField textField sender w r w' :
  let toUserId := JS.trim (JS.orEmpty toUserIdField) in
  let text := JS.slice0 2000 (sanitizeMessage (JS.orEmpty textField)) in
  parseOid me = Some sender ->
  POST_messages (Some me) toUserIdField textField w = (r, w') ->
  (outbox w' = outbox w /\ forall view, r <> Ok (json 200 (BMessage view)))
  \/ exists to message conv,
       parseOid toUserId = Some to
       /\ (exists u, List.find (userHasId to) (users w) = Some u)
       /\ text <> ""
       /\ outbox w'
          = outbox w ++ [sent (oidStr (Conversation._id conv))
                              (oidStr (Message._id message))
                              me toUserId text (Message.createdAt message)]
       /\ In message (messages w')
       /\ Message.readBy message = [sender]
       /\ Message.text message = JS.trim text
       /\ Message.text message <> ""
       /\ Message.senderId message = sender
       /\ Message.recipientId message = to
       /\ Message.conversationId message = Conversation._id conv
       /\ In conv (conversations w')
       /\ (exists c1, In c1 (conversations w')
                      /\ Conversation._id c1 = Conversation._id conv
                      /\ Conversation.participantKey c1 = buildParticipantKey me toUserId)
       /\ Conversation.lastMessageText conv = text
       /\ Conversation.lastMessageAt conv = clock w
       /\ r = Ok (json 200
                    (BMessage (mkMessageView (oidStr (Message._id message))
                                 (oidStr (Conversation._id conv))
                                 me toUserId text [me] false None
                                 (Message.createdAt message)))).
Proof.
  intros toUserId text Hme. unfold POST_messages. fold toUserId. fold text.
  destruct (JS.falsy toUserId || negb (isValid toUserId)) eqn:Hv;
    [intros [= <- <-]; left; split; [reflexivity | discriminate]|].
  destruct (JS.falsy text) eqn:Ht;
    [intros [= <- <-]; left; split; [reflexivity | discriminate]|].
  apply orb_false_iff in Hv as [Hne Hvalid]. apply negb_false_iff in Hvalid.
  destruct (newObjectId_valid _ Hvalid) as (to & Hto & _).
  unfold newObjectId, User_findById, Message_create, Conversation_save,
    emitRealtimeEvent.
  rewrite Hto, Hme. unfold_m.
  destruct (store w) as [r0 w0] eqn:Hs0.
  apply store_inv in Hs0 as ((Hu0 & Hc0 & Hm0 & Hk0 & Hd0 & Ho0) & [->| ->] & _);
    [|intros [= <- <-]; left; split; [exact Ho0 | discriminate]].
  destruct (List.find (userHasId to) (users w0)) as [u|] eqn:Hu;
    [|intros [= <- <-]; left; split; [exact Ho0 | discriminate]].
  destruct (getOrCreateConversation me toUserId w0) as [[conv|e] w1] eqn:Hg;
    [|intros [= <- <-]; left; split; [|discriminate];
      apply getOrCreate_frame in Hg as (_ & _ & _ & Ho1); congruence].
  destruct (getOrCreate_returns _ _ _ _ _ Hg) as (_ & c1 & Hin1 & Hid1 & Hkey1).
  apply getOrCreate_frame in Hg as (Hu1 & Hm1 & Hk1 & Ho1).
  rewrite Message_text_run.
  destruct (JS.falsy (JS.trim text)) eqn:Htrim;
    [intros [= <- <-]; left; split; [congruence | discriminate]|].
  destruct (store w1) as [r2 w2] eqn:Hs2.
  apply store_inv in Hs2 as ((Hu2 & Hc2 & Hm2 & Hk2 & Hd2 & Ho2) & [->| ->] & _);
    [|intros [= <- <-]; left; split; [congruence | discriminate]].
  cbn [clock with_oidSeed with_messages].
  destruct (store _) as [r3 w3] eqn:Hs3.
  apply store_inv in Hs3 as ((Hu3 & Hc3 & Hm3 & Hk3 & Hd3 & Ho3) & [->| ->] & _);
    [|intros [= <- <-]; left; split; [|discriminate];
      rewrite Ho3; simpl; congruence].
  destruct (existsb _ (conversations w3)) eqn:Hfound;
    [|intros [= <- <-]; left; split; [|discriminate];
      rewrite Ho3; simpl; congruence].
  intros [= <- <-]. right.
  simpl in Hu3, Hc3, Hm3, Hk3, Hd3, Ho3.
  destruct (updateFirst_changed _ (setConvPreview text (clock w2)) _ Hfound)
    as (c0 & Hin0 & Hid0 & Hin0').
  exists to,
    (Message.mk (oidSeed w2) (Conversation._id conv) sender to (JS.trim text) [sender] []
                false None (clock w2)),
    (setConvPreview text (clock w2) c0).
  cbn [outbox messages conversations with_outbox with_conversations with_messages
       Message._id Message.createdAt Message.readBy Message.text Message.senderId
       Message.recipientId Message.conversationId setConvPreview
       Conversation._id Conversation.lastMessageText Conversation.lastMessageAt].
  split; [reflexivity|]. split; [exists u; congruence|].
  split; [intros E; rewrite E in Ht; discriminate|].
  split; [rewrite Hid0, Ho3, Ho2, Ho1, Ho0; reflexivity|].
  split; [rewrite Hm3; apply in_or_app; right; now left|].
  split; [reflexivity|]. split; [reflexivity|].
  split; [intros E; rewrite E in Htrim; discriminate|].
  split; [reflexivity|]. split; [reflexivity|].
  split; [now rewrite Hid0|].
  split; [exact Hin0'|].
  split.
  { rewrite Hid0. rewrite <- Hc2 in Hin1. rewrite <- Hc3 in Hin1.
    destruct (In_updateFirst_or (convHasId (Conversation._id conv))
                (setConvPreview text (clock w2)) c1 _ Hin1) as [H|H].
    - exists c1. auto.
    - exists (setConvPreview text (clock w2) c1). auto. }
  split; [reflexivity|].
  split; [congruence|].
  rewrite Hid0. reflexivity.
Qed.

Lemma isValid_parse s o : parseOid s = Some o -> isValid s = true.
Proof. unfold isValid. now intros ->. Qed.

(** With no fault pending, a send to a stored user with a text that survives
    sanitization is carried through. *)
Lemma POST_messages_accepts me toUserIdField textField sender to u w :
  let toUserId := JS.trim (JS.orEmpty toUserIdField) in
  let text := JS.slice0 2000 (sanitizeMessage (JS.orEmpty textField)) in
  parseOid me = Some sender ->
  JS.falsy toUserId = false -> parseOid toUserId = Some to ->
  JS.falsy text = false ->
  faults w = [] ->
  List.find (userHasId to) (users w) = Some u ->
  exists view w',
    POST_messages (Some me) toUserIdField textField w
    = (Ok (json 200 (BMessage view)), w')
    /\ mv_text view = text
    /\ outbox w'
       = outbox w ++ [sent (mv_conversationId view) (mv_id view) me toUserId text
                           (mv_createdAt view)].
Proof.
  intros toUserId text Hme Hne Hto Ht Hf Hu.
  destruct (getOrCreate_stored me toUserId w Hf
              (isValid_parse _ _ Hme) (isValid_parse _ _ Hto))
    as (conv & w1 & Hrun & Hf1 & (Hu1 & Hm1 & Hk1 & Ho1) & Hstored).
  assert (Htrim : JS.falsy (JS.trim text) = false).
  { apply trim_survives; [|exact Ht].
    apply slice0_startsTrimmed, sanitizeMessage_startsTrimmed. }
  unfold POST_messages. fold toUserId. fold text.
  rewrite Hne, (isValid_parse _ _ Hto), Ht. cbn [orb negb].
  unfold newObjectId, User_findById, Message_create, Conversation_save,
    emitRealtimeEvent.
  rewrite Hto, Hme. unfold_m.
  rewrite (store_ok _ Hf), Hu, Hrun, Message_text_run, Htrim, (store_ok _ Hf1).
  rewrite (store_ok _ (Hf1 : faults (with_messages _ (with_oidSeed _ w1)) = [])).
  cbn [conversations with_messages with_oidSeed]. rewrite Hstored.
  eexists _, _. split; [reflexivity|]. split; [reflexivity|].
  cbn [outbox with_outbox with_conversations with_messages with_oidSeed
       mv_conversationId mv_id mv_createdAt].
  now rewrite Ho1.
Qed.

(** Identifiers that name one conversation each: two stored conversations
    of one identifier are the same. *)
Lemma NoDup_id_eq l (x y : Conversation.t) :
  List.NoDup (List.map Conversation._id l) -> In x l -> In y l ->
  Conversation._id x = Conversation._id y -> x = y.
Proof.
  induction l as [|z l IH]; simpl; [contradiction|].
  intros Hnd [->|Hx] [->|Hy] Hid; try reflexivity.
  - apply List.NoDup_cons_iff in Hnd as [Hnot _]. exfalso. apply Hnot.
    rewrite Hid. now apply in_map.
  - apply List.NoDup_cons_iff in Hnd as [Hnot _]. exfalso. apply Hnot.
    rewrite <- Hid. now apply in_map.
  - apply List.NoDup_cons_iff in Hnd as [_ Hnd]. now apply IH.
Qed.

(** C6.  A send by an authenticated caller, whatever the store does.  The
    text is the input without its markup, trimmed and cut at 2000
    characters.  A text that is empty then is answered 400 and nothing
    changes.  With no fault pending, a recipient that is not a stored user is
    answered 404 and nothing changes, and a recipient that is one is answered
    200 with the message, and the [message:new] event is posted with the
    text.  In every run the event is posted last: if it was posted, the
    message is stored, in the conversation of the pair, with the sender as
    its only reader and with the text as the schema trims it, which is not
    empty and at most 2000 characters long, and the preview of its
    conversation carries the text and the time of the send; a run that throws
    has posted nothing. *)
Theorem POST_messages_send me toUserIdField textField sender w r w' :
  let toUserId := JS.trim (JS.orEmpty toUserIdField) in
  let text := JS.slice0 2000 (sanitizeMessage (JS.orEmpty textField)) in
  parseOid me = Some sender ->
  POST_messages (Some me) toUserIdField textField w = (r, w') ->
  text = JS.slice0 2000 (JS.trim (sanitizeHtml (JS.orEmpty textField)))
  /\ String.length text <= 2000
  /\ (text = "" -> (exists error, r = Ok (json 400 (BError error))) /\ w' = w)
  /\ (forall to,
        JS.falsy toUserId = false -> parseOid toUserId = Some to -> text <> "" ->
        faults w = [] ->
        List.find (userHasId to) (users w) = None ->
        r = Ok (json 404 (BError "Recipient not found.")) /\ w' = w)
  /\ (forall to u,
        JS.falsy toUserId = false -> parseOid toUserId = Some to -> text <> "" ->
        faults w = [] ->
        List.find (userHasId to) (users w) = Some u ->
        exists view,
          r = Ok (json 200 (BMessage view))
          /\ mv_text view = text
          /\ outbox w'
             = outbox w ++ [sent (mv_conversationId view) (mv_id view) me toUserId text
                                 (mv_createdAt view)])
  /\ (outbox w' = outbox w
      \/ exists to message conv,
           parseOid toUserId = Some to
           /\ (exists u, List.find (userHasId to) (users w) = Some u)
           /\ text <> ""
           /\ outbox w'
              = outbox w ++ [sent (oidStr (Conversation._id conv))
                                  (oidStr (Message._id message))
                                  me toUserId text (Message.createdAt message)]
           /\ In message (messages w')
           /\ Message.readBy message = [sender]
           /\ Message.text message = JS.trim text
           /\ Message.text message <> ""
           /\ String.length (Message.text message) <= 2000
           /\ Message.senderId message = sender
           /\ Message.recipientId message = to
           /\ Message.conversationId message = Conversation._id conv
           /\ In conv (conversations w')
           /\ (List.NoDup (List.map Conversation._id (conversations w')) ->
               Conversation.participantKey conv = buildParticipantKey me toUserId)
           /\ Conversation.lastMessageText conv = text
           /\ Conversation.lastMessageAt conv = clock w
           /\ r = Ok (json 200
                        (BMessage (mkMessageView (oidStr (Message._id message))
                                     (oidStr (Conversation._id conv))
                                     me toUserId text [me] false None
                                     (Message.createdAt message)))))
  /\ (forall e, r = Throw e -> outbox w' = outbox w).
Proof.
  intros toUserId text Hme Hrun.
  pose proof (POST_messages_emits_last me toUserIdField textField sender w r w'
                Hme Hrun) as Hlast.
  fold toUserId in Hlast. fold text in Hlast.
  split.
  { unfold text, sanitizeMessage, sanitizePlainText, JS.slice0.
    rewrite substring_substring. now rewrite Nat.min_id. }
  split; [apply slice0_length|].
  split.
  { intros Hempty. revert Hrun. unfold POST_messages.
    fold toUserId. fold text. rewrite Hempty. cbn [JS.falsy].
    destruct (JS.falsy toUserId || negb (isValid toUserId));
      intros [= <- <-]; split; eauto. }
  split.
  { intros to Hne Hto Htext Hf Hnone. revert Hrun. unfold POST_messages.
    fold toUserId. fold text.
    assert (Ht : JS.falsy text = false).
    { destruct (JS.falsy text) eqn:E; [|reflexivity].
      apply falsy_empty in E. contradiction. }
    rewrite Hne, (isValid_parse _ _ Hto), Ht. cbn [orb negb].
    unfold newObjectId, User_findById. rewrite Hto. unfold_m.
    rewrite (store_ok _ Hf), Hnone. intros [= <- <-]. auto. }
  split.
  { intros to u Hne Hto Htext Hf Hu.
    assert (Ht : JS.falsy text = false).
    { destruct (JS.falsy text) eqn:E; [|reflexivity].
      apply falsy_empty in E. contradiction. }
    destruct (POST_messages_accepts me toUserIdField textField sender to u w
                Hme Hne Hto Ht Hf Hu) as (view & w1 & Hrun1 & Htxt & Hout).
    fold toUserId in Hrun1, Hout. fold text in Htxt, Hout.
    rewrite Hrun in Hrun1. injection Hrun1 as -> ->.
    exists view. auto. }
  split.
  { destruct Hlast as [[Hsame _]|(to & message & conv & Hsent)]; [now left | right].
    destruct Hsent as (H1 & H2 & H3 & H4 & H5 & H6 & H7 & H8 & H9 & H10 & H11 & H12
                       & (c1 & Hin1 & Hid1 & Hkey1) & H14 & H15 & H16).
    exists to, message, conv.
    repeat (split; [assumption|]).
    split.
    { rewrite H7. pose proof (trim_length text). pose proof (slice0_length 2000
        (sanitizeMessage (JS.orEmpty textField))). fold text in H0. lia. }
    repeat (split; [assumption|]).
    split; [|auto].
    intros Hnd. rewrite <- (NoDup_id_eq _ c1 conv Hnd Hin1 H12 Hid1). exact Hkey1. }
  intros e ->.
  destruct Hlast as [[Hsame _]|(to & message & conv & Hsent)]; [exact Hsame|].
  destruct Hsent as (_ & _ & _ & _ & _ & _ & _ & _ & _ & _ & _ & _ & _ & _ & _ & Habs).
  discriminate.
Qed.

(** *** The conversation list *)

Lemma mapM_cast l w :
  mapM newObjectId l w = (castAll l, w).
Proof.
  induction l as [|x l IH]; simpl; [reflexivity|].
  unfold bind. unfold newObjectId at 1. destruct (parseOid x) as [o|]; [|reflexivity].
  unfold ret at 1. rewrite IH. destruct (castAll l); reflexivity.
Qed.



(** **** The list of a user depends on what that user sees *)

Lemma oidIn_onlyFor x l : oidIn x (onlyFor x l) = oidIn x l.
Proof.
  unfold oidIn, onlyFor. induction l as [|y l IH]; simpl; [reflexivity|].
  destruct (x =? y)%N eqn:E; simpl; [now rewrite E | exact IH].
Qed.



Lemma filter_map_same {A} (p : A -> bool) (f : A -> A) l :
  (forall x, p (f x) = p x) ->
  List.filter p (List.map f l) = List.map f (List.filter p l).
Proof.
  intros H. induction l as [|x l IH]; simpl; [reflexivity|].
  rewrite H. destruct (p x); simpl; now rewrite IH.
Qed.

Lemma insertDesc_map {A} (key : A -> N) (f : A -> A) x l :
  (forall y, key (f y) = key y) ->
  insertDesc key (f x) (List.map f l) = List.map f (insertDesc key x l).
Proof.
  intros H. induction l as [|y l IH]; simpl; [reflexivity|].
  rewrite !H. destruct (key y <? key x)%N; simpl; [reflexivity | now rewrite IH].
Qed.

Lemma sortDesc_map {A} (key : A -> N) (f : A -> A) l :
  (forall y, key (f y) = key y) ->
  sortDesc key (List.map f l) = List.map f (sortDesc key l).
Proof.
  intros H. unfold sortDesc.
  change (@nil A) with (List.map f []) at 1.
  generalize (@nil A) as acc.
  induction l as [|x l IH]; intros acc; simpl; [reflexivity|].
  rewrite (insertDesc_map _ _ _ _ H). apply IH.
Qed.

Lemma limitTo_map {A B} (f : A -> B) n l :
  limitTo n (List.map f l) = List.map f (limitTo n l).
Proof. unfold limitTo. destruct (n =? 0)%nat; [reflexivity | apply firstn_map]. Qed.


Lemma last_map {A B} (f : A -> B) l : last (List.map f l) = option_map f (last l).
Proof.
  induction l as [|x [|y l] IH]; try reflexivity.
  simpl in IH |- *. exact IH.
Qed.





(** **** Identifiers that name one document *)



Lemma find_unique_id (q : Conversation.t -> bool) l c :
  List.NoDup (List.map Conversation._id l) -> In c l -> q c = true ->
  List.find (fun x => convHasId (Conversation._id c) x && q x) l = Some c.
Proof.
  intros Hnd Hin Hq.
  destruct (List.find _ l) as [x|] eqn:Hfind.
  - apply List.find_some in Hfind as [Hx Hpx].
    apply andb_true_iff in Hpx as [Hid _]. unfold convHasId in Hid.
    apply N.eqb_eq in Hid. f_equal. now apply (NoDup_id_eq l).
  - eapply List.find_none in Hfind; [|exact Hin]. simpl in Hfind.
    unfold convHasId in Hfind. now rewrite N.eqb_refl, Hq in Hfind.
Qed.

(** **** Delete for me *)


Lemma onlyFor_other x y l : x <> y -> onlyFor x (l ++ [y]) = onlyFor x l.
Proof.
  intros Hne. unfold onlyFor. rewrite List.filter_app. simpl.
  apply N.eqb_neq in Hne. rewrite Hne. apply app_nil_r.
Qed.

Lemma onlyFor_addToSet x y l : x <> y -> onlyFor x (addToSet y l) = onlyFor x l.
Proof.
  intros Hne. unfold addToSet. destruct (oidIn y l); [reflexivity|].
  now apply onlyFor_other.
Qed.






Lemma In_limitTo {A} n (x : A) l : In x (limitTo n l) -> In x l.
Proof.
  unfold limitTo. destruct (n =? 0)%nat; [auto|].
  revert l. induction n as [|n IH]; intros [|y l]; simpl; try contradiction.
  intros [<-|H]; [now left | right; now apply IH].
Qed.

Lemma In_omap {A B} (g : A -> option B) y l :
  In y (omap g l) -> exists x, In x l /\ g x = Some y.
Proof.
  induction l as [|x l IH]; simpl; [contradiction|].
  destruct (g x) as [z|] eqn:Hz.
  - intros [<-|H]; [exists x; auto|]. destruct (IH H) as (x' & Hin & Hg). eauto.
  - intros H. destruct (IH H) as (x' & Hin & Hg). eauto.
Qed.


(** **** Who is taken out of [hiddenFor] *)

Lemma In_updateFirst {A} (p : A -> bool) f x l :
  In x (updateFirst p f l) -> In x l \/ exists y, In y l /\ p y = true /\ x = f y.
Proof.
  induction l as [|z l IH]; simpl; [contradiction|].
  destruct (p z) eqn:Hz; simpl.
  - intros [<-|H]; [right; exists z; auto | left; auto].
  - intros [<-|H]; [left; auto|].
    destruct (IH H) as [Hl|(y & Hy & Hp & ->)]; [left; auto|].
    right. exists y. auto.
Qed.




(** **** The list, whatever the store does *)

Lemma mapM_findLatest_any (p : Conversation.t -> Message.t -> bool) l : forall w r w',
  mapM (fun c => Message_findLatest (p c)) l w = (r, w') ->
  messages w' = messages w
  /\ (r = Ok (List.map (fun c => head (sortDesc Message.createdAt
                                         (List.filter (p c) (messages w)))) l)
      \/ r = Throw StoreUnavailable).
Proof.
  induction l as [|x l IH]; intros w r w'; simpl.
  - intros [= <- <-]. auto.
  - unfold bind at 1. unfold Message_findLatest at 1. unfold_m.
    destruct (store w) as [r0 w0] eqn:Hs0.
    apply store_inv in Hs0 as ((Hu0 & Hc0 & Hm0 & Hk0 & Hd0 & Ho0) & [->| ->] & _);
      [|intros [= <- <-]; auto].
    destruct (mapM _ l w0) as [r1 w1] eqn:Hrest.
    apply IH in Hrest as (Hm1 & Hr1).
    destruct Hr1 as [->| ->]; intros [= <- <-]; rewrite Hm1, Hm0; auto.
Qed.

Lemma GET_conversations_any authUserId me limitParam cursor w r w' :
  parseOid authUserId = Some me ->
  GET_conversations (Some authUserId) limitParam cursor w = (r, w') ->
  r = conversationList authUserId me limitParam cursor
        (users w) (conversations w) (messages w)
  \/ r = Throw StoreUnavailable.
Proof.
  intros Hme. unfold GET_conversations, conversationList.
  unfold newObjectId at 1. rewrite Hme.
  unfold Conversation_find, User_findIn. unfold bind at 1. unfold ret at 1.
  unfold bind at 1. unfold bind at 1.
  destruct (store w) as [r0 w0] eqn:Hs0.
  apply store_inv in Hs0 as ((Hu0 & Hc0 & Hm0 & Hk0 & Hd0 & Ho0) & [->| ->] & _);
    [|intros [= <- <-]; auto].
  unfold gets at 1. cbv zeta. rewrite Hc0.
  unfold bind at 1. rewrite mapM_cast.
  destruct (castAll _) as [ids|e]; [|intros [= <- <-]; auto].
  unfold bind at 1. unfold bind at 1.
  destruct (store w0) as [r1 w1] eqn:Hs1.
  apply store_inv in Hs1 as ((Hu1 & Hc1 & Hm1 & Hk1 & Hd1 & Ho1) & [->| ->] & _);
    [|intros [= <- <-]; auto].
  unfold gets at 1. unfold bind at 1.
  destruct (mapM _ _ w1) as [r2 w2] eqn:Hlatest.
  apply mapM_findLatest_any in Hlatest as (Hm2 & [->| ->]);
    [|intros [= <- <-]; now right].
  cbv zeta. unfold bind at 1. rewrite cursorAfter_run.
  rewrite Hu1, Hu0, Hm1, Hm0.
  destruct (cursorOf _ _ _) as [nextCursor|e]; intros [= <- <-]; now left.
Qed.




(** *** The router *)

Lemma mapM_emit event payload groups : forall w,
  mapM (fun room => io_to_emit room event payload) groups w
  = (Ok (List.map (fun _ => tt) groups),
     with_wire (fun l => l ++ emissions w event payload groups) w).
Proof.
  induction groups as [|room groups IH]; intros w; simpl.
  - unfold ret, emissions. destruct w. unfold with_wire. simpl. now rewrite app_nil_r.
  - unfold bind at 1. unfold io_to_emit at 1, modify.
    unfold bind at 1. rewrite IH. unfold ret. f_equal.
    destruct w. unfold with_wire, emissions, members. simpl. now rewrite <- app_assoc.
Qed.

(** A session is handed one copy by an emission to a group it is in, and none
    by an emission to a group it is not in. *)
Lemma copies_of_emission w sid event payload room :
  copiesIn sid (mkEmit room event payload (elements (members w room)))
  = if bool_decide (sid ∈ members w room) then 1 else 0.
Proof.
  unfold copiesIn. simpl.
  pose proof (NoDup_elements (members w room)) as Hnd.
  apply NoDup_ListNoDup in Hnd.
  pose proof (proj1 (List.NoDup_count_occ string_dec _) Hnd sid) as Hle.
  destruct (bool_decide (sid ∈ members w room)) eqn:Hin.
  - apply bool_decide_eq_true_1 in Hin. apply elem_of_elements in Hin.
    apply list_elem_of_In in Hin.
    apply (List.count_occ_In string_dec) in Hin. lia.
  - apply bool_decide_eq_false_1 in Hin.
    apply (List.count_occ_not_In string_dec). intros H. apply Hin.
    apply elem_of_elements. now apply list_elem_of_In.
Qed.

Lemma copies_of_emissions w sid event payload groups :
  copiesTo sid (emissions w event payload groups) = memberships w sid groups.
Proof.
  unfold copiesTo, emissions, memberships.
  induction groups as [|room groups IH]; simpl; [reflexivity|].
  rewrite copies_of_emission, IH.
  destruct (bool_decide (sid ∈ members w room)); reflexivity.
Qed.

Lemma emitPresenceUpdate_run targetUserId isOnline lastSeen w :
  emitPresenceUpdate targetUserId isOnline lastSeen w
  = (Ok tt,
     with_wire (fun l => l ++ emissions w "presence:update"
                               (presencePayload targetUserId isOnline lastSeen)
                               (presenceRoutes targetUserId)) w).
Proof.
  unfold emitPresenceUpdate, io_to_emit. unfold_m. f_equal.
  destruct w. unfold with_wire, emissions, members. simpl. now rewrite <- app_assoc.
Qed.

Lemma memberships_length w sid groups : memberships w sid groups <= length groups.
Proof. unfold memberships. apply List.filter_length_le. Qed.

(** C1, as the code has it.  An event that the ingress accepts is emitted
    once to each group of its route, in order, and so is a presence event; the
    rooms are left as they are.  A session is handed one copy for each routed
    group it belongs to, as many copies as it has memberships among them: at
    most three of [message:new] and of [message:deleted] in a mode other than
    "me", at most one of [message:read] and of [message:deleted] in mode
    "me", none of an event of another type, and at most two of a presence
    event.  It is handed at most one copy exactly when it belongs to at most
    one of the routed groups; a session that is in the group of the
    conversation and in the group of the sender is handed a [message:new]
    event twice at least. *)
Theorem router_copies_per_group secret type payload targetUserId isOnline lastSeen w :
  JS.falsy secret = false ->
  internalRealtime secret (Some secret) (Some type) (Some payload) w
  = (Ok (json 200 BOk),
     with_wire (fun l => l ++ emissions w type payload (routes type payload)) w)
  /\ emitPresenceUpdate targetUserId isOnline lastSeen w
     = (Ok tt,
        with_wire (fun l => l ++ emissions w "presence:update"
                                  (presencePayload targetUserId isOnline lastSeen)
                                  (presenceRoutes targetUserId)) w)
  /\ forall sid,
       let copies := copiesTo sid (emissions w type payload (routes type payload)) in
       let presence :=
         copiesTo sid (emissions w "presence:update"
                         (presencePayload targetUserId isOnline lastSeen)
                         (presenceRoutes targetUserId)) in
       copies = memberships w sid (routes type payload)
       /\ presence = memberships w sid (presenceRoutes targetUserId)
       /\ (type = "message:new" ->
           routes type payload
           = [ "conversation:" +:+ fieldStr "conversationId" payload;
               "user:" +:+ fieldStr "recipientId" payload;
               "user:" +:+ fieldStr "senderId" payload ]
           /\ copies <= 3)
       /\ (type = "message:read" ->
           routes type payload = [ "conversation:" +:+ fieldStr "conversationId" payload ]
           /\ copies <= 1)
       /\ (type = "message:deleted" -> fieldIs "mode" "me" payload = true ->
           routes type payload = [ "user:" +:+ fieldStr "targetUserId" payload ]
           /\ copies <= 1)
       /\ (type = "message:deleted" -> fieldIs "mode" "me" payload = false ->
           routes type payload
           = [ "conversation:" +:+ fieldStr "conversationId" payload;
               "user:" +:+ fieldStr "recipientId" payload;
               "user:" +:+ fieldStr "senderId" payload ]
           /\ copies <= 3)
       /\ (recognized type = false -> copies = 0)
       /\ presence <= 2
       /\ (copies <= 1 <-> memberships w sid (routes type payload) <= 1)
       /\ (type = "message:new" ->
           sid ∈ members w ("conversation:" +:+ fieldStr "conversationId" payload) ->
           sid ∈ members w ("user:" +:+ fieldStr "senderId" payload) ->
           2 <= copies).
Proof.
  intros Hsecret. split.
  { unfold internalRealtime. rewrite Hsecret, String.eqb_refl. cbn [orb negb].
    unfold bind. rewrite mapM_emit. reflexivity. }
  split; [apply emitPresenceUpdate_run|].
  intros sid copies presence.
  assert (Hcopies : copies = memberships w sid (routes type payload))
    by apply copies_of_emissions.
  assert (Hpresence : presence = memberships w sid (presenceRoutes targetUserId))
    by apply copies_of_emissions.
  split; [exact Hcopies|]. split; [exact Hpresence|].
  pose proof (memberships_length w sid (routes type payload)) as Hlen.
  split.
  { intros ->. split; [reflexivity|]. rewrite Hcopies. exact Hlen. }
  split.
  { intros ->. split; [reflexivity|]. rewrite Hcopies. exact Hlen. }
  split.
  { intros -> Hmode. unfold routes in *. simpl in *. rewrite Hmode in *.
    split; [reflexivity|]. rewrite Hcopies. exact Hlen. }
  split.
  { intros -> Hmode. unfold routes in *. simpl in *. rewrite Hmode in *.
    split; [reflexivity|]. rewrite Hcopies. exact Hlen. }
  split.
  { intros Hrec. rewrite Hcopies. unfold recognized in Hrec.
    apply orb_false_iff in Hrec as [Hrec H3]. apply orb_false_iff in Hrec as [H1 H2].
    unfold routes. now rewrite H1, H2, H3. }
  split.
  { rewrite Hpresence. exact (memberships_length w sid (presenceRoutes targetUserId)). }
  split; [now rewrite Hcopies|].
  intros -> Hconv Hsender. rewrite Hcopies. unfold routes, memberships. simpl.
  rewrite (bool_decide_eq_true_2 _ Hconv). simpl.
  destruct (bool_decide _); simpl; rewrite (bool_decide_eq_true_2 _ Hsender); simpl; lia.
Qed.

(** *** The session registry *)

(** A connection of a user with a well-formed identifier, with no fault
    pending. *)
Lemma onConnection_run sid userId uid w :
  JS.falsy userId = false -> parseOid userId = Some uid -> faults w = [] ->
  let count := (JS.orNum (onlineCounts w !! userId) 0 + 1)%Z in
  exists w',
    onConnection sid userId w = (Ok tt, w')
    /\ faults w' = []
    /\ onlineCounts w' = <[userId := count]> (onlineCounts w)
    /\ socketToUser w' = <[sid := userId]> (socketToUser w)
    /\ listening w' = {[sid]} ∪ listening w
    /\ users w' = updateFirst (userHasId uid) (setUserPresence true (clock w)) (users w)
    /\ (exists emitted,
          wire w' = wire w ++ emitted
          /\ List.map e_room emitted
             = (if (count =? 1)%Z then presenceRoutes userId else [])
          /\ Forall (fun e => e_event e = "presence:update"
                              /\ e_payload e = presencePayload userId true (clock w))
                    emitted).
Proof.
  intros Hne Huid Hf count. unfold onConnection. rewrite Hne.
  unfold join, newObjectId, User_findByIdAndUpdate. rewrite Huid. unfold_m.
  cbn [onlineCounts with_rooms with_socketToUser]. fold count.
  rewrite (store_ok _ (Hf : faults (with_onlineCounts _ (with_rooms _
                                      (with_socketToUser _ w))) = [])).
  destruct (count =? 1)%Z.
  - rewrite emitPresenceUpdate_run. eexists. split; [reflexivity|].
    cbn [faults onlineCounts socketToUser listening users wire clock
         with_listening with_wire with_users with_onlineCounts with_rooms
         with_socketToUser].
    repeat (split; [reflexivity || exact Hf|]).
    eexists. split; [reflexivity|]. split.
    + unfold emissions. rewrite List.map_map. simpl. reflexivity.
    + unfold emissions. simpl. repeat constructor.
  - eexists. split; [reflexivity|].
    cbn [faults onlineCounts socketToUser listening users wire clock
         with_listening with_wire with_users with_onlineCounts with_rooms
         with_socketToUser].
    repeat (split; [reflexivity || exact Hf|]).
    exists []. rewrite app_nil_r. repeat split. constructor.
Qed.

(** The close of a session whose handlers are installed, with no fault
    pending. *)
Lemma onDisconnect_run sid userId uid w :
  sid ∈ listening w -> socketToUser w !! sid = Some userId ->
  JS.falsy userId = false -> parseOid userId = Some uid -> faults w = [] ->
  let updatedCount := Z.max (JS.orNum (onlineCounts w !! userId) 1 - 1) 0 in
  exists w',
    onDisconnect sid w = (Ok tt, w')
    /\ faults w' = []
    /\ socketToUser w' = delete sid (socketToUser w)
    /\ listening w' = listening w ∖ {[sid]}
    /\ onlineCounts w'
       = (if (updatedCount =? 0)%Z then delete userId (onlineCounts w)
          else <[userId := updatedCount]> (onlineCounts w))
    /\ users w'
       = (if (updatedCount =? 0)%Z
          then updateFirst (userHasId uid) (setUserPresence false (clock w)) (users w)
          else users w)
    /\ (exists emitted,
          wire w' = wire w ++ emitted
          /\ List.map e_room emitted
             = (if (updatedCount =? 0)%Z then presenceRoutes userId else [])
          /\ Forall (fun e => e_event e = "presence:update"
                              /\ e_payload e = presencePayload userId false (clock w))
                    emitted).
Proof.
  intros Hin Hsock Hne Huid Hf updatedCount. unfold onDisconnect.
  unfold leaveAll. unfold_m. fields.
  rewrite (bool_decide_eq_true_2 _ Hin). fields.
  rewrite Hsock, Hne. fields. fold updatedCount.
  unfold newObjectId, User_findByIdAndUpdate. rewrite Huid. unfold_m.
  destruct (updatedCount =? 0)%Z.
  - rewrite (store_ok _ (Hf : faults (with_onlineCounts _ (with_socketToUser _
                                        (with_listening _ (with_rooms _ w)))) = [])).
    rewrite emitPresenceUpdate_run. eexists. split; [reflexivity|].
    cbn [faults onlineCounts socketToUser listening users wire clock
         with_listening with_wire with_users with_onlineCounts with_rooms
         with_socketToUser].
    repeat (split; [reflexivity || exact Hf|]).
    eexists. split; [reflexivity|]. split.
    + unfold emissions. rewrite List.map_map. simpl. reflexivity.
    + unfold emissions. simpl. repeat constructor.
  - eexists. split; [reflexivity|].
    cbn [faults onlineCounts socketToUser listening users wire clock
         with_listening with_wire with_users with_onlineCounts with_rooms
         with_socketToUser].
    repeat (split; [reflexivity || exact Hf|]).
    exists []. rewrite app_nil_r. repeat split. constructor.
Qed.

Lemma countsPositive_insert w w' u n :
  countsPositive w -> (0 < n)%Z ->
  onlineCounts w' = <[u := n]> (onlineCounts w) -> countsPositive w'.
Proof.
  intros Hpos Hn Hmap u' n'. rewrite Hmap.
  destruct (decide (u = u')) as [->|Hne].
  - rewrite lookup_insert_eq. intros [= <-]. exact Hn.
  - rewrite lookup_insert_ne by exact Hne. apply Hpos.
Qed.

Lemma countsPositive_delete w w' u :
  countsPositive w -> onlineCounts w' = delete u (onlineCounts w) -> countsPositive w'.
Proof.
  intros Hpos Hmap u' n'. rewrite Hmap.
  destruct (decide (u = u')) as [->|Hne].
  - rewrite lookup_delete_eq. discriminate.
  - rewrite lookup_delete_ne by exact Hne. apply Hpos.
Qed.

(** Whatever happens to a connection, the counter of its user is the one
    before plus one, and nothing else changes in [onlineCounts]. *)
Lemma onConnection_counts sid userId w r w' :
  onConnection sid userId w = (r, w') ->
  onlineCounts w'
  = if JS.falsy userId then onlineCounts w
    else <[userId := (JS.orNum (onlineCounts w !! userId) 0 + 1)%Z]> (onlineCounts w).
Proof.
  unfold onConnection. destruct (JS.falsy userId).
  - unfold leaveAll, modify. now intros [= <- <-].
  - unfold join, newObjectId, User_findByIdAndUpdate, emitPresenceUpdate, io_to_emit, store.
    unfold_m. fields.
    destruct (parseOid userId); [|now intros [= <- <-]].
    fields.
    destruct (faults w) as [|[] fs]; fields;
      try (now intros [= <- <-]);
      destruct (JS.orNum (onlineCounts w !! userId) 0 + 1 =? 1)%Z;
      now intros [= <- <-].
Qed.

(** Whatever happens to a close, [onlineCounts] is left as it was, or loses
    the counter of one user, or has it replaced by a positive number. *)
Lemma onDisconnect_counts sid w r w' :
  onDisconnect sid w = (r, w') ->
  onlineCounts w' = onlineCounts w
  \/ exists userId,
       onlineCounts w' = delete userId (onlineCounts w)
       \/ exists n, (0 < n)%Z /\ onlineCounts w' = <[userId := n]> (onlineCounts w).
Proof.
  unfold onDisconnect, leaveAll. unfold_m. fields.
  destruct (bool_decide (sid ∈ listening w)); fields; [|intros [= <- <-]; now left].
  destruct (socketToUser w !! sid) as [userId|]; fields; [|intros [= <- <-]; now left].
  destruct (JS.falsy userId); fields; [intros [= <- <-]; now left|].
  set (updatedCount := Z.max (JS.orNum (onlineCounts w !! userId) 1 - 1) 0).
  destruct (updatedCount =? 0)%Z eqn:Hzero.
  - unfold newObjectId, User_findByIdAndUpdate, emitPresenceUpdate, io_to_emit, store.
    unfold_m. fields.
    destruct (parseOid userId); fields;
      [|intros [= <- <-]; right; exists userId; now left].
    destruct (faults w) as [|[] fs]; fields;
      intros [= <- <-]; right; exists userId; now left.
  - intros [= <- <-]. right. exists userId. right. exists updatedCount.
    split; [|reflexivity]. apply Z.eqb_neq in Hzero. unfold updatedCount in *. lia.
Qed.

Lemma onConnection_countsPositive sid userId w r w' :
  countsPositive w -> onConnection sid userId w = (r, w') -> countsPositive w'.
Proof.
  intros Hpos Hrun. apply onConnection_counts in Hrun.
  destruct (JS.falsy userId).
  - intros u n. rewrite Hrun. apply Hpos.
  - apply (countsPositive_insert w w' userId
             (JS.orNum (onlineCounts w !! userId) 0 + 1)%Z Hpos); [|exact Hrun].
    destruct (onlineCounts w !! userId) as [n|] eqn:Hn; simpl; [|lia].
    specialize (Hpos _ _ Hn). destruct (n =? 0)%Z; lia.
Qed.

Lemma onDisconnect_countsPositive sid w r w' :
  countsPositive w -> onDisconnect sid w = (r, w') -> countsPositive w'.
Proof.
  intros Hpos Hrun.
  destruct (onDisconnect_counts _ _ _ _ Hrun) as [Hsame|(u & [Hdel|(n & Hn & Hins)])].
  - intros u n. rewrite Hsame. apply Hpos.
  - exact (countsPositive_delete w w' u Hpos Hdel).
  - exact (countsPositive_insert w w' u n Hpos Hn Hins).
Qed.

Lemma no_emission (emitted : list Emit) : List.map e_room emitted = [] -> emitted = [].
Proof. destruct emitted; [reflexivity | discriminate]. Qed.

(** C7.  A user with a well-formed identifier and a stored document has no
    open session; two sessions of the user are registered, then closed one
    after the other, at any four moments, with no fault pending.  All four
    handlers return.  With both sessions open the counter is 2 and the user is
    stored online.  Closing the first leaves the counter at 1 and the stored
    presence as it was, and emits nothing.  Closing the second removes the
    counter, stores the user offline with the time of that close as last
    seen, and emits one presence event, carrying just that, to its two groups.
    The counters of all users are positive throughout; and whatever the
    session, the user and the store, a connection or a close that starts with
    positive counters ends with positive counters. *)
Theorem two_sessions_presence userId uid s1 s2 t1 t2 t3 t4 user w :
  JS.falsy userId = false -> parseOid userId = Some uid ->
  s1 <> s2 ->
  faults w = [] ->
  onlineCounts w !! userId = None ->
  List.find (userHasId uid) (users w) = Some user ->
  countsPositive w ->
  exists w1 w2 w3 w4,
    onConnection s1 userId (with_clock (fun _ => t1) w) = (Ok tt, w1)
    /\ onConnection s2 userId (with_clock (fun _ => t2) w1) = (Ok tt, w2)
    /\ onDisconnect s1 (with_clock (fun _ => t3) w2) = (Ok tt, w3)
    /\ onDisconnect s2 (with_clock (fun _ => t4) w3) = (Ok tt, w4)
    /\ (onlineCounts w2 !! userId = Some 2%Z /\ presenceOf uid w2 = Some (true, t2))
    /\ (onlineCounts w3 !! userId = Some 1%Z /\ presenceOf uid w3 = Some (true, t2)
        /\ wire w3 = wire w2)
    /\ (onlineCounts w4 !! userId = None /\ presenceOf uid w4 = Some (false, t4)
        /\ exists emitted,
             wire w4 = wire w3 ++ emitted
             /\ List.map e_room emitted = presenceRoutes userId
             /\ Forall (fun e => e_event e = "presence:update"
                                 /\ e_payload e = presencePayload userId false t4)
                       emitted)
    /\ (countsPositive w1 /\ countsPositive w2 /\ countsPositive w3 /\ countsPositive w4)
    /\ (forall sid u w0 r w0',
          countsPositive w0 -> onConnection sid u w0 = (r, w0') -> countsPositive w0')
    /\ (forall sid w0 r w0',
          countsPositive w0 -> onDisconnect sid w0 = (r, w0') -> countsPositive w0').
Proof.
  intros Hne Huid Hs Hf Hnone Huser Hpos.
  destruct (onConnection_run s1 userId uid (with_clock (fun _ => t1) w) Hne Huid Hf)
    as (w1 & Hrun1 & Hf1 & Hoc1 & Hsock1 & Hl1 & Hu1 & _).
  fields in Hoc1. fields in Hsock1. fields in Hl1. fields in Hu1.
  rewrite Hnone in Hoc1. simpl in Hoc1.
  assert (Hcount1 : onlineCounts w1 !! userId = Some 1%Z)
    by (rewrite Hoc1; apply lookup_insert_eq).
  destruct (onConnection_run s2 userId uid (with_clock (fun _ => t2) w1) Hne Huid Hf1)
    as (w2 & Hrun2 & Hf2 & Hoc2 & Hsock2 & Hl2 & Hu2 & _).
  fields in Hoc2. fields in Hsock2. fields in Hl2. fields in Hu2.
  rewrite Hcount1 in Hoc2. simpl in Hoc2.
  assert (Hcount2 : onlineCounts w2 !! userId = Some 2%Z)
    by (rewrite Hoc2; apply lookup_insert_eq).
  assert (Hfind1 : List.find (userHasId uid) (users w1)
                   = Some (setUserPresence true t1 user)).
  { rewrite Hu1. apply find_updateFirst_same; [exact Huser|].
    apply List.find_some in Huser as [_ Hid]. exact Hid. }
  assert (Hpres2 : presenceOf uid w2 = Some (true, t2)).
  { unfold presenceOf. rewrite Hu2.
    rewrite (find_updateFirst_same _ _ _ _ Hfind1); [reflexivity|].
    apply List.find_some in Hfind1 as [_ Hid]. exact Hid. }
  assert (Hin1 : s1 ∈ listening (with_clock (fun _ => t3) w2)).
  { fields. rewrite Hl2, Hl1. apply elem_of_union_r, elem_of_union_l.
    now apply elem_of_singleton. }
  assert (Hlook1 : socketToUser (with_clock (fun _ => t3) w2) !! s1 = Some userId).
  { fields. rewrite Hsock2, Hsock1.
    rewrite lookup_insert_ne by (intros E; apply Hs; now symmetry).
    apply lookup_insert_eq. }
  destruct (onDisconnect_run s1 userId uid (with_clock (fun _ => t3) w2)
              Hin1 Hlook1 Hne Huid Hf2)
    as (w3 & Hrun3 & Hf3 & Hsock3 & Hl3 & Hoc3 & Hu3 & emitted3 & Hw3 & Hrooms3 & _).
  fields in Hoc3. fields in Hsock3. fields in Hl3. fields in Hu3.
  fields in Hw3. fields in Hrooms3.
  rewrite Hcount2 in Hoc3, Hu3, Hrooms3. simpl in Hoc3, Hu3, Hrooms3.
  apply no_emission in Hrooms3. subst emitted3. rewrite app_nil_r in Hw3.
  assert (Hcount3 : onlineCounts w3 !! userId = Some 1%Z)
    by (rewrite Hoc3; apply lookup_insert_eq).
  assert (Hin2 : s2 ∈ listening (with_clock (fun _ => t4) w3)).
  { fields. rewrite Hl3, Hl2. apply elem_of_difference. split.
    - apply elem_of_union_l. now apply elem_of_singleton.
    - intros E. apply elem_of_singleton in E. apply Hs. now symmetry. }
  assert (Hlook2 : socketToUser (with_clock (fun _ => t4) w3) !! s2 = Some userId).
  { fields. rewrite Hsock3, Hsock2.
    rewrite lookup_delete_ne by exact Hs. apply lookup_insert_eq. }
  destruct (onDisconnect_run s2 userId uid (with_clock (fun _ => t4) w3)
              Hin2 Hlook2 Hne Huid Hf3)
    as (w4 & Hrun4 & Hf4 & Hsock4 & Hl4 & Hoc4 & Hu4 & emitted4 & Hw4 & Hrooms4 & Hev4).
  fields in Hoc4. fields in Hu4. fields in Hw4. fields in Hrooms4. fields in Hev4.
  rewrite Hcount3 in Hoc4, Hu4, Hrooms4. simpl in Hoc4, Hu4, Hrooms4.
  assert (Hfind3 : List.find (userHasId uid) (users w3)
                   = Some (setUserPresence true t2 (setUserPresence true t1 user))).
  { rewrite Hu3, Hu2. apply find_updateFirst_same; [exact Hfind1|].
    apply List.find_some in Hfind1 as [_ Hid]. exact Hid. }
  exists w1, w2, w3, w4.
  split; [exact Hrun1|]. split; [exact Hrun2|].
  split; [exact Hrun3|]. split; [exact Hrun4|].
  split; [split; [exact Hcount2 | exact Hpres2]|].
  split.
  { split; [exact Hcount3|]. split; [|exact Hw3].
    unfold presenceOf. now rewrite Hfind3. }
  split.
  { split; [rewrite Hoc4; apply lookup_delete_eq|]. split.
    - unfold presenceOf. rewrite Hu4.
      rewrite (find_updateFirst_same _ _ _ _ Hfind3); [reflexivity|].
      apply List.find_some in Hfind3 as [_ Hid]. exact Hid.
    - exists emitted4. auto. }
  assert (Hp1 : countsPositive w1).
  { apply (countsPositive_insert w w1 userId 1%Z); [exact Hpos | lia | exact Hoc1]. }
  assert (Hp2 : countsPositive w2).
  { apply (countsPositive_insert w1 w2 userId 2%Z); [exact Hp1 | lia | exact Hoc2]. }
  assert (Hp3 : countsPositive w3).
  { apply (countsPositive_insert w2 w3 userId 1%Z); [exact Hp2 | lia | exact Hoc3]. }
  split.
  { repeat split; auto.
    apply (countsPositive_delete w3 w4 userId); [exact Hp3 | exact Hoc4]. }
  split.
  - intros sid u w0 r w0'. apply onConnection_countsPositive.
  - intros sid w0 r w0'. apply onDisconnect_countsPositive.
Qed.

(* ------------------------------------------------------------------- *)
(** *** Delete for me, of a message *)

(** With no fault pending, a delete for me by a participant of a stored
    message: what it answers and the world it leaves. *)
Lemma DELETE_messages_me_run me messageIdField modeField mid requester message w :
  let messageId := JS.trim (JS.orEmpty messageIdField) in
  JS.toLowerCase (JS.trim (default "me" modeField)) = "me" ->
  JS.falsy messageId = false ->
  parseOid messageId = Some mid -> parseOid me = Some requester ->
  faults w = [] ->
  List.find (msgHasId mid) (messages w) = Some message ->
  (Message.senderId message =? requester)%N
  || (Message.recipientId message =? requester)%N = true ->
  DELETE_messages (Some me) messageIdField modeField w
  = (Ok (json 200 (BMessageDeleted (oidStr (Message._id message)) "me")),
     with_outbox (fun l => l ++ [deletedForMe message me])
       (if oidIn requester (Message.hiddenFor message) then w
        else with_messages
               (updateFirst (msgHasId (Message._id message))
                  (setMsgHiddenFor (Message.hiddenFor message ++ [requester]))) w)).
Proof.
  intros messageId Hmode Hne Hmid Hme Hf Hfind Hpart.
  unfold DELETE_messages. fold messageId.
  rewrite Hmode, Hne, (isValid_parse _ _ Hmid). cbn [orb negb String.eqb Ascii.eqb
    Bool.eqb andb].
  unfold newObjectId, Message_findById, Message_save, emitRealtimeEvent.
  rewrite Hmid, Hme. unfold_m.
  rewrite (store_ok _ Hf), Hfind, Hpart. cbn [negb].
  destruct (oidIn requester (Message.hiddenFor message)) eqn:Hhid; cbn [negb].
  - reflexivity.
  - rewrite (store_ok _ Hf), (find_msg_has_id _ _ _ Hfind). reflexivity.
Qed.

Lemma updateFirst_fixed {A} (p : A -> bool) f l x :
  List.find p l = Some x -> f x = x -> updateFirst p f l = l.
Proof.
  induction l as [|y l IH]; simpl; [discriminate|].
  destruct (p y).
  - intros [= ->] ->. reflexivity.
  - intros H E. now rewrite (IH H E).
Qed.

Lemma setMsgHiddenFor_same m : setMsgHiddenFor (Message.hiddenFor m) m = m.
Proof. now destruct m. Qed.

Lemma find_msg_id (id : ObjectId) l m :
  List.find (msgHasId id) l = Some m -> Message._id m = id.
Proof. intros H. apply List.find_some in H as [_ H]. now apply msgHasId_eq. Qed.

(** With no fault pending, what a delete for me by a participant leaves. *)
Lemma DELETE_messages_me_effect me messageIdField modeField mid requester message w :
  let messageId := JS.trim (JS.orEmpty messageIdField) in
  JS.toLowerCase (JS.trim (default "me" modeField)) = "me" ->
  JS.falsy messageId = false ->
  parseOid messageId = Some mid -> parseOid me = Some requester ->
  faults w = [] ->
  List.find (msgHasId mid) (messages w) = Some message ->
  Message.senderId message = requester \/ Message.recipientId message = requester ->
  exists w1,
    DELETE_messages (Some me) messageIdField modeField w
    = (Ok (json 200 (BMessageDeleted (oidStr (Message._id message)) "me")), w1)
    /\ faults w1 = []
    /\ messages w1
       = updateFirst (msgHasId mid)
           (setMsgHiddenFor (addToSet requester (Message.hiddenFor message)))
           (messages w)
    /\ List.find (msgHasId mid) (messages w1)
       = Some (setMsgHiddenFor (addToSet requester (Message.hiddenFor message)) message)
    /\ conversations w1 = conversations w
    /\ users w1 = users w
    /\ clock w1 = clock w
    /\ oidSeed w1 = oidSeed w
    /\ outbox w1 = outbox w ++ [deletedForMe message me].
Proof.
  intros messageId Hmode Hne Hmid Hme Hf Hfind Hpart.
  assert (Hp : (Message.senderId message =? requester)%N
               || (Message.recipientId message =? requester)%N = true).
  { apply orb_true_iff. destruct Hpart as [E|E]; [left|right]; now apply N.eqb_eq. }
  pose proof (find_msg_id _ _ _ Hfind) as Hid.
  pose proof (DELETE_messages_me_run me messageIdField modeField mid requester
                message w Hmode Hne Hmid Hme Hf Hfind Hp) as Hrun.
  cbv zeta in Hrun. fold messageId in Hrun.
  eexists. split; [exact Hrun|].
  assert (Hm1 : messages
                  (with_outbox (fun l => l ++ [deletedForMe message me])
                     (if oidIn requester (Message.hiddenFor message) then w
                      else with_messages
                             (updateFirst (msgHasId (Message._id message))
                                (setMsgHiddenFor
                                   (Message.hiddenFor message ++ [requester]))) w))
                = updateFirst (msgHasId mid)
                    (setMsgHiddenFor (addToSet requester (Message.hiddenFor message)))
                    (messages w)).
  { unfold addToSet. rewrite Hid.
    destruct (oidIn requester (Message.hiddenFor message)); fields.
    - symmetry. apply (updateFirst_fixed _ _ _ _ Hfind), setMsgHiddenFor_same.
    - reflexivity. }
  split; [now destruct (oidIn requester (Message.hiddenFor message))|].
  split; [exact Hm1|].
  split.
  { rewrite Hm1. apply find_updateFirst_same; [exact Hfind|].
    unfold msgHasId. simpl. rewrite Hid. apply N.eqb_refl. }
  repeat split; now destruct (oidIn requester (Message.hiddenFor message)).
Qed.

(** X1.  Delete for me, of a stored message, with no fault pending.  A
    requester who is neither its sender nor its recipient is answered 403 and
    nothing changes.  A participant is answered 200: the requester is added
    to the message's [hiddenFor] unless already there, no other message, no
    conversation and no user is written, and one [message:deleted] event is
    posted, which the router emits to the requester's own group only.  The
    same request repeated is answered 200 again, writes nothing, and posts
    the same event once more. *)
Theorem DELETE_messages_for_me me messageIdField modeField mid requester message w :
  let messageId := JS.trim (JS.orEmpty messageIdField) in
  JS.toLowerCase (JS.trim (default "me" modeField)) = "me" ->
  JS.falsy messageId = false ->
  parseOid messageId = Some mid -> parseOid me = Some requester ->
  faults w = [] ->
  List.find (msgHasId mid) (messages w) = Some message ->
  (Message.senderId message <> requester -> Message.recipientId message <> requester ->
     DELETE_messages (Some me) messageIdField modeField w
     = (Ok (json 403 (BError "Forbidden.")), w))
  /\ (Message.senderId message = requester \/ Message.recipientId message = requester ->
        exists w1 w2,
          let answer := json 200 (BMessageDeleted (oidStr (Message._id message)) "me") in
          DELETE_messages (Some me) messageIdField modeField w = (Ok answer, w1)
          /\ messages w1
             = updateFirst (msgHasId mid)
                 (setMsgHiddenFor (addToSet requester (Message.hiddenFor message)))
                 (messages w)
          /\ conversations w1 = conversations w
          /\ users w1 = users w
          /\ outbox w1 = outbox w ++ [deletedForMe message me]
          /\ routes (fst (deletedForMe message me)) (snd (deletedForMe message me))
             = ["user:" +:+ me]
          /\ DELETE_messages (Some me) messageIdField modeField w1 = (Ok answer, w2)
          /\ messages w2 = messages w1
          /\ outbox w2 = outbox w1 ++ [deletedForMe message me]).
Proof.
  intros messageId Hmode Hne Hmid Hme Hf Hfind. split.
  - intros Hs Hr. unfold DELETE_messages. fold messageId.
    rewrite Hmode, Hne, (isValid_parse _ _ Hmid).
    cbn [orb negb String.eqb Ascii.eqb Bool.eqb andb].
    unfold newObjectId, Message_findById. rewrite Hmid, Hme. unfold_m.
    rewrite (store_ok _ Hf), Hfind.
    apply N.eqb_neq in Hs, Hr. rewrite Hs, Hr. reflexivity.
  - intros Hpart.
    destruct (DELETE_messages_me_effect me messageIdField modeField mid requester
                message w Hmode Hne Hmid Hme Hf Hfind Hpart)
      as (w1 & Hrun & Hf1 & Hm1 & Hfind1 & Hc1 & Hu1 & _ & _ & Ho1).
    cbv zeta in Hrun. fold messageId in Hrun.
    set (message1 := setMsgHiddenFor (addToSet requester (Message.hiddenFor message))
                       message) in *.
    destruct (DELETE_messages_me_effect me messageIdField modeField mid requester
                message1 w1 Hmode Hne Hmid Hme Hf1 Hfind1 Hpart)
      as (w2 & Hrun2 & _ & Hm2 & _ & _ & _ & _ & _ & Ho2).
    cbv zeta in Hrun2. fold messageId in Hrun2.
    exists w1, w2. cbv zeta.
    split; [exact Hrun|]. split; [exact Hm1|]. split; [exact Hc1|].
    split; [exact Hu1|]. split; [exact Ho1|]. split; [reflexivity|].
    split; [exact Hrun2|]. split; [|exact Ho2].
    rewrite Hm2. apply (updateFirst_fixed _ _ _ _ Hfind1).
    unfold message1, addToSet. cbn [setMsgHiddenFor Message.hiddenFor].
    fold (addToSet requester (Message.hiddenFor message)).
    rewrite (oidIn_addToSet requester (Message.hiddenFor message)).
    reflexivity.
Qed.

(* ------------------------------------------------------------------- *)
(** *** The pages of a history *)

Lemma In_insertDesc_iff {A} (key : A -> N) x y l :
  In x (insertDesc key y l) <-> x = y \/ In x l.
Proof.
  induction l as [|z l IH]; simpl.
  - split; intros [H|H]; auto.
  - destruct (key z <? key y)%N; simpl; rewrite ?IH; split; intros H;
      repeat destruct H as [H|H]; auto.
Qed.

Lemma In_sortDesc_iff {A} (key : A -> N) x l : In x (sortDesc key l) <-> In x l.
Proof.
  unfold sortDesc.
  assert (G : forall acc, In x (fold_left (fun acc y => insertDesc key y acc) l acc)
                          <-> In x l \/ In x acc).
  { induction l as [|y l IH]; intros acc; simpl.
    - split; [auto | intros [[]|H]; exact H].
    - rewrite IH, In_insertDesc_iff. split; intros H;
        repeat destruct H as [H|H]; auto. }
  rewrite G. simpl. split; [intros [H|[]]; exact H | auto].
Qed.






(** Whatever the store does, a history fetch writes no message, no user and
    no event; when it answers 200, the page is the one of the conversation
    it resolved, oldest first. *)
Lemma GET_messages_any me userIdParam cursor limitParam mo w r w' :
  let limit := Nat.min (default 30 limitParam) 100 in
  parseOid me = Some mo ->
  GET_messages (Some me) userIdParam cursor limitParam w = (r, w') ->
  messages w' = messages w /\ users w' = users w /\ outbox w' = outbox w
  /\ forall conversationId views next,
       r = Ok (json 200 (BMessages conversationId views next)) ->
       exists cid,
         let page := rev (historyPage cid mo cursor limit (messages w)) in
         conversationId = oidStr cid
         /\ views = List.map messageView page
         /\ cursorOf Message.createdAt limit page = Ok next.
Proof.
  intros limit Hme. unfold GET_messages. fold limit.
  destruct (JS.falsy _ || negb (isValid _));
    [intros [= <- <-]; repeat split; intros ? ? ?; discriminate|].
  unfold bind at 1.
  destruct (getOrCreateConversation _ _ w) as [[conv|e] w1] eqn:Hg;
    apply getOrCreate_frame in Hg as (Hu1 & Hm1 & Hk1 & Ho1);
    [|intros [= <- <-]; repeat split; auto; intros ? ? ?; discriminate].
  unfold newObjectId, Message_findPage. rewrite Hme. unfold_m.
  destruct (store w1) as [r2 w2] eqn:Hs2.
  apply store_inv in Hs2 as ((Hu2 & Hc2 & Hm2 & Hk2 & Hd2 & Ho2) & [->| ->] & _);
    [|intros [= <- <-]; repeat split; try congruence; intros ? ? ?; discriminate].
  rewrite cursorAfter_run.
  destruct (cursorOf _ _ _) as [nextCursor|e] eqn:Hcur;
    intros [= <- <-]; repeat split; try congruence;
    try (intros ? ? ?; discriminate).
  intros conversationId views next [= <- <- <-].
  exists (Conversation._id conv). cbv zeta. rewrite <- Hm1, <- Hm2.
  split; [reflexivity|]. split; [reflexivity | exact Hcur].
Qed.


(** With no fault pending, a history fetch for a well-formed identifier
    resolves the conversation and answers with its page. *)
Lemma GET_messages_run me userIdParam cursor limitParam mo w :
  let userId := JS.trim (JS.orEmpty userIdParam) in
  let limit := Nat.min (default 30 limitParam) 100 in
  JS.falsy userId = false -> isValid userId = true ->
  parseOid me = Some mo -> faults w = [] ->
  exists conv w1,
    getOrCreateConversation me userId w = (Ok conv, w1)
    /\ faults w1 = []
    /\ GET_messages (Some me) userIdParam cursor limitParam w
       = (historyAnswer (Conversation._id conv) mo cursor limit (messages w), w1).
Proof.
  intros userId limit Hne Hvalid Hme Hf.
  destruct (getOrCreate_stored me userId w Hf (isValid_parse _ _ Hme) Hvalid)
    as (conv & w1 & Hrun & Hf1 & (_ & Hm1 & _ & _) & _).
  exists conv, w1. split; [exact Hrun|]. split; [exact Hf1|].
  unfold GET_messages. fold userId. fold limit. rewrite Hne, Hvalid. cbn [orb negb].
  unfold bind at 1. rewrite Hrun.
  unfold newObjectId, Message_findPage. rewrite Hme.
  unfold bind at 1. unfold ret at 1. unfold bind at 1. unfold bind at 1.
  rewrite (store_ok _ Hf1). unfold gets at 1. rewrite Hm1.
  exact (bind_cursorAfter Message.createdAt limit _
           (fun nextCursor =>
              json 200 (BMessages (oidStr (Conversation._id conv))
                          (List.map messageView
                             (rev (historyPage (Conversation._id conv) mo cursor limit
                                     (messages w))))
                          nextCursor)) w1).
Qed.

(** The conversation that [getOrCreateConversation] answers with depends on
    the stored conversations, the clock and the next identifier only. *)
Lemma getOrCreate_same_answer userA userB w w1 :
  faults w = [] -> faults w1 = [] ->
  isValid userA = true -> isValid userB = true ->
  conversations w1 = conversations w -> clock w1 = clock w -> oidSeed w1 = oidSeed w ->
  fst (getOrCreateConversation userA userB w1) = fst (getOrCreateConversation userA userB w).
Proof.
  intros Hf Hf1 Ha Hb Hc Hk Hs.
  destruct (newObjectId_valid _ Ha) as (oa & Hoa & _).
  destruct (newObjectId_valid _ Hb) as (ob & Hob & _).
  destruct (List.find (convHasKey (buildParticipantKey userA userB)) (conversations w))
    as [c|] eqn:Hfind.
  - destruct (oidIn oa (Conversation.hiddenFor c)) eqn:Hhid.
    + rewrite (getOrCreate_unhides _ _ _ _ _ Hf Hoa Hfind Hhid).
      rewrite <- Hc in Hfind.
      now rewrite (getOrCreate_unhides _ _ _ _ _ Hf1 Hoa Hfind Hhid).
    + rewrite (getOrCreate_finds _ _ _ _ _ Hf Hoa Hfind Hhid).
      rewrite <- Hc in Hfind.
      now rewrite (getOrCreate_finds _ _ _ _ _ Hf1 Hoa Hfind Hhid).
  - rewrite (getOrCreate_creates _ _ _ _ _ Hf Hoa Hob Hfind).
    rewrite <- Hc in Hfind.
    rewrite (getOrCreate_creates _ _ _ _ _ Hf1 Hoa Hob Hfind).
    cbn [fst]. now rewrite Hk, Hs.
Qed.

Lemma inHistory_seenBy cid me cursor m :
  inHistory cid me cursor (msgSeenBy me m) = inHistory cid me cursor m.
Proof. unfold inHistory, msgSeenBy. simpl. now rewrite oidIn_onlyFor. Qed.

Lemma messageView_seenBy x m : messageView (msgSeenBy x m) = messageView m.
Proof. reflexivity. Qed.

(** The answer of a history fetch depends on the messages as the caller
    sees them only. *)
Lemma historyAnswer_seenBy cid me cursor limit ms :
  historyAnswer cid me cursor limit (List.map (msgSeenBy me) ms)
  = historyAnswer cid me cursor limit ms.
Proof.
  unfold historyAnswer, historyPage.
  rewrite (filter_map_same _ (msgSeenBy me) ms (inHistory_seenBy cid me cursor)).
  rewrite (sortDesc_map Message.createdAt (msgSeenBy me)) by reflexivity.
  rewrite limitTo_map, <- List.map_rev, List.map_map.
  cbv zeta.
  assert (Hcursor : forall l,
            cursorOf Message.createdAt limit (List.map (msgSeenBy me) l)
            = cursorOf Message.createdAt limit l).
  { intros l. unfold cursorOf. rewrite length_map, last_map.
    destruct (length l =? limit)%nat; [|reflexivity]. now destruct (last l). }
  rewrite Hcursor. reflexivity.
Qed.

Lemma map_updateFirst_same {A B} (g : A -> B) (p : A -> bool) f l x :
  List.find p l = Some x -> g (f x) = g x ->
  List.map g (updateFirst p f l) = List.map g l.
Proof.
  induction l as [|y l IH]; simpl; [discriminate|].
  destruct (p y); simpl.
  - intros [= ->] ->. reflexivity.
  - intros H E. now rewrite (IH H E).
Qed.

Lemma In_updateFirst_msg (id : ObjectId) f l m :
  List.NoDup (List.map Message._id l) ->
  (forall x, Message._id (f x) = Message._id x) ->
  In m (updateFirst (msgHasId id) f l) -> Message._id m = id ->
  exists x, In x l /\ Message._id x = id /\ m = f x.
Proof.
  intros Hnd Hf. induction l as [|y l IH]; simpl; [intros []|].
  apply List.NoDup_cons_iff in Hnd as [Hy Hnd]. simpl in Hy.
  destruct (msgHasId id y) eqn:Hp; simpl.
  - apply msgHasId_eq in Hp. intros [<-|Hin] Hid.
    + exists y. auto.
    + exfalso. apply Hy. rewrite Hp, <- Hid. now apply List.in_map.
  - intros [<-|Hin] Hid.
    + unfold msgHasId in Hp. apply N.eqb_neq in Hp. contradiction.
    + destruct (IH Hnd Hin Hid) as (x & Hx & Hxid & ->). exists x. auto.
Qed.

Lemma NoDup_msg_id_eq l (x y : Message.t) :
  List.NoDup (List.map Message._id l) -> In x l -> In y l ->
  Message._id x = Message._id y -> x = y.
Proof.
  induction l as [|z l IH]; simpl; [intros _ []|].
  intros Hnd. apply List.NoDup_cons_iff in Hnd as [Hz Hnd].
  intros [->|Hx] [->|Hy] E; auto.
  - exfalso. apply Hz. rewrite E. now apply List.in_map.
  - exfalso. apply Hz. rewrite <- E. now apply List.in_map.
Qed.


(** Whatever the store does, every message of a page is stored and is not
    hidden for the caller. *)
Lemma GET_messages_visible me userIdParam cursor limitParam mo w r w'
    conversationId views next :
  parseOid me = Some mo ->
  GET_messages (Some me) userIdParam cursor limitParam w = (r, w') ->
  r = Ok (json 200 (BMessages conversationId views next)) ->
  forall view, In view views ->
    exists m, In m (messages w) /\ view = messageView m
              /\ ~ In mo (Message.hiddenFor m).
Proof.
  intros Hme Hget Hr view Hview.
  destruct (GET_messages_any _ _ _ _ _ _ _ _ Hme Hget) as (_ & _ & _ & Hpage).
  destruct (Hpage _ _ _ Hr) as (cid & _ & -> & _).
  apply List.in_map_iff in Hview as (m & <- & Hm).
  apply in_rev, In_limitTo, In_sortDesc_iff, filter_In in Hm as [Hm Hp].
  exists m. split; [exact Hm|]. split; [reflexivity|].
  unfold inHistory in Hp. apply andb_true_iff in Hp as [Hp _].
  apply andb_true_iff in Hp as [_ Hhid]. intros Hx. apply oidIn_In in Hx.
  rewrite Hx in Hhid. discriminate.
Qed.

(** X3.  After a delete for me, with no fault pending and identifiers that
    name one message each: no page of a history that the requester fetches
    carries a message of that identifier, whatever the conversation, the
    cursor and the limit; and every fetch by another user is answered as it
    would have been before the delete. *)
Theorem DELETE_messages_me_then_fetch me messageIdField modeField mid requester message w :
  let messageId := JS.trim (JS.orEmpty messageIdField) in
  JS.toLowerCase (JS.trim (default "me" modeField)) = "me" ->
  JS.falsy messageId = false ->
  parseOid messageId = Some mid -> parseOid me = Some requester ->
  faults w = [] ->
  List.NoDup (List.map Message._id (messages w)) ->
  List.find (msgHasId mid) (messages w) = Some message ->
  Message.senderId message = requester \/ Message.recipientId message = requester ->
  exists w1,
    DELETE_messages (Some me) messageIdField modeField w
    = (Ok (json 200 (BMessageDeleted (oidStr (Message._id message)) "me")), w1)
    /\ (forall userIdParam cursor limitParam r w' conversationId views next,
          Nat.min (default 30 limitParam) 100 <> 0 ->
          GET_messages (Some me) userIdParam cursor limitParam w1 = (r, w') ->
          r = Ok (json 200 (BMessages conversationId views next)) ->
          forall view, In view views ->
            exists m, In m (messages w1) /\ view = messageView m
                      /\ Message._id m <> mid)
    /\ (forall other oo userIdParam cursor limitParam,
          parseOid other = Some oo -> oo <> requester ->
          fst (GET_messages (Some other) userIdParam cursor limitParam w1)
          = fst (GET_messages (Some other) userIdParam cursor limitParam w)).
Proof.
  intros messageId Hmode Hne Hmid Hme Hf Hnd Hfind Hpart.
  destruct (DELETE_messages_me_effect me messageIdField modeField mid requester message w
              Hmode Hne Hmid Hme Hf Hfind Hpart)
    as (w1 & Hrun1 & Hf1 & Hm1 & _ & Hc1 & Hu1 & Hk1 & Hs1 & Ho1).
  cbv zeta in Hrun1. fold messageId in Hrun1.
  exists w1. split; [exact Hrun1|]. split.
  - intros userIdParam cursor limitParam r w' conversationId views next Hlimit Hget Hr
      view Hview.
    destruct (GET_messages_visible _ _ _ _ _ _ _ _ _ _ _ Hme Hget Hr view Hview)
      as (m & Hstored & -> & Hvisible).
    exists m. split; [exact Hstored|]. split; [reflexivity|].
    intros Hid. apply Hvisible.
    rewrite Hm1 in Hstored.
    destruct (In_updateFirst_msg mid
                (setMsgHiddenFor (addToSet requester (Message.hiddenFor message)))
                _ _ Hnd (fun x => eq_refl) Hstored Hid)
      as (x & Hx & Hxid & ->).
    simpl. apply oidIn_In, oidIn_addToSet.
  - intros other oo userIdParam cursor limitParam Hother Hneq.
    destruct (JS.falsy (JS.trim (JS.orEmpty userIdParam))
              || negb (isValid (JS.trim (JS.orEmpty userIdParam)))) eqn:Hv.
    + unfold GET_messages. now rewrite Hv.
    + apply orb_false_iff in Hv as [Hnonempty Hvalid]. apply negb_false_iff in Hvalid.
      destruct (GET_messages_run other userIdParam cursor limitParam oo w
                  Hnonempty Hvalid Hother Hf) as (conv & w' & Hg & _ & Hrun).
      destruct (GET_messages_run other userIdParam cursor limitParam oo w1
                  Hnonempty Hvalid Hother Hf1) as (conv1 & w1' & Hg1 & _ & Hrun').
      rewrite Hrun, Hrun'. cbn [fst].
      pose proof (getOrCreate_same_answer other _ w w1 Hf Hf1
                    (isValid_parse _ _ Hother) Hvalid Hc1 Hk1 Hs1) as E.
      rewrite Hg, Hg1 in E. cbn [fst] in E. injection E as ->.
      rewrite <- (historyAnswer_seenBy _ _ _ _ (messages w1)).
      rewrite <- (historyAnswer_seenBy _ _ _ _ (messages w)).
      rewrite Hm1, (map_updateFirst_same (msgSeenBy oo) _ _ _ _ Hfind); [reflexivity|].
      unfold msgSeenBy. cbn [setMsgHiddenFor Message.hiddenFor Message._id
        Message.conversationId Message.senderId Message.recipientId Message.text
        Message.readBy Message.isDeletedForEveryone Message.deletedAt Message.createdAt].
      now rewrite (onlyFor_addToSet oo requester _ Hneq).
Qed.

(* ------------------------------------------------------------------- *)
(** *** A send, then a fetch *)

(** With no fault pending, a send that passes the checks: the conversation
    it resolves, and the world it leaves. *)
Lemma POST_messages_run me toUserIdField textField sender to u w :
  let toUserId := JS.trim (JS.orEmpty toUserIdField) in
  let text := JS.slice0 2000 (sanitizeMessage (JS.orEmpty textField)) in
  parseOid me = Some sender ->
  JS.falsy toUserId = false -> parseOid toUserId = Some to ->
  JS.falsy text = false ->
  faults w = [] ->
  List.find (userHasId to) (users w) = Some u ->
  exists conv w1,
    let message := Message.mk (oidSeed w1) (Conversation._id conv) sender to
                              (JS.trim text) [sender] [] false None (clock w) in
    getOrCreateConversation me toUserId w = (Ok conv, w1)
    /\ faults w1 = []
    /\ messages w1 = messages w
    /\ option_map Conversation._id
         (List.find (convHasKey (buildParticipantKey me toUserId)) (conversations w1))
       = Some (Conversation._id conv)
    /\ POST_messages (Some me) toUserIdField textField w
       = (Ok (json 200
                (BMessage (mkMessageView (oidStr (oidSeed w1))
                             (oidStr (Conversation._id conv))
                             me toUserId text [me] false None (clock w)))),
          with_outbox
            (fun l => l ++ [sent (oidStr (Conversation._id conv)) (oidStr (oidSeed w1))
                                 me toUserId text (clock w)])
            (with_conversations
               (updateFirst (convHasId (Conversation._id conv))
                  (setConvPreview text (clock w)))
               (with_messages (fun l => l ++ [message]) (with_oidSeed N.succ w1)))).
Proof.
  intros toUserId text Hme Hne Hto Ht Hf Hu.
  destruct (getOrCreate_stored me toUserId w Hf
              (isValid_parse _ _ Hme) (isValid_parse _ _ Hto))
    as (conv & w1 & Hrun & Hf1 & (Hu1 & Hm1 & Hk1 & Ho1) & Hstored).
  destruct (getOrCreate_resolves me toUserId w Hf
              (isValid_parse _ _ Hme) (isValid_parse _ _ Hto))
    as (conv' & w1' & Hrun' & _ & _ & Hfirst & _).
  rewrite Hrun in Hrun'. injection Hrun' as <- <-.
  exists conv, w1. cbv zeta.
  split; [exact Hrun|]. split; [exact Hf1|]. split; [exact Hm1|].
  split; [exact Hfirst|].
  assert (Htrim : JS.falsy (JS.trim text) = false).
  { apply trim_survives; [|exact Ht].
    apply slice0_startsTrimmed, sanitizeMessage_startsTrimmed. }
  unfold POST_messages. fold toUserId. fold text.
  rewrite Hne, (isValid_parse _ _ Hto), Ht. cbn [orb negb].
  unfold newObjectId, User_findById, Message_create, Conversation_save,
    emitRealtimeEvent.
  rewrite Hto, Hme. unfold_m.
  rewrite (store_ok _ Hf), Hu, Hrun, Message_text_run, Htrim, (store_ok _ Hf1).
  rewrite (store_ok _ (Hf1 : faults (with_messages _ (with_oidSeed _ w1)) = [])).
  cbn [conversations with_messages with_oidSeed]. rewrite Hstored.
  fields. rewrite Hk1. reflexivity.
Qed.

(** A call that finds the conversation of its pair answers with it, hidden
    or not, and writes no message. *)
Lemma getOrCreate_existing userA userB oa c w :
  faults w = [] -> parseOid userA = Some oa ->
  List.find (convHasKey (buildParticipantKey userA userB)) (conversations w) = Some c ->
  exists conv w',
    getOrCreateConversation userA userB w = (Ok conv, w')
    /\ Conversation._id conv = Conversation._id c.
Proof.
  intros Hf Hoa Hfind.
  destruct (oidIn oa (Conversation.hiddenFor c)) eqn:Hhid.
  - eexists _, _. split; [apply (getOrCreate_unhides _ _ _ _ _ Hf Hoa Hfind Hhid)|].
    reflexivity.
  - eexists _, _. split; [apply (getOrCreate_finds _ _ _ _ _ Hf Hoa Hfind Hhid)|].
    reflexivity.
Qed.

Lemma sortDesc_snoc {A} (key : A -> N) l x :
  sortDesc key (l ++ [x]) = insertDesc key x (sortDesc key l).
Proof. unfold sortDesc. now rewrite fold_left_app. Qed.

(** An element that is newer than all the others comes first. *)
Lemma insertDesc_newest {A} (key : A -> N) x l :
  (forall y, In y l -> (key y < key x)%N) -> insertDesc key x l = x :: l.
Proof.
  destruct l as [|y l]; simpl; [reflexivity|]. intros H.
  assert (E : (key y <? key x)%N = true) by (apply N.ltb_lt, H; now left).
  now rewrite E.
Qed.

(** X4.  A send, then a fetch, with no fault pending; the stored messages
    are older than now.  The send is answered 200.  A fetch of the first
    page by the sender, asking for the recipient, or by the recipient, asking
    for the sender, each under the identifier the send used, is answered 200
    for the same conversation, and the last message of its page is the one
    that was sent: same identifier, same conversation, same creation time,
    read by its sender only. *)
Theorem POST_then_GET_messages me toUserIdField textField fetcher userIdParam limitParam
    sender to fo u w :
  let toUserId := JS.trim (JS.orEmpty toUserIdField) in
  let text := JS.slice0 2000 (sanitizeMessage (JS.orEmpty textField)) in
  JS.falsy me = false -> parseOid me = Some sender ->
  JS.falsy toUserId = false -> parseOid toUserId = Some to ->
  JS.falsy text = false ->
  faults w = [] ->
  List.find (userHasId to) (users w) = Some u ->
  (forall m, In m (messages w) -> (Message.createdAt m < clock w)%N) ->
  (fetcher = me /\ JS.trim (JS.orEmpty userIdParam) = toUserId)
  \/ (fetcher = toUserId /\ JS.trim (JS.orEmpty userIdParam) = me) ->
  parseOid fetcher = Some fo ->
  Nat.min (default 30 limitParam) 100 <> 0 ->
  exists sentView w1 views next w2 fetched,
    POST_messages (Some me) toUserIdField textField w
    = (Ok (json 200 (BMessage sentView)), w1)
    /\ GET_messages (Some fetcher) userIdParam None limitParam w1
       = (Ok (json 200 (BMessages (mv_conversationId sentView) views next)), w2)
    /\ last views = Some fetched
    /\ mv_id fetched = mv_id sentView
    /\ mv_conversationId fetched = mv_conversationId sentView
    /\ mv_createdAt fetched = mv_createdAt sentView
    /\ mv_readBy fetched = [oidStr sender].
Proof.
  intros toUserId text Hme0 Hme Hto0 Hto Ht Hf Hu Hold Hwho Hfo Hlimit.
  destruct (POST_messages_run me toUserIdField textField sender to u w
              Hme Hto0 Hto Ht Hf Hu)
    as (conv & w0 & _ & Hf0 & Hm0 & Hfirst & Hpost).
  cbv zeta in Hpost. fold toUserId in Hpost, Hfirst. fold text in Hpost.
  set (message := Message.mk (oidSeed w0) (Conversation._id conv) sender to
                             (JS.trim text) [sender] [] false None (clock w)) in *.
  set (w1 := with_outbox _ _) in Hpost.
  assert (Hf1 : faults w1 = []) by exact Hf0.
  assert (Hm1 : messages w1 = messages w ++ [message]).
  { unfold w1. fields. now rewrite Hm0. }
  (* the conversation of the pair is still the first of its key *)
  assert (Hkey : buildParticipantKey fetcher (JS.trim (JS.orEmpty userIdParam))
                 = buildParticipantKey me toUserId).
  { destruct Hwho as [[-> ->]|[-> ->]];
      [reflexivity | apply buildParticipantKey_sym]. }
  assert (Hfind1 : exists c1,
             List.find (convHasKey (buildParticipantKey fetcher
                                      (JS.trim (JS.orEmpty userIdParam))))
                       (conversations w1) = Some c1
             /\ Conversation._id c1 = Conversation._id conv).
  { rewrite Hkey. unfold w1. fields.
    pose proof (find_updateFirst_id
                  (convHasKey (buildParticipantKey me toUserId))
                  (convHasId (Conversation._id conv))
                  (setConvPreview text (clock w)) (conversations w0)
                  (fun c => eq_refl) (fun c => eq_refl)) as E.
    rewrite Hfirst in E.
    destruct (List.find _ (updateFirst _ _ _)) as [c1|]; [|discriminate].
    exists c1. split; [reflexivity|]. now injection E. }
  destruct Hfind1 as (c1 & Hfind1 & Hid1).
  assert (Hparam : JS.falsy (JS.trim (JS.orEmpty userIdParam)) = false
                   /\ isValid (JS.trim (JS.orEmpty userIdParam)) = true).
  { destruct Hwho as [[_ ->]|[_ ->]]; split; auto;
      eapply isValid_parse; eassumption. }
  destruct Hparam as [Hp0 Hpv].
  destruct (GET_messages_run fetcher userIdParam None limitParam fo w1
              Hp0 Hpv Hfo Hf1) as (conv2 & w2 & Hg & _ & Hget).
  destruct (getOrCreate_existing _ _ _ _ _ Hf1 Hfo Hfind1) as (conv2' & w2' & Hg' & Hid2).
  rewrite Hg in Hg'. injection Hg' as <- <-.
  rewrite Hid2, Hid1 in Hget.
  (* the page ends with the message *)
  set (limit := Nat.min (default 30 limitParam) 100) in *.
  assert (Hpage : exists older,
             rev (historyPage (Conversation._id conv) fo None limit (messages w1))
             = older ++ [message]).
  { assert (Hin : inHistory (Conversation._id conv) fo None message = true).
    { unfold inHistory, message. simpl. now rewrite N.eqb_refl. }
    unfold historyPage. rewrite Hm1, List.filter_app.
    cbn [List.filter]. rewrite Hin, sortDesc_snoc, insertDesc_newest.
    - unfold limitTo. destruct limit as [|n]; [congruence|].
      cbn [Nat.eqb firstn rev]. eexists. reflexivity.
    - intros y Hy. apply In_sortDesc_iff, filter_In in Hy as [Hy _].
      exact (Hold y Hy). }
  destruct Hpage as (older & Hpage).
  unfold historyAnswer in Hget. cbv zeta in Hget.
  rewrite (cursorOf_limit _ _ _ Hlimit), Hpage in Hget.
  eexists _, w1, _, _, w2, (messageView message).
  split; [exact Hpost|]. split; [exact Hget|].
  split; [rewrite List.map_app; apply last_snoc|].
  repeat split.
Qed.

(* ------------------------------------------------------------------- *)
(** *** Delete for everyone, of a conversation *)

(** X5.  A delete of a conversation by an authenticated caller, with a
    well-formed identifier and no fault pending.  The conversation is looked
    up among those the caller takes part in before the mode is read: when
    there is none of that identifier the answer is 404 whatever the mode, and
    nothing changes.  When there is one, a mode other than "me" and
    "everyone" is answered 400 and nothing changes; the mode "everyone", which
    is the default, is answered 200, removes the conversation and every
    message of it, keeps the other messages in their order, and posts no
    event. *)
Theorem DELETE_conversations_everyone me conversationIdField modeField cid mo w :
  let conversationId := JS.trim (JS.orEmpty conversationIdField) in
  let mode := JS.toLowerCase (JS.trim (default "everyone" modeField)) in
  let mine := fun c => convHasId cid c && oidIn mo (Conversation.participants c) in
  JS.falsy conversationId = false ->
  parseOid conversationId = Some cid -> parseOid me = Some mo ->
  faults w = [] ->
  (List.find mine (conversations w) = None ->
     DELETE_conversations (Some me) conversationIdField modeField w
     = (Ok (json 404 (BError "Conversation not found.")), w))
  /\ (forall c, List.find mine (conversations w) = Some c ->
        mode <> "me" -> mode <> "everyone" ->
        DELETE_conversations (Some me) conversationIdField modeField w
        = (Ok (json 400 (BError "mode must be 'me' or 'everyone'.")), w))
  /\ (forall c, List.find mine (conversations w) = Some c ->
        mode = "everyone" ->
        exists w',
          DELETE_conversations (Some me) conversationIdField modeField w
          = (Ok (json 200 (BConversationDeleted conversationId "everyone")), w')
          /\ conversations w' = removeFirst (convHasId cid) (conversations w)
          /\ messages w'
             = List.filter (fun m => negb (Message.conversationId m =? cid)%N) (messages w)
          /\ (forall m, In m (messages w') -> Message.conversationId m <> cid)
          /\ users w' = users w
          /\ outbox w' = outbox w).
Proof.
  intros conversationId mode mine Hne Hcid Hme Hf.
  unfold DELETE_conversations. fold conversationId. fold mode.
  rewrite Hne, (isValid_parse _ _ Hcid). cbn [orb negb].
  unfold newObjectId, Conversation_findOne. rewrite Hcid, Hme. unfold_m.
  rewrite (store_ok _ Hf). fold mine.
  split; [intros ->; reflexivity|]. split.
  - intros c -> Hm He.
    apply String.eqb_neq in Hm, He. now rewrite Hm, He.
  - intros c Hfind ->. rewrite Hfind. cbn [String.eqb Ascii.eqb Bool.eqb negb andb].
    unfold Message_deleteMany, Conversation_deleteOne. unfold_m.
    rewrite (store_ok _ Hf).
    rewrite (store_ok _ (Hf : faults (with_messages _ w) = [])).
    assert (Hid : Conversation._id c = cid).
    { apply List.find_some in Hfind as [_ H]. unfold mine in H.
      apply andb_true_iff in H as [H _]. now apply N.eqb_eq in H. }
    rewrite Hid. eexists. split; [reflexivity|]. fields.
    repeat split.
    intros m Hin. apply filter_In in Hin as [_ H].
    apply negb_true_iff, N.eqb_neq in H. exact H.
Qed.

(* ------------------------------------------------------------------- *)
(** *** What a mark-read writes *)

Lemma updateAll_marked cid me l :
  List.NoDup (List.map Message._id l) ->
  updateAll (fun m => oidIn (Message._id m)
                        (List.map Message._id (List.filter (unreadBy cid me) l)))
            (fun m => setMsgReadBy (addToSet me (Message.readBy m)) m) l
  = List.map (markedRead cid me) l.
Proof.
  intros Hnd. unfold updateAll. apply List.map_ext_in. intros m Hm.
  unfold markedRead. destruct (unreadBy cid me m) eqn:Hu.
  - assert (Hin : oidIn (Message._id m)
                    (List.map Message._id (List.filter (unreadBy cid me) l)) = true).
    { apply oidIn_In, List.in_map, filter_In. auto. }
    rewrite Hin. unfold addToSet.
    unfold unreadBy in Hu. apply andb_true_iff in Hu as [Hu _].
    apply andb_true_iff in Hu as [_ Hr]. apply negb_true_iff in Hr. now rewrite Hr.
  - destruct (oidIn (Message._id m) _) eqn:Hin; [|reflexivity].
    apply oidIn_In, List.in_map_iff in Hin as (m' & Hid & Hm').
    apply filter_In in Hm' as [Hm' Hu'].
    rewrite (NoDup_msg_id_eq l m' m Hnd Hm' Hm Hid) in Hu'. congruence.
Qed.

(** X6.  What a mark-read writes, whatever the store does; identifiers name
    one message each.  It writes no user and no conversation, and the stored
    messages are either all left as they were or marked: each message of the
    conversation that is addressed to the caller, unread by the caller and
    not hidden for them gets the caller as its last reader, and no other
    message and no other field changes.  An event is posted only together
    with the marking, and the answer 200 with a count other than zero is
    given only then. *)
Theorem POST_messages_read_writes me conversationIdField cid mo w r w' :
  let conversationId := JS.trim (JS.orEmpty conversationIdField) in
  parseOid conversationId = Some cid -> parseOid me = Some mo ->
  List.NoDup (List.map Message._id (messages w)) ->
  POST_messages_read (Some me) conversationIdField w = (r, w') ->
  users w' = users w /\ conversations w' = conversations w
  /\ ((messages w' = messages w /\ outbox w' = outbox w
       /\ forall n, r = Ok (json 200 (BUpdated n)) -> n = 0)
      \/ (messages w' = List.map (markedRead cid mo) (messages w)
          /\ exists event,
               outbox w' = outbox w ++ [("message:read", event)]
               /\ field "readerId" event = Some (JStr me)
               /\ field "messageIds" event
                  = Some (JArr (List.map (fun m => oidStr (Message._id m))
                                  (List.filter (unreadBy cid mo) (messages w))))
               /\ r = Ok (json 200 (BUpdated
                            (length (List.filter (unreadBy cid mo) (messages w))))))).
Proof.
  intros conversationId Hcid Hme Hnd. unfold POST_messages_read. fold conversationId.
  destruct (JS.falsy conversationId || negb (isValid conversationId));
    [intros [= <- <-]; repeat split; left; repeat split; intros n [=]|].
  unfold newObjectId, Message_find, Message_updateMany, emitRealtimeEvent.
  rewrite Hcid, Hme. unfold_m.
  destruct (store w) as [r0 w0] eqn:Hs0.
  apply store_inv in Hs0 as ((Hu0 & Hc0 & Hm0 & Hk0 & Hd0 & Ho0) & [->| ->] & _);
    [|intros [= <- <-]; repeat split; auto; left; repeat split; auto; intros n [=]].
  destruct (length (List.filter (unreadBy cid mo) (messages w0)) =? 0)%nat eqn:Hn.
  { intros [= <- <-]. repeat split; auto. left. repeat split; auto.
    now intros n [= <-]. }
  destruct (store w0) as [r1 w1] eqn:Hs1.
  apply store_inv in Hs1 as ((Hu1 & Hc1 & Hm1 & Hk1 & Hd1 & Ho1) & [->| ->] & _);
    [|intros [= <- <-]; repeat split; try congruence; left; repeat split;
      try congruence; intros n [=]].
  intros [= <- <-]. fields. repeat split; try congruence. right. split.
  - rewrite Hm1, Hm0. apply updateAll_marked, Hnd.
  - eexists. split; [rewrite Ho1, Ho0; reflexivity|].
    split; [reflexivity|]. rewrite Hm0, List.map_map, length_map. split; reflexivity.
Qed.

(* ------------------------------------------------------------------- *)
(** *** Whom a conversation list names *)

Lemma mapGet_key {A} (g : A -> string) k l x :
  mapGet k (List.map (fun a => (g a, a)) l) = Some x -> In x l /\ g x = k.
Proof.
  induction l as [|y l IH]; simpl; [discriminate|].
  destruct (mapGet k (List.map (fun a => (g a, a)) l)) as [v|].
  - intros [= ->]. destruct (IH eq_refl) as [Hin Hk]. auto.
  - destruct (String.eqb k (g y)) eqn:E; [|discriminate].
    intros [= ->]. apply String.eqb_eq in E. auto.
Qed.

(** X7.  Whom a conversation list names, whatever the store does.  Every
    entry of a list answered with 200 stands for a stored conversation that
    the caller takes part in and has not hidden, and names as the other party
    a participant of it whose identifier is not the caller's and who is a
    stored user.  So no entry names the caller under the identifier of the
    session.  The limit is not zero. *)
Theorem GET_conversations_names_others authUserId me limitParam cursor w r w' items next :
  parseOid authUserId = Some me ->
  Nat.min (default 20 limitParam) 50 <> 0 ->
  GET_conversations (Some authUserId) limitParam cursor w = (r, w') ->
  r = Ok (json 200 (BConversations items next)) ->
  forall item, In item items ->
    ci_userId item <> authUserId
    /\ exists conv other user,
         In conv (conversations w)
         /\ ci_conversationId item = oidStr (Conversation._id conv)
         /\ In me (Conversation.participants conv)
         /\ ~ In me (Conversation.hiddenFor conv)
         /\ In other (Conversation.participants conv)
         /\ oidStr other <> authUserId
         /\ In user (users w)
         /\ oidStr (User._id user) = oidStr other
         /\ ci_userId item = oidStr (User._id user).
Proof.
  intros Hme Hlimit Hrun Hr item Hitem.
  destruct (GET_conversations_any _ _ _ _ _ _ _ Hme Hrun) as [E|E];
    [|rewrite E in Hr; discriminate].
  rewrite Hr in E. unfold conversationList in E.
  destruct (castAll _) as [ids|]; [|discriminate].
  destruct (cursorOf _ _ _) as [nextCursor|]; [|discriminate].
  injection E as -> _.
  apply In_omap in Hitem as (conv & Hconv & Hci).
  apply In_limitTo, In_sortDesc_iff, filter_In in Hconv as [Hconv Hlisted].
  unfold conversationItem in Hci.
  destruct (otherParticipant authUserId conv) as [other|] eqn:Hother; [|discriminate].
  destruct (mapGet _ _) as [user|] eqn:Huser; [|discriminate].
  injection Hci as <-. cbn [ci_userId ci_conversationId].
  apply mapGet_key in Huser as [Huser Hkey].
  apply filter_In in Huser as [Huser _].
  unfold otherParticipant in Hother. apply List.find_some in Hother as [Hin Hne].
  apply negb_true_iff, String.eqb_neq in Hne.
  unfold listedFor in Hlisted. apply andb_true_iff in Hlisted as [Hl _].
  apply andb_true_iff in Hl as [Hpart Hhid].
  split; [now rewrite Hkey|].
  exists conv, other, user. repeat split; auto.
  - now apply oidIn_In.
  - intros Hx. apply oidIn_In in Hx. rewrite Hx in Hhid. discriminate.
Qed.

(* ------------------------------------------------------------------- *)
(** *** Two conversations of one pair *)

(** X8.  The unique index is on the participant key, which is built from the
    identifiers as they are written.  With no fault pending, when two
    spellings of the second user's identifier give two keys, neither of which
    is stored, a call under each spelling creates a conversation: the store
    then holds two conversations, of different identifiers, with the same two
    participants. *)
Theorem getOrCreateConversation_by_spelling userA userB userB' oa ob w :
  faults w = [] ->
  parseOid userA = Some oa -> parseOid userB = Some ob -> parseOid userB' = Some ob ->
  buildParticipantKey userA userB <> buildParticipantKey userA userB' ->
  List.find (convHasKey (buildParticipantKey userA userB)) (conversations w) = None ->
  List.find (convHasKey (buildParticipantKey userA userB')) (conversations w) = None ->
  exists c1 w1 c2 w2,
    getOrCreateConversation userA userB w = (Ok c1, w1)
    /\ getOrCreateConversation userA userB' w1 = (Ok c2, w2)
    /\ conversations w2 = conversations w ++ [c1; c2]
    /\ Conversation.participants c1 = [oa; ob]
    /\ Conversation.participants c2 = [oa; ob]
    /\ Conversation._id c1 <> Conversation._id c2.
Proof.
  intros Hf Ha Hb Hb' Hkeys Hnone Hnone'.
  pose proof (getOrCreate_creates _ _ _ _ _ Hf Ha Hb Hnone) as Hrun1.
  cbv zeta in Hrun1.
  set (c1 := Conversation.mk (oidSeed w) [oa; ob] (buildParticipantKey userA userB)
                             [] "" (clock w)) in *.
  set (w1 := with_conversations (fun l => l ++ [c1]) (with_oidSeed N.succ w)) in *.
  assert (Hnone1 : List.find (convHasKey (buildParticipantKey userA userB'))
                             (conversations w1) = None).
  { unfold w1. fields. rewrite (find_snoc _ _ _ Hnone').
    unfold convHasKey, c1. cbn [Conversation.participantKey].
    apply String.eqb_neq in Hkeys. now rewrite Hkeys. }
  pose proof (getOrCreate_creates userA userB' oa ob w1 Hf Ha Hb' Hnone1) as Hrun2.
  cbv zeta in Hrun2.
  eexists c1, w1, _, _. split; [exact Hrun1|]. split; [exact Hrun2|].
  unfold w1. fields. rewrite <- List.app_assoc.
  repeat split. cbn [Conversation._id c1]. unfold c1. cbn [Conversation._id]. lia.
Qed.

(* ------------------------------------------------------------------- *)
(** *** What every run preserves *)

Lemma preserves_ret {A} P (a : A) : preserves P (ret a).
Proof. intros w r w' H [= <- <-]. exact H. Qed.

Lemma preserves_throw {A} P e : preserves P (@throw A e).
Proof. intros w r w' H [= <- <-]. exact H. Qed.

Lemma preserves_gets {A} P (f : World -> A) : preserves P (gets f).
Proof. intros w r w' H [= <- <-]. exact H. Qed.

Lemma preserves_bind {A B} P (c : M A) (k : A -> M B) :
  preserves P c -> (forall a, preserves P (k a)) -> preserves P (bind c k).
Proof.
  intros Hc Hk w r w' H. unfold bind.
  destruct (c w) as [[a|e] w1] eqn:E.
  - intros Hrun. exact (Hk a w1 r w' (Hc w _ w1 H E) Hrun).
  - intros [= <- <-]. exact (Hc w _ w1 H E).
Qed.

Lemma preserves_store P : faultBlind P -> preserves P store.
Proof.
  intros Hb w r w' H. unfold store.
  destruct (faults w) as [|[] fs]; intros [= <- <-]; auto.
Qed.

Lemma preserves_modify P f : (forall w, P w -> P (f w)) -> preserves P (modify f).
Proof. intros Hf w r w' H [= <- <-]. auto. Qed.

Lemma preserves_newObjectId P s : preserves P (newObjectId s).
Proof.
  unfold newObjectId. destruct (parseOid s); [apply preserves_ret | apply preserves_throw].
Qed.

Lemma preserves_mapM {A B} P (f : A -> M B) l :
  (forall x, preserves P (f x)) -> preserves P (mapM f l).
Proof.
  intros Hf. induction l as [|x l IH]; simpl; [apply preserves_ret|].
  apply preserves_bind; [apply Hf|]. intros y.
  apply preserves_bind; [exact IH|]. intros ys. apply preserves_ret.
Qed.

(** A property that every handler preserves holds after any sequence of
    requests. *)
Lemma preserves_serve P qs :
  (forall q, preserves P (handle q)) -> forall w, P w -> P (serve qs w).
Proof.
  intros Hq. unfold serve. induction qs as [|q qs IH]; simpl; intros w H; [exact H|].
  apply IH. destruct (handle q w) as [r w'] eqn:E. exact (Hq q w r w' H E).
Qed.

(** **** The store stays sound *)

Lemma map_updateFirst_keep {A B} (g : A -> B) (p : A -> bool) f l :
  (forall x, g (f x) = g x) -> List.map g (updateFirst p f l) = List.map g l.
Proof.
  intros Hg. induction l as [|x l IH]; simpl; [reflexivity|].
  destruct (p x); simpl; [now rewrite Hg | now rewrite IH].
Qed.

Lemma map_updateAll_keep {A B} (g : A -> B) (p : A -> bool) f l :
  (forall x, g (f x) = g x) -> List.map g (updateAll p f l) = List.map g l.
Proof.
  intros Hg. unfold updateAll. rewrite List.map_map. apply List.map_ext.
  intros x. destruct (p x); [apply Hg | reflexivity].
Qed.

Lemma In_removeFirst {A} (p : A -> bool) x l : In x (removeFirst p l) -> In x l.
Proof.
  induction l as [|y l IH]; simpl; [auto|].
  destruct (p y); simpl; [auto|]. intros [->|H]; auto.
Qed.

Lemma NoDup_map_removeFirst {A B} (g : A -> B) (p : A -> bool) l :
  List.NoDup (List.map g l) -> List.NoDup (List.map g (removeFirst p l)).
Proof.
  induction l as [|y l IH]; simpl; [auto|].
  intros H. apply List.NoDup_cons_iff in H as [Hy Hl].
  destruct (p y); simpl; [exact Hl|].
  constructor; [|exact (IH Hl)].
  intros Hin. apply Hy. apply List.in_map_iff in Hin as (x & <- & Hx).
  apply List.in_map. exact (In_removeFirst _ _ _ Hx).
Qed.

Lemma NoDup_map_filter {A B} (g : A -> B) (p : A -> bool) l :
  List.NoDup (List.map g l) -> List.NoDup (List.map g (List.filter p l)).
Proof.
  induction l as [|y l IH]; simpl; [auto|].
  intros H. apply List.NoDup_cons_iff in H as [Hy Hl].
  destruct (p y); simpl; [|exact (IH Hl)].
  constructor; [|exact (IH Hl)].
  intros Hin. apply Hy. apply List.in_map_iff in Hin as (x & <- & Hx).
  apply List.in_map. now apply filter_In in Hx as [Hx _].
Qed.

Lemma NoDup_map_snoc {A B} (g : A -> B) l x :
  List.NoDup (List.map g l) -> ~ In (g x) (List.map g l) ->
  List.NoDup (List.map g (l ++ [x])).
Proof.
  induction l as [|y l IH]; simpl; intros Hl Hx.
  - constructor; [intros []|constructor].
  - apply List.NoDup_cons_iff in Hl as [Hy Hl]. constructor.
    + rewrite List.map_app. intros Hin. apply in_app_or in Hin as [Hin|[E|[]]].
      * exact (Hy Hin).
      * apply Hx. left. now symmetry.
    + apply IH; [exact Hl|]. intros Hin. apply Hx. now right.
Qed.

Lemma In_updateAll {A} (p : A -> bool) f x l :
  In x (updateAll p f l) -> In x l \/ exists y, In y l /\ p y = true /\ x = f y.
Proof.
  unfold updateAll. intros H. apply List.in_map_iff in H as (y & <- & Hy).
  destruct (p y) eqn:E; [right; exists y; auto | auto].
Qed.

Lemma wellStored_faultBlind : faultBlind wellStored.
Proof. intros w fs H. exact H. Qed.

Lemma wellStored_conversations_updateFirst p f w :
  (forall c, Conversation._id (f c) = Conversation._id c) ->
  (forall c, Conversation.participantKey (f c) = Conversation.participantKey c) ->
  (forall c, Conversation.participants (f c) = Conversation.participants c) ->
  wellStored w -> wellStored (with_conversations (updateFirst p f) w).
Proof.
  intros Hid Hkey Hps (H1 & H2 & H3 & H4 & H5). unfold wellStored. fields.
  rewrite (map_updateFirst_keep _ _ _ _ Hid), (map_updateFirst_keep _ _ _ _ Hkey).
  split; [exact H1|]. split; [exact H2|]. split; [exact H3|]. split; [|exact H5].
  intros c Hc. apply In_updateFirst in Hc as [Hc|(y & Hy & _ & ->)];
    rewrite ?Hps, ?Hid; now apply H4.
Qed.

Lemma wellStored_conversations_removeFirst p w :
  wellStored w -> wellStored (with_conversations (removeFirst p) w).
Proof.
  intros (H1 & H2 & H3 & H4 & H5). unfold wellStored. fields.
  split; [now apply NoDup_map_removeFirst|].
  split; [now apply NoDup_map_removeFirst|]. split; [exact H3|]. split; [|exact H5].
  intros c Hc. apply In_removeFirst in Hc. now apply H4.
Qed.

Lemma wellStored_messages_updateFirst p f w :
  (forall m, Message._id (f m) = Message._id m) ->
  wellStored w -> wellStored (with_messages (updateFirst p f) w).
Proof.
  intros Hid (H1 & H2 & H3 & H4 & H5). unfold wellStored. fields.
  rewrite (map_updateFirst_keep _ _ _ _ Hid).
  split; [exact H1|]. split; [exact H2|]. split; [exact H3|]. split; [exact H4|].
  intros m Hm. apply In_updateFirst in Hm as [Hm|(y & Hy & _ & ->)];
    rewrite ?Hid; now apply H5.
Qed.

Lemma wellStored_messages_updateAll p f w :
  (forall m, Message._id (f m) = Message._id m) ->
  wellStored w -> wellStored (with_messages (updateAll p f) w).
Proof.
  intros Hid (H1 & H2 & H3 & H4 & H5). unfold wellStored. fields.
  rewrite (map_updateAll_keep _ _ _ _ Hid).
  split; [exact H1|]. split; [exact H2|]. split; [exact H3|]. split; [exact H4|].
  intros m Hm. apply In_updateAll in Hm as [Hm|(y & Hy & _ & ->)];
    rewrite ?Hid; now apply H5.
Qed.

Lemma wellStored_messages_filter p w :
  wellStored w -> wellStored (with_messages (List.filter p) w).
Proof.
  intros (H1 & H2 & H3 & H4 & H5). unfold wellStored. fields.
  split; [exact H1|]. split; [exact H2|]. split; [now apply NoDup_map_filter|].
  split; [exact H4|].
  intros m Hm. apply filter_In in Hm as [Hm _]. now apply H5.
Qed.

Lemma Conversation_create_wellStored ps key hidden at_ txt :
  preserves wellStored (Conversation_create ps key hidden at_ txt).
Proof.
  intros w r w' Hw. unfold Conversation_create.
  destruct (length ps =? 2)%nat eqn:Hlen; cbn [negb]; [|now intros [= <- <-]].
  apply Nat.eqb_eq in Hlen. unfold_m.
  destruct (store w) as [r0 w0] eqn:Hs0.
  pose proof (preserves_store _ wellStored_faultBlind _ _ _ Hw Hs0) as Hw0.
  destruct r0 as [[]|e]; [|now intros [= <- <-]].
  destruct (existsb (convHasKey key) (conversations w0)) eqn:Hdup;
    [now intros [= <- <-]|].
  intros [= <- <-]. destruct Hw0 as (H1 & H2 & H3 & H4 & H5).
  unfold wellStored. fields.
  split; [|split; [|split; [exact H3|split]]].
  - apply NoDup_map_snoc; [exact H1|]. cbn [Conversation._id].
    intros Hin. apply List.in_map_iff in Hin as (c & Hid & Hc).
    destruct (H4 c Hc) as [_ Hlt]. lia.
  - apply NoDup_map_snoc; [exact H2|]. cbn [Conversation.participantKey].
    intros Hin. apply List.in_map_iff in Hin as (c & Hk & Hc).
    assert (Hex : existsb (convHasKey key) (conversations w0) = true).
    { apply existsb_exists. exists c. split; [exact Hc|].
      unfold convHasKey. rewrite Hk. apply String.eqb_refl. }
    congruence.
  - intros c Hc. apply in_app_or in Hc as [Hc|[<-|[]]].
    + destruct (H4 c Hc) as [Hl Hlt]. split; [exact Hl | lia].
    + cbn [Conversation.participants Conversation._id]. split; [exact Hlen | lia].
  - intros m Hm. specialize (H5 m Hm). lia.
Qed.

Lemma Message_create_wellStored conv sender recipient txt readBy :
  preserves wellStored (Message_create conv sender recipient txt readBy).
Proof.
  intros w r w' Hw. unfold Message_create. unfold_m. rewrite Message_text_run.
  destruct (JS.falsy (JS.trim txt)); [now intros [= <- <-]|].
  destruct (store w) as [r0 w0] eqn:Hs0.
  pose proof (preserves_store _ wellStored_faultBlind _ _ _ Hw Hs0) as Hw0.
  destruct r0 as [[]|e]; [|now intros [= <- <-]].
  intros [= <- <-]. destruct Hw0 as (H1 & H2 & H3 & H4 & H5).
  unfold wellStored. fields.
  split; [exact H1|]. split; [exact H2|]. split; [|split].
  - apply NoDup_map_snoc; [exact H3|]. cbn [Message._id].
    intros Hin. apply List.in_map_iff in Hin as (m & Hid & Hm).
    specialize (H5 m Hm). lia.
  - intros c Hc. destruct (H4 c Hc) as [Hl Hlt]. split; [exact Hl | lia].
  - intros m Hm. apply in_app_or in Hm as [Hm|[<-|[]]]; [|cbn [Message._id]; lia].
    specialize (H5 m Hm). lia.
Qed.

(** Decomposes a goal [preserves P c] along the structure of [c]; [side]
    settles what is asked of [P]. *)
Ltac preserve side :=
  repeat first
    [ apply preserves_ret | apply preserves_throw | apply preserves_gets
    | apply preserves_newObjectId
    | apply preserves_store; solve [side]
    | apply preserves_modify; solve [side]
    | solve [side]
    | apply preserves_mapM; intros ?
    | apply preserves_bind; [|intros ?]
    | match goal with
      | |- preserves _ (if ?b then _ else _) => destruct b
      | |- preserves _ (match ?x with _ => _ end) => destruct x
      end ].

Ltac sound :=
  first
    [ exact wellStored_faultBlind
    | apply Conversation_create_wellStored
    | apply Message_create_wellStored
    | intros ? ?; first
        [ assumption
        | apply wellStored_conversations_updateFirst; [reflexivity.. | assumption]
        | apply wellStored_conversations_removeFirst; assumption
        | apply wellStored_messages_updateFirst; [reflexivity | assumption]
        | apply wellStored_messages_updateAll; [reflexivity | assumption]
        | apply wellStored_messages_filter; assumption ] ].

Lemma getOrCreate_wellStored userA userB :
  preserves wellStored (getOrCreateConversation userA userB).
Proof.
  unfold getOrCreateConversation, Conversation_findOne, Conversation_save, newDate.
  cbv zeta. preserve sound.
Qed.

Lemma handle_wellStored q : preserves wellStored (handle q).
Proof.
  destruct q; unfold handle.
  - unfold GET_messages, Message_findPage, cursorAfter. cbv zeta.
    preserve ltac:(first [apply getOrCreate_wellStored | sound]).
  - unfold POST_messages, User_findById, Conversation_save, emitRealtimeEvent, newDate.
    cbv zeta. preserve ltac:(first [apply getOrCreate_wellStored | sound]).
  - unfold DELETE_messages, Message_findById, Message_saveText, Message_text,
      Message_save, Message_findLatest,
      Conversation_findById, Conversation_findOne, Conversation_save,
      emitRealtimeEvent, newDate.
    cbv zeta. preserve sound.
  - unfold POST_messages_read, Message_find, Message_updateMany, emitRealtimeEvent.
    cbv zeta. preserve sound.
  - unfold GET_conversations, Conversation_find, User_findIn, Message_findLatest,
      cursorAfter.
    cbv zeta. preserve sound.
  - unfold DELETE_conversations, Conversation_findOne, Conversation_save,
      Message_updateMany, Message_deleteMany, Conversation_deleteOne.
    cbv zeta. preserve sound.
Qed.

Lemma keyCount_NoDup key w :
  List.NoDup (List.map Conversation.participantKey (conversations w)) ->
  keyCount key w <= 1.
Proof.
  unfold keyCount. induction (conversations w) as [|c l IH]; simpl; [lia|].
  intros H. apply List.NoDup_cons_iff in H as [Hc Hl]. specialize (IH Hl).
  destruct (convHasKey key c) eqn:E; [|exact IH]. simpl.
  apply convHasKey_eq in E.
  rewrite (filter_none (convHasKey key) l); [simpl; lia|].
  intros x Hx. destruct (convHasKey key x) eqn:Ex; [|reflexivity].
  apply convHasKey_eq in Ex. exfalso. apply Hc. rewrite E, <- Ex.
  now apply List.in_map.
Qed.

(** X9.  The store stays sound.  Whatever requests are handled, one after
    the other, and whatever the store does meanwhile, a store that is sound
    stays sound: identifiers still name one conversation and one message,
    every conversation still has exactly two participants, and no two
    conversations share a participant key.  The same holds of each single
    request, whatever it is answered. *)
Theorem serve_keeps_wellStored qs w :
  wellStored w ->
  wellStored (serve qs w)
  /\ (forall key, keyCount key (serve qs w) <= 1)
  /\ (forall q r w', handle q w = (r, w') -> wellStored w').
Proof.
  intros Hw.
  pose proof (preserves_serve wellStored qs handle_wellStored w Hw) as Hs.
  split; [exact Hs|]. split.
  - intros key. apply keyCount_NoDup. now destruct Hs as (_ & H & _).
  - intros q r w' Hrun. exact (handle_wellStored q w r w' Hw Hrun).
Qed.

(** **** The history of the messages *)

Lemma keeps_refl m : keeps m m.
Proof. unfold keeps. repeat split; auto. Qed.

Lemma keeps_trans m1 m2 m3 : keeps m1 m2 -> keeps m2 m3 -> keeps m1 m3.
Proof.
  intros (A1 & A2 & A3 & A4 & A5 & A6 & A7) (B1 & B2 & B3 & B4 & B5 & B6 & B7).
  unfold keeps. repeat split; try congruence; auto.
Qed.

Lemma historyOf_refl w : historyOf w w.
Proof.
  unfold historyOf. repeat split; try reflexivity.
  - exists []. now rewrite List.app_nil_r.
  - intros m Hm. left. exists m. split; [exact Hm | apply keeps_refl].
Qed.

Lemma historyOf_faultBlind w0 : faultBlind (historyOf w0).
Proof. intros w fs H. exact H. Qed.

Lemma historyOf_outbox w0 e w :
  historyOf w0 w -> historyOf w0 (with_outbox (fun l => l ++ [e]) w).
Proof.
  intros (H1 & H2 & H3 & H4 & H5 & H6 & H7 & (posted & H8) & H9).
  unfold historyOf. fields. repeat split; auto.
  exists (posted ++ [e]). rewrite H8. now rewrite List.app_assoc.
Qed.

Lemma historyOf_conversations w0 f w :
  historyOf w0 w -> historyOf w0 (with_conversations f w).
Proof. intros H. exact H. Qed.

(** The messages may be rewritten in any way that keeps each of them. *)
Lemma historyOf_messages w0 g w :
  (forall m', In m' (g (messages w)) ->
     exists m, In m (messages w) /\ keeps m m') ->
  historyOf w0 w -> historyOf w0 (with_messages g w).
Proof.
  intros Hg (H1 & H2 & H3 & H4 & H5 & H6 & H7 & H8 & H9).
  unfold historyOf. fields. repeat split; auto.
  intros m' Hm'. destruct (Hg m' Hm') as (m & Hm & Hk).
  destruct (H9 m Hm) as [(m0 & Hm0 & Hk0)|Hnew].
  - left. exists m0. split; [exact Hm0 | exact (keeps_trans _ _ _ Hk0 Hk)].
  - right. destruct Hk as (-> & _). exact Hnew.
Qed.

Lemma historyOf_messages_updateAll w0 p f w :
  (forall m, keeps m (f m)) ->
  historyOf w0 w -> historyOf w0 (with_messages (updateAll p f) w).
Proof.
  intros Hf. apply historyOf_messages. intros m' Hm'.
  apply In_updateAll in Hm' as [Hm'|(y & Hy & _ & ->)].
  - exists m'. split; [exact Hm' | apply keeps_refl].
  - exists y. split; [exact Hy | apply Hf].
Qed.

Lemma historyOf_messages_updateFirst w0 p f w :
  (forall m, List.find p (messages w) = Some m -> keeps m (f m)) ->
  historyOf w0 w -> historyOf w0 (with_messages (updateFirst p f) w).
Proof.
  intros Hf. apply historyOf_messages. revert Hf.
  induction (messages w) as [|x l IH]; simpl; intros Hf m' Hm'; [destruct Hm'|].
  destruct (p x) eqn:Hp.
  - destruct Hm' as [<-|Hm'].
    + exists x. split; [now left | now apply Hf].
    + exists m'. split; [now right | apply keeps_refl].
  - destruct Hm' as [<-|Hm'].
    + exists x. split; [now left | apply keeps_refl].
    + destruct (IH Hf m' Hm') as (m & Hm & Hk). exists m. split; [now right | exact Hk].
Qed.

Lemma historyOf_messages_filter w0 p w :
  historyOf w0 w -> historyOf w0 (with_messages (List.filter p) w).
Proof.
  apply historyOf_messages. intros m' Hm'. apply filter_In in Hm' as [Hm' _].
  exists m'. split; [exact Hm' | apply keeps_refl].
Qed.

Lemma Conversation_create_history w0 ps key hidden at_ txt :
  preserves (historyOf w0) (Conversation_create ps key hidden at_ txt).
Proof.
  intros w r w' Hw. unfold Conversation_create.
  destruct (negb _); [now intros [= <- <-]|]. unfold_m.
  destruct (store w) as [r0 w0'] eqn:Hs0.
  pose proof (preserves_store _ (historyOf_faultBlind w0) _ _ _ Hw Hs0) as Hw0.
  destruct r0 as [[]|e]; [|now intros [= <- <-]].
  destruct (existsb _ _); intros [= <- <-]; [exact Hw0|].
  destruct Hw0 as (H1 & H2 & H3 & H4 & H5 & H6 & H7 & H8 & H9).
  unfold historyOf. fields. repeat split; auto. lia.
Qed.

Lemma Message_create_history w0 conv sender recipient txt readBy :
  preserves (historyOf w0) (Message_create conv sender recipient txt readBy).
Proof.
  intros w r w' Hw. unfold Message_create. unfold_m. rewrite Message_text_run.
  destruct (JS.falsy (JS.trim txt)); [now intros [= <- <-]|].
  destruct (store w) as [r0 w0'] eqn:Hs0.
  pose proof (preserves_store _ (historyOf_faultBlind w0) _ _ _ Hw Hs0) as Hw0.
  destruct r0 as [[]|e]; intros [= <- <-]; [|exact Hw0].
  destruct Hw0 as (H1 & H2 & H3 & H4 & H5 & H6 & H7 & H8 & H9).
  unfold historyOf. fields. repeat split; auto; [lia|].
  intros m' Hm'. apply in_app_or in Hm' as [Hm'|[<-|[]]]; [now apply H9|].
  right. exact H1.
Qed.

Ltac history :=
  first
    [ exact (historyOf_faultBlind _)
    | apply Conversation_create_history
    | apply Message_create_history
    | intros ? ?; first
        [ assumption
        | apply historyOf_outbox; assumption
        | apply historyOf_messages_updateAll;
            [intros ?; unfold keeps, addToSet; cbn;
             repeat split; auto;
             intros ? ?; destruct (oidIn _ _); auto using in_or_app
            | assumption]
        | apply historyOf_messages_updateFirst;
            [intros ? _; unfold keeps; cbn; repeat split; auto | assumption]
        | apply historyOf_messages_filter; assumption ] ].

Lemma getOrCreate_history w0 userA userB :
  preserves (historyOf w0) (getOrCreateConversation userA userB).
Proof.
  unfold getOrCreateConversation, Conversation_findOne, Conversation_save, newDate.
  cbv zeta. preserve history.
Qed.

(** The hiding of a message for its requester: the document written is the
    one that was found, with the requester added. *)
Lemma hide_for_me_history w0 mid message requester w r w' :
  historyOf w0 w ->
  List.find (msgHasId mid) (messages w) = Some message ->
  (if negb (oidIn requester (Message.hiddenFor message))
   then Message_save (Message._id message)
          (setMsgHiddenFor (Message.hiddenFor message ++ [requester]))
   else ret tt) w = (r, w') ->
  historyOf w0 w'.
Proof.
  intros Hw Hfind. destruct (negb _); [|now intros [= <- <-]].
  unfold Message_save. unfold_m.
  destruct (store w) as [r0 w1] eqn:Hs0.
  pose proof (preserves_store _ (historyOf_faultBlind w0) _ _ _ Hw Hs0) as Hw1.
  apply store_inv in Hs0 as ((_ & _ & Hm1 & _) & [->| ->] & _);
    [|now intros [= <- <-]].
  destruct (existsb _ _); intros [= <- <-]; [|exact Hw1].
  apply historyOf_messages_updateFirst; [|exact Hw1].
  intros m Hm. rewrite (find_msg_id _ _ _ Hfind), Hm1, Hfind in Hm.
  injection Hm as <-. unfold keeps. cbn. repeat split; auto using in_or_app.
Qed.

Lemma DELETE_messages_history w0 auth messageIdField modeField :
  preserves (historyOf w0) (DELETE_messages auth messageIdField modeField).
Proof.
  unfold DELETE_messages. destruct auth as [authUserId|]; [|apply preserves_ret].
  cbv zeta.
  destruct (JS.falsy _ || negb (isValid _)); [apply preserves_ret|].
  destruct (negb _ && negb _); [apply preserves_ret|].
  apply preserves_bind; [apply preserves_newObjectId|]. intros mid.
  intros w r w' Hw. unfold bind at 1. unfold Message_findById.
  unfold bind at 1. unfold gets.
  destruct (store w) as [r0 w1] eqn:Hs0.
  pose proof (preserves_store _ (historyOf_faultBlind w0) _ _ _ Hw Hs0) as Hw1.
  destruct r0 as [[]|e]; [|now intros [= <- <-]].
  destruct (List.find (msgHasId mid) (messages w1)) as [message|] eqn:Hfind;
    [|now intros [= <- <-]].
  unfold bind at 1. unfold newObjectId at 1.
  destruct (parseOid authUserId) as [requesterId|]; [|now intros [= <- <-]].
  unfold ret at 1.
  destruct (negb ((Message.senderId message =? requesterId)%N
                  || (Message.recipientId message =? requesterId)%N));
    [now intros [= <- <-]|].
  destruct ((JS.toLowerCase (JS.trim (default "me" modeField)) =? "everyone")
            && negb (Message.senderId message =? requesterId)%N);
    [now intros [= <- <-]|].
  destruct (JS.toLowerCase (JS.trim (default "me" modeField)) =? "me").
  - unfold bind at 1.
    destruct ((if negb (oidIn requesterId (Message.hiddenFor message))
               then Message_save (Message._id message)
                      (setMsgHiddenFor (Message.hiddenFor message ++ [requesterId]))
               else ret tt) w1) as [r2 w2] eqn:Hhide.
    pose proof (hide_for_me_history _ _ _ _ _ _ _ Hw1 Hfind Hhide) as Hw2.
    destruct r2 as [[]|e]; [|now intros [= <- <-]].
    unfold emitRealtimeEvent. unfold_m. intros [= <- <-].
    now apply historyOf_outbox.
  - intros Hrun.
    match type of Hrun with
    | ?c w1 = _ => refine ((_ : preserves (historyOf w0) c) w1 r w' Hw1 Hrun)
    end.
    unfold Message_saveText, Message_text, Message_save, Message_findLatest,
      Conversation_findById,
      Conversation_findOne, Conversation_save, emitRealtimeEvent, newDate.
    preserve history.
Qed.

Lemma handle_history w0 q : preserves (historyOf w0) (handle q).
Proof.
  destruct q; unfold handle.
  - unfold GET_messages, Message_findPage, cursorAfter. cbv zeta.
    preserve ltac:(first [apply getOrCreate_history | history]).
  - unfold POST_messages, User_findById, Conversation_save, emitRealtimeEvent, newDate.
    cbv zeta. preserve ltac:(first [apply getOrCreate_history | history]).
  - apply DELETE_messages_history.
  - unfold POST_messages_read, Message_find, Message_updateMany, emitRealtimeEvent.
    cbv zeta. preserve history.
  - unfold GET_conversations, Conversation_find, User_findIn, Message_findLatest,
      cursorAfter.
    cbv zeta. preserve history.
  - unfold DELETE_conversations, Conversation_findOne, Conversation_save,
      Message_updateMany, Message_deleteMany, Conversation_deleteOne.
    cbv zeta. preserve history.
Qed.

(** X10.  The history of the messages.  Whatever requests are handled, one
    after the other, and whatever the store does meanwhile: every stored
    message is what has become of a message that was stored before, with the
    same identifier, conversation, sender, recipient and creation time, and
    with nobody taken out of its readers or of those it is hidden for, or it
    was created since; events were only added to those posted; and the users
    and the state of the socket server are as they were.  The same holds of
    each single request, whatever it is answered. *)
Theorem serve_keeps_history qs w :
  historyOf w (serve qs w)
  /\ (forall q r w', handle q w = (r, w') -> historyOf w w').
Proof.
  split.
  - apply (preserves_serve (historyOf w) qs (handle_history w)), historyOf_refl.
  - intros q r w' Hrun. exact (handle_history w q w r w' (historyOf_refl w) Hrun).
Qed.

(** X11.  A message that is hidden for a user stays out of that user's
    pages.  In a sound store, a message is hidden for a user; any requests
    are then handled, by anyone and whatever the store does.  No page of a
    history that the user fetches afterwards, whatever the conversation, the
    cursor and the limit other than zero, carries a message of that
    identifier. *)
Theorem hidden_message_stays_hidden me x message qs w
    userIdParam cursor limitParam r w' conversationId views next :
  wellStored w ->
  parseOid me = Some x ->
  In message (messages w) -> In x (Message.hiddenFor message) ->
  Nat.min (default 30 limitParam) 100 <> 0 ->
  GET_messages (Some me) userIdParam cursor limitParam (serve qs w) = (r, w') ->
  r = Ok (json 200 (BMessages conversationId views next)) ->
  forall view, In view views ->
    exists m, In m (messages (serve qs w)) /\ view = messageView m
              /\ Message._id m <> Message._id message.
Proof.
  intros (_ & _ & Hnd & _ & Hold) Hme Hstored Hhidden Hlimit Hget Hr view Hview.
  destruct (GET_messages_visible _ _ _ _ _ _ _ _ _ _ _ Hme Hget Hr view Hview)
    as (m & Hm & -> & Hvisible).
  exists m. split; [exact Hm|]. split; [reflexivity|]. intros Hid.
  pose proof (preserves_serve (historyOf w) qs (handle_history w) w (historyOf_refl w))
    as (_ & _ & _ & _ & _ & _ & _ & _ & Hhist).
  destruct (Hhist m Hm) as [(m0 & Hm0 & Hk)|Hnew].
  - destruct Hk as (Hk1 & _ & _ & _ & _ & _ & Hk7).
    rewrite (NoDup_msg_id_eq _ m0 message Hnd Hm0 Hstored) in Hk7 by congruence.
    exact (Hvisible (Hk7 x Hhidden)).
  - specialize (Hold message Hstored). lia.
Qed.

(* ------------------------------------------------------------------- *)
(** *** What the socket server leaves alone *)

(** Settles what is asked of a property that does not look at what the
    run writes. *)
Ltac untouched :=
  first [intros ? ? ?; match goal with H : _ |- _ => exact H end
        | intros ? ?; match goal with H : _ |- _ => exact H end].

(** X12.  What the socket server leaves alone, whatever the store does.  No
    handler of the socket server and no request to the ingress of domain
    events writes a conversation, a message or a posted event; the handlers
    of a subscription, of a join, of a typing notice and the ingress write no
    user either; the ingress and the typing notice change no room. *)
Theorem socket_server_leaves_documents w :
  (forall sid userId r w',
     onConnection sid userId w = (r, w') -> sameDocuments w w')
  /\ (forall sid r w', onDisconnect sid w = (r, w') -> sameDocuments w w')
  /\ (forall sid userId targetUserId r w',
        onPresenceSubscribe sid userId targetUserId w = (r, w') ->
        sameDocuments w w' /\ users w' = users w)
  /\ (forall sid targetUserId r w',
        onPresenceUnsubscribe sid targetUserId w = (r, w') ->
        sameDocuments w w' /\ users w' = users w)
  /\ (forall sid conversationId r w',
        onConversationJoin sid conversationId w = (r, w') ->
        sameDocuments w w' /\ users w' = users w)
  /\ (forall userId conversationId toUserId isTyping r w',
        onTypingUpdate userId conversationId toUserId isTyping w = (r, w') ->
        sameDocuments w w' /\ users w' = users w /\ rooms w' = rooms w)
  /\ (forall expectedSecret receivedSecret type payload r w',
        internalRealtime expectedSecret receivedSecret type payload w = (r, w') ->
        sameDocuments w w' /\ users w' = users w /\ rooms w' = rooms w).
Proof.
  assert (Hrefl : sameDocuments w w) by (unfold sameDocuments; auto).
  split; [|split; [|split; [|split; [|split; [|split]]]]].
  - intros sid userId r w'.
    refine ((_ : preserves (sameDocuments w) (onConnection sid userId)) w r w' Hrefl).
    unfold onConnection, leaveAll, join, User_findByIdAndUpdate, emitPresenceUpdate,
      io_to_emit, newDate. cbv zeta. preserve untouched.
  - intros sid r w'.
    refine ((_ : preserves (sameDocuments w) (onDisconnect sid)) w r w' Hrefl).
    unfold onDisconnect, leaveAll, User_findByIdAndUpdate, emitPresenceUpdate,
      io_to_emit, newDate. cbv zeta. preserve untouched.
  - intros sid userId targetUserId r w'.
    refine ((_ : preserves (fun w' => sameDocuments w w' /\ users w' = users w)
                   (onPresenceSubscribe sid userId targetUserId)) w r w' (conj Hrefl eq_refl)).
    unfold onPresenceSubscribe, canWatchPresence, Conversation_exists, join,
      User_findById, socket_emit. cbv zeta. preserve untouched.
  - intros sid targetUserId r w'.
    refine ((_ : preserves (fun w' => sameDocuments w w' /\ users w' = users w)
                   (onPresenceUnsubscribe sid targetUserId)) w r w' (conj Hrefl eq_refl)).
    unfold onPresenceUnsubscribe, leave. cbv zeta. preserve untouched.
  - intros sid conversationId r w'.
    refine ((_ : preserves (fun w' => sameDocuments w w' /\ users w' = users w)
                   (onConversationJoin sid conversationId)) w r w' (conj Hrefl eq_refl)).
    unfold onConversationJoin, join. preserve untouched.
  - intros userId conversationId toUserId isTyping r w'.
    refine ((_ : preserves (fun w' => sameDocuments w w' /\ users w' = users w
                                      /\ rooms w' = rooms w)
                   (onTypingUpdate userId conversationId toUserId isTyping))
              w r w' (conj Hrefl (conj eq_refl eq_refl))).
    unfold onTypingUpdate, io_to_emit. preserve untouched.
  - intros expectedSecret receivedSecret type payload r w'.
    refine ((_ : preserves (fun w' => sameDocuments w w' /\ users w' = users w
                                      /\ rooms w' = rooms w)
                   (internalRealtime expectedSecret receivedSecret type payload))
              w r w' (conj Hrefl (conj eq_refl eq_refl))).
    unfold internalRealtime, io_to_emit. cbv zeta. preserve untouched.
Qed.

(* ------------------------------------------------------------------- *)
(** *** Who watches whose presence *)

(** The presence check writes nothing but the pending faults. *)
Lemma canWatchPresence_frame (P : World -> Prop) watcher target :
  faultBlind P -> preserves P (canWatchPresence watcher target).
Proof.
  intros HP. unfold canWatchPresence, Conversation_exists.
  preserve ltac:(exact HP).
Qed.

Lemma members_insert w w' room s :
  rooms w' = <[room := s]> (rooms w) -> members w' room = s.
Proof. intros H. unfold members. rewrite H, lookup_insert_eq. reflexivity. Qed.

(** X13.  Who watches whose presence.  Whatever the store does, a
    subscription changes the rooms in one way at most: the session is put in
    the watch room of the target, and only after the presence check has
    answered true for the session's user and that target.  When the check
    answers true and no fault is pending the session is in that room
    afterwards, whatever else the handler then does, and each presence event
    of the target hands it a copy.  The end of a subscription takes the
    session, and no other, out of the watch room; it asks nothing. *)
Theorem presence_watch_gate sid userId targetUserId w :
  let target := JS.trim (JS.orEmpty targetUserId) in
  let room := "presence:watch:" +:+ target in
  (forall r w',
     onPresenceSubscribe sid userId targetUserId w = (r, w') ->
     rooms w' = rooms w
     \/ ((exists w1, canWatchPresence userId target w = (Ok true, w1))
         /\ rooms w' = <[room := {[sid]} ∪ members w room]> (rooms w)))
  /\ (target <> "" -> faults w = [] ->
      canWatchPresence userId target w = (Ok true, w) ->
      forall isOnline lastSeen,
        let w' := snd (onPresenceSubscribe sid userId targetUserId w) in
        sid ∈ members w' room
        /\ 1 <= copiesTo sid (emissions w' "presence:update"
                                (presencePayload target isOnline lastSeen)
                                (presenceRoutes target)))
  /\ (exists w',
        onPresenceUnsubscribe sid targetUserId w = (Ok tt, w')
        /\ (target <> "" -> ~ sid ∈ members w' room)
        /\ (forall other, other <> sid ->
              other ∈ members w' room <-> other ∈ members w room)).
Proof.
  intros target room.
  assert (Hsub : forall r w',
            onPresenceSubscribe sid userId targetUserId w = (r, w') ->
            rooms w' = rooms w
            \/ ((exists w1, canWatchPresence userId target w = (Ok true, w1))
                /\ rooms w' = <[room := {[sid]} ∪ members w room]> (rooms w))).
  { intros r w'. unfold onPresenceSubscribe. fold target.
    destruct (JS.falsy target); [intros [= <- <-]; now left|].
    unfold bind at 1.
    destruct (canWatchPresence userId target w) as [[allowed|e] w1] eqn:Hcw.
    2:{ intros [= <- <-]. left.
        exact (canWatchPresence_frame (fun x => rooms x = rooms w) _ _
                 (fun _ _ H => H) w _ _ eq_refl Hcw). }
    pose proof (canWatchPresence_frame (fun x => rooms x = rooms w) _ _
                  (fun _ _ H => H) w _ _ eq_refl Hcw) as Hr1.
    destruct allowed; cbn [negb]; [|intros [= <- <-]; now left].
    unfold bind at 1. unfold join at 1. unfold modify at 1. fold room.
    intros Hrun. right. split; [now exists w1|].
    match type of Hrun with
    | ?c ?w2 = _ => assert (Hp : preserves (fun x => rooms x = rooms w2) c)
    end.
    { unfold User_findById, socket_emit. preserve untouched. }
    rewrite (Hp _ _ _ eq_refl Hrun). fields. unfold members. now rewrite Hr1. }
  split; [exact Hsub|]. split.
  - intros Hne Hf Hcw isOnline lastSeen w'.
    destruct (onPresenceSubscribe sid userId targetUserId w) as [r w2] eqn:Hrun.
    assert (Hr : rooms w2 = <[room := {[sid]} ∪ members w room]> (rooms w)).
    { revert Hrun. unfold onPresenceSubscribe. fold target.
      destruct (JS.falsy target) eqn:Hfalsy;
        [apply falsy_empty in Hfalsy; contradiction|].
      unfold bind at 1. rewrite Hcw. cbn [negb].
      unfold bind at 1. unfold join at 1. unfold modify at 1. fold room.
      intros Hrun.
      match type of Hrun with
      | ?c ?w1 = _ => assert (Hp : preserves (fun x => rooms x = rooms w1) c)
      end.
      { unfold User_findById, socket_emit. preserve untouched. }
      rewrite (Hp _ _ _ eq_refl Hrun). reflexivity. }
    assert (Hin : sid ∈ members w' room).
    { unfold w'. cbn [snd]. rewrite (members_insert _ _ _ _ Hr).
      apply elem_of_union_l, elem_of_singleton_2. reflexivity. }
    split; [exact Hin|].
    rewrite copies_of_emissions. unfold memberships, presenceRoutes.
    cbn [List.filter]. fold room. rewrite (bool_decide_eq_true_2 _ Hin).
    cbn [length]. lia.
  - unfold onPresenceUnsubscribe. fold target.
    destruct (JS.falsy target) eqn:Hfalsy.
    + exists w. split; [reflexivity|]. split.
      * intros Hne. apply falsy_empty in Hfalsy. contradiction.
      * intros other _. reflexivity.
    + exists (with_rooms (<[room := members w room ∖ {[sid]}]>) w).
      split; [reflexivity|].
      assert (Hm : members (with_rooms (<[room := members w room ∖ {[sid]}]>) w) room
                   = members w room ∖ {[sid]}).
      { apply (members_insert w). reflexivity. }
      rewrite Hm.
      split.
      * intros _ Hin. apply elem_of_difference in Hin as [_ Hin].
        apply Hin, elem_of_singleton_2. reflexivity.
      * intros other Hother. rewrite elem_of_difference, elem_of_singleton.
        split; [intros [H _]; exact H | intros H; split; [exact H | exact Hother]].
Qed.

(* ------------------------------------------------------------------- *)
(** *** Who joins a conversation room *)

(** X14.  A join of a conversation room asks nothing: whatever the session,
    its user, the identifier, so long as it is not empty, and the store, the
    session is in the room of that identifier afterwards.  From then on the
    ingress hands it a copy of every [message:new] and [message:read] event,
    and of every [message:deleted] event not in mode "me", that carries the
    identifier. *)
Theorem onConversationJoin_asks_nothing sid conversationId secret type payload w :
  conversationId <> "" ->
  JS.falsy secret = false ->
  type = "message:new" \/ type = "message:read"
  \/ (type = "message:deleted" /\ fieldIs "mode" "me" payload = false) ->
  fieldStr "conversationId" payload = conversationId ->
  exists w1 w2 emitted,
    onConversationJoin sid (Some conversationId) w = (Ok tt, w1)
    /\ sid ∈ members w1 ("conversation:" +:+ conversationId)
    /\ internalRealtime secret (Some secret) (Some type) (Some payload) w1
       = (Ok (json 200 BOk), w2)
    /\ wire w2 = wire w1 ++ emitted
    /\ 1 <= copiesTo sid emitted.
Proof.
  intros Hne Hsecret Htype Hcid.
  set (room := "conversation:" +:+ conversationId).
  set (w1 := with_rooms (<[room := {[sid]} ∪ members w room]>) w).
  assert (Hin : sid ∈ members w1 room).
  { rewrite (members_insert w w1 room _ eq_refl).
    apply elem_of_union_l, elem_of_singleton_2. reflexivity. }
  exists w1, (with_wire (fun l => l ++ emissions w1 type payload (routes type payload)) w1),
    (emissions w1 type payload (routes type payload)).
  split.
  { unfold onConversationJoin. destruct (JS.falsy conversationId) eqn:E.
    - apply falsy_empty in E. contradiction.
    - reflexivity. }
  split; [exact Hin|]. split.
  { unfold internalRealtime. rewrite Hsecret, String.eqb_refl. cbn [orb negb].
    unfold bind. rewrite mapM_emit. reflexivity. }
  split; [reflexivity|].
  rewrite copies_of_emissions. unfold memberships.
  assert (Hroute : exists rest, routes type payload = room :: rest).
  { unfold routes, room. rewrite Hcid.
    destruct Htype as [->|[->|[-> Hmode]]]; cbn [String.eqb Ascii.eqb Bool.eqb app];
      [| |rewrite Hmode]; eexists; reflexivity. }
  destruct Hroute as (rest & ->). cbn [List.filter].
  rewrite (bool_decide_eq_true_2 _ Hin). cbn [length]. lia.
Qed.

(* ------------------------------------------------------------------- *)
(** *** The sanitizers of [lib/sanitize.ts] *)

Lemma falsy_false_length s : JS.falsy s = false -> 0 < String.length s.
Proof. destruct s; simpl; [discriminate | lia]. Qed.

Lemma all_append cls a b :
  JS.all cls a = true -> JS.all cls b = true -> JS.all cls (a +:+ b) = true.
Proof.
  induction a as [|c a IH]; simpl; [auto|].
  intros H Hb. apply andb_true_iff in H as [Hc Ha]. now rewrite Hc, (IH Ha Hb).
Qed.

Lemma all_weaken (cls cls' : ascii -> bool) s :
  (forall c, cls c = true -> cls' c = true) ->
  JS.all cls s = true -> JS.all cls' s = true.
Proof.
  intros Hc. induction s as [|c s IH]; simpl; [auto|].
  intros H. apply andb_true_iff in H as [H1 H2]. now rewrite (Hc c H1), (IH H2).
Qed.

Lemma span_all cls s :
  JS.all cls (fst (JS.span cls s)) = true
  /\ s = fst (JS.span cls s) +:+ snd (JS.span cls s).
Proof.
  induction s as [|c s [IH1 IH2]]; simpl; [auto|].
  destruct (cls c) eqn:Hc; [|auto].
  destruct (JS.span cls s) as [a b]. simpl in *. rewrite Hc, IH1. split; [reflexivity|].
  now rewrite IH2 at 1.
Qed.

(** What begins with a literal, matched without regard to case, is made of
    characters of a class when the literal, in either case, and the rest
    are. *)
Lemma afterFold_all cls p : forall s t,
  JS.afterFold p s = Some t ->
  (forall c, existsb (Ascii.eqb (JS.foldCase c)) (list_ascii_of_string p) = true ->
             cls c = true) ->
  JS.all cls t = true -> JS.all cls s = true.
Proof.
  induction p as [|a p IH]; intros s t; simpl.
  - now intros [= ->].
  - destruct s as [|c s]; [discriminate|].
    destruct (Ascii.eqb (JS.foldCase c) a) eqn:E; [|discriminate].
    intros H Hc Ht. simpl. rewrite (Hc c) by (simpl; now rewrite E).
    apply (IH s t H); [|exact Ht].
    intros c' H'. apply Hc. simpl. rewrite H'. apply orb_true_r.
Qed.

Lemma afterFold_first p a s t c :
  JS.afterFold (String a p) s = Some t -> Ascii.eqb a c = false ->
  forall q, JS.afterFold (String c q) s = None.
Proof.
  destruct s as [|x s]; simpl; [reflexivity|].
  destruct (Ascii.eqb (JS.foldCase x) a) eqn:E; [|discriminate].
  intros _ Hac q. apply Ascii.eqb_eq in E. rewrite E, Hac. reflexivity.
Qed.

Lemma dataImage_literal c :
  existsb (Ascii.eqb (JS.foldCase c)) (list_ascii_of_string "data:image/") = true ->
  isDataUrlChar c = true.
Proof.
  destruct c as [[] [] [] [] [] [] [] []]; vm_compute; intros H;
    first [reflexivity | discriminate H].
Qed.

Lemma base64_literal c :
  existsb (Ascii.eqb (JS.foldCase c)) (list_ascii_of_string ";base64,") = true ->
  isDataUrlChar c = true.
Proof.
  destruct c as [[] [] [] [] [] [] [] []]; vm_compute; intros H;
    first [reflexivity | discriminate H].
Qed.

Lemma isDataImageUrl_chars value :
  isDataImageUrl value = true -> JS.all isDataUrlChar value = true.
Proof.
  unfold isDataImageUrl.
  destruct (JS.afterFold "data:image/" value) as [rest|] eqn:Hrest; [|discriminate].
  pose proof (span_all isMediaTypeChar rest) as [Hmedia Hsplit].
  destruct (JS.span isMediaTypeChar rest) as [mediaType rest']. cbn [fst snd] in *.
  intros H. apply andb_true_iff in H as [_ H].
  destruct (JS.afterFold ";base64," rest') as [data|] eqn:Hdata; [|discriminate].
  apply andb_true_iff in H as [_ H].
  apply (afterFold_all _ _ _ _ Hrest dataImage_literal).
  rewrite Hsplit. apply all_append.
  - apply (all_weaken isMediaTypeChar); [|exact Hmedia].
    intros c Hc. unfold isDataUrlChar. now rewrite Hc.
  - apply (afterFold_all _ _ _ _ Hdata base64_literal).
    apply (all_weaken isBase64Char); [|exact H].
    intros c Hc. unfold isDataUrlChar. rewrite Hc. now rewrite orb_true_r.
Qed.

(** X15.  The filter of avatar addresses.  What it returns is at most 12000
    characters long, and is either empty or the input itself, trimmed and cut
    at that length, which then is an [http://] or [https://] address or a
    [data:image/...;base64,...] address, in any case of letters.  It never
    begins with [javascript:], in any case of letters; and what it returns
    that is not an http(s) address is made only of letters, digits,
    [.+-/=:;,] and white space. *)
Theorem sanitizeAvatarUrl_whitelist input :
  let result := sanitizeAvatarUrl input in
  String.length result <= 12 * 1000
  /\ (result = ""
      \/ (result = JS.slice0 (12 * 1000) (JS.trim input)
          /\ (isHttpUrl result = true \/ isDataImageUrl result = true)))
  /\ JS.afterFold "javascript:" result = None
  /\ (isHttpUrl result = false -> JS.all isDataUrlChar result = true).
Proof.
  unfold sanitizeAvatarUrl.
  set (value := JS.slice0 (12 * 1000) (JS.trim input)).
  assert (Hlen : String.length value <= 12 * 1000) by apply slice0_length.
  cbv zeta. destruct (JS.falsy value); [repeat split; simpl; auto; lia|].
  destruct (isHttpUrl value) eqn:Hhttp.
  - split; [exact Hlen|]. split; [right; auto|]. split; [|congruence].
    unfold isHttpUrl in Hhttp.
    destruct (JS.afterFold "http" value) as [rest|] eqn:E; [|discriminate].
    exact (afterFold_first _ _ _ _ "j" E eq_refl _).
  - destruct (isDataImageUrl value) eqn:Hdata; [|repeat split; simpl; auto; lia].
    split; [exact Hlen|]. split; [right; auto|]. split.
    + unfold isDataImageUrl in Hdata.
      destruct (JS.afterFold "data:image/" value) as [rest|] eqn:E; [|discriminate].
      exact (afterFold_first _ _ _ _ "j" E eq_refl _).
    + intros _. now apply isDataImageUrl_chars.
Qed.

(** X16.  The sanitizers of texts.  A sanitized message is at most 2000
    characters long and a sanitized profile text at most 140; the profile text
    of an input is the first 140 characters of its message text; cutting a
    sanitized message at 2000 again, as the send does, changes nothing; a
    sanitized message does not begin with white space, and it is empty
    exactly when nothing but white space is left of the input once the markup
    is taken out. *)
Theorem sanitizeMessage_shape input :
  String.length (sanitizeMessage input) <= 2000
  /\ String.length (sanitizeProfileText input) <= 140
  /\ sanitizeProfileText input = JS.slice0 140 (sanitizeMessage input)
  /\ JS.slice0 2000 (sanitizeMessage input) = sanitizeMessage input
  /\ JS.trimStart (sanitizeMessage input) = sanitizeMessage input
  /\ (sanitizeMessage input = "" <-> JS.trim (sanitizeHtml input) = "").
Proof.
  unfold sanitizeMessage, sanitizeProfileText, sanitizePlainText, JS.slice0.
  split; [apply substring_length|]. split; [apply substring_length|].
  split; [now rewrite substring_substring|].
  split; [now rewrite substring_substring, Nat.min_id|].
  split.
  - apply startsTrimmed_fixed, (slice0_startsTrimmed 2000).
    apply trimEnd_startsTrimmed, trimStart_startsTrimmed.
  - destruct (JS.trim (sanitizeHtml input)); simpl; split; auto; discriminate.
Qed.

(* ------------------------------------------------------------------- *)
(** *** The participant key names the pair *)

Lemma append_nil s : "" +:+ s = s.
Proof. reflexivity. Qed.

Lemma append_cons c s t : String c s +:+ t = String c (s +:+ t).
Proof. reflexivity. Qed.

Lemma colon_joined_inj x : forall x' y y',
  colonFree x = true -> colonFree x' = true ->
  x +:+ ":" +:+ y = x' +:+ ":" +:+ y' -> x = x' /\ y = y'.
Proof.
  unfold colonFree.
  induction x as [|c x IH]; intros [|c' x'] y y'; simpl; intros Hx Hx' E;
    rewrite ?append_cons, ?append_nil in E.
  - injection E as ->. auto.
  - injection E as <- _. discriminate.
  - injection E as -> _. discriminate.
  - injection E as <- E. apply andb_true_iff in Hx as [_ Hx], Hx' as [_ Hx'].
    destruct (IH x' y y' Hx Hx' E) as [-> ->]. auto.
Qed.

Lemma buildParticipantKey_joined a b :
  buildParticipantKey a b
  = if String.ltb b a then b +:+ ":" +:+ a else a +:+ ":" +:+ b.
Proof.
  unfold buildParticipantKey. rewrite sort_pair. now destruct (String.ltb b a).
Qed.

(** X17.  The participant key names the pair.  For identifiers that hold no
    colon, two pairs have the same participant key exactly when they are the
    same pair, in either order. *)
Theorem buildParticipantKey_names_pair a b c d :
  colonFree a = true -> colonFree b = true ->
  colonFree c = true -> colonFree d = true ->
  buildParticipantKey a b = buildParticipantKey c d
  <-> (a = c /\ b = d) \/ (a = d /\ b = c).
Proof.
  intros Ha Hb Hc Hd. split.
  - rewrite !buildParticipantKey_joined.
    destruct (String.ltb b a), (String.ltb d c); intros E;
      apply colon_joined_inj in E as [-> ->]; auto.
  - intros [[-> ->]|[-> ->]]; [reflexivity | apply buildParticipantKey_sym].
Qed.

(* ------------------------------------------------------------------- *)
(** *** The handshake of the socket server *)

Lemma split_cons sep c s :
  JS.split sep (String c s)
  = if Ascii.eqb c sep then "" :: JS.split sep s
    else match JS.split sep s with
         | x :: xs => String c x :: xs
         | [] => [String c ""]
         end.
Proof. reflexivity. Qed.

Lemma split_free sep s :
  JS.all (fun c => negb (Ascii.eqb c sep)) s = true -> JS.split sep s = [s].
Proof.
  induction s as [|c s IH]; [reflexivity|]. cbn [JS.all]. intros H.
  apply andb_true_iff in H as [Hc Hs]. apply negb_true_iff in Hc.
  now rewrite split_cons, Hc, (IH Hs).
Qed.

Lemma split_append sep a b :
  JS.all (fun c => negb (Ascii.eqb c sep)) a = true ->
  JS.split sep (a +:+ String sep b) = a :: JS.split sep b.
Proof.
  induction a as [|c a IH]; cbn [JS.all]; intros H.
  - rewrite append_nil, split_cons, Ascii.eqb_refl. reflexivity.
  - apply andb_true_iff in H as [Hc Ha]. apply negb_true_iff in Hc.
    now rewrite append_cons, split_cons, Hc, (IH Ha).
Qed.

Lemma split_nonempty sep s : JS.split sep s <> [].
Proof.
  destruct s as [|c s]; [discriminate|]. rewrite split_cons.
  destruct (Ascii.eqb c sep); [discriminate|]. now destruct (JS.split sep s).
Qed.

(** Joining what a split gave gives the string back. *)
Lemma join_split sep s : JS.join (String sep "") (JS.split sep s) = s.
Proof.
  induction s as [|c s IH]; [reflexivity|].
  rewrite split_cons. pose proof (split_nonempty sep s) as Hne.
  destruct (Ascii.eqb_spec c sep) as [->|Hc].
  - destruct (JS.split sep s) as [|x xs] eqn:E; [contradiction|].
    change (JS.join (String sep "") ("" :: x :: xs))
      with ("" +:+ String sep "" +:+ JS.join (String sep "") (x :: xs)).
    now rewrite IH.
  - destruct (JS.split sep s) as [|x xs] eqn:E; [contradiction|].
    destruct xs as [|x' xs].
    + simpl in IH. now rewrite <- IH.
    + change (JS.join (String sep "") (String c x :: x' :: xs))
        with (String c x +:+ String sep "" +:+ JS.join (String sep "") (x' :: xs)).
      rewrite append_cons. f_equal. exact IH.
Qed.

Lemma trimEnd_spaceless s :
  JS.all (fun c => negb (JS.isSpace c)) s = true -> JS.trimEnd s = s.
Proof.
  induction s as [|c s IH]; [reflexivity|]. cbn [JS.all]. intros H.
  apply andb_true_iff in H as [Hc Hs]. apply negb_true_iff in Hc.
  cbn [JS.trimEnd]. rewrite (IH Hs), Hc. now destruct s.
Qed.

Lemma trim_spaceless s :
  JS.all (fun c => negb (JS.isSpace c)) s = true -> JS.trim s = s.
Proof.
  intros H. unfold JS.trim.
  assert (E : JS.trimStart s = s).
  { destruct s as [|c s]; [reflexivity|]. cbn [JS.all] in H.
    apply andb_true_iff in H as [Hc _]. apply negb_true_iff in Hc.
    cbn [JS.trimStart]. now rewrite Hc. }
  rewrite E. now apply trimEnd_spaceless.
Qed.

Lemma all_cookieItem (cls : ascii -> bool) kv :
  cls "="%char = true ->
  (forall c, isCookieValueChar c = true -> cls c = true) ->
  wellFormedCookie kv -> JS.all cls (cookieItem kv) = true.
Proof.
  intros Heq Hcls (_ & Hname & Hvalue). unfold cookieItem. apply all_append.
  - apply (all_weaken isCookieNameChar); [|exact Hname].
    intros c Hc. apply Hcls. unfold isCookieNameChar in Hc.
    now apply andb_true_iff in Hc as [Hc _].
  - rewrite append_cons, append_nil. cbn [JS.all]. rewrite Heq.
    apply (all_weaken isCookieValueChar); [exact Hcls | exact Hvalue].
Qed.

(** An item of the header, with or without the space before it, is read as
    its name and its value. *)
Lemma parse_cookieItem kv item :
  wellFormedCookie kv ->
  item = cookieItem kv \/ item = " " +:+ cookieItem kv ->
  exists rest,
    JS.split "=" (JS.trim item) = fst kv :: rest /\ JS.join "=" rest = snd kv.
Proof.
  intros Hkv Hitem.
  assert (Htrim : JS.trim item = cookieItem kv).
  { assert (Hs : JS.trim (cookieItem kv) = cookieItem kv).
    { apply trim_spaceless, all_cookieItem; [reflexivity | | exact Hkv].
      intros c Hc. unfold isCookieValueChar in Hc.
      now apply andb_true_iff in Hc as [Hc _]. }
    destruct Hitem as [->| ->]; [exact Hs|].
    rewrite append_cons, append_nil. unfold JS.trim. cbn [JS.trimStart].
    change (JS.isSpace " ") with true. cbv iota. exact Hs. }
  rewrite Htrim. unfold cookieItem. destruct Hkv as (_ & Hname & _).
  exists (JS.split "=" (snd kv)). split.
  - rewrite append_cons, append_nil. apply split_append.
    apply (all_weaken isCookieNameChar); [|exact Hname].
    intros c Hc. unfold isCookieNameChar in Hc.
    now apply andb_true_iff in Hc as [_ Hc].
  - apply join_split.
Qed.

Lemma parseCookieItems_header pairs : forall cookieMap,
  Forall wellFormedCookie pairs ->
  parseCookieItems (List.map (fun kv => " " +:+ cookieItem kv) pairs) cookieMap
  = option_map (app cookieMap) (decodeAll pairs).
Proof.
  induction pairs as [|[name value] pairs IH]; intros cookieMap Hwf.
  - simpl. now rewrite List.app_nil_r.
  - apply List.Forall_cons_iff in Hwf as [Hkv Hwf].
    cbn [List.map parseCookieItems decodeAll].
    destruct (parse_cookieItem _ (" " +:+ cookieItem (name, value)) Hkv (or_intror eq_refl))
      as (rest & -> & ->).
    cbn [fst snd]. destruct Hkv as (Hne & _).
    destruct (JS.falsy name) eqn:E; [apply falsy_empty in E; contradiction|].
    destruct (decodeURIComponent value) as [decoded|]; [|reflexivity].
    rewrite (IH _ Hwf). destruct (decodeAll pairs); [|reflexivity].
    cbn [option_map]. now rewrite <- List.app_assoc.
Qed.

Lemma split_cookieHeader kv pairs :
  Forall wellFormedCookie (kv :: pairs) ->
  JS.split ";" (cookieHeaderOf (kv :: pairs))
  = cookieItem kv :: List.map (fun kv => " " +:+ cookieItem kv) pairs.
Proof.
  assert (Hfree : forall kv, wellFormedCookie kv ->
            JS.all (fun c => negb (Ascii.eqb c ";")) (cookieItem kv) = true).
  { intros kv' Hkv'. apply all_cookieItem; [reflexivity | | exact Hkv'].
    intros c Hc. unfold isCookieValueChar in Hc.
    now apply andb_true_iff in Hc as [_ Hc]. }
  revert kv. induction pairs as [|kv' pairs IH]; intros kv Hwf;
    apply List.Forall_cons_iff in Hwf as [Hkv Hwf].
  - unfold cookieHeaderOf. cbn [List.map JS.join]. now apply split_free, Hfree.
  - unfold cookieHeaderOf. cbn [List.map].
    change (JS.join "; " (cookieItem kv :: cookieItem kv' :: List.map cookieItem pairs))
      with (cookieItem kv +:+ "; " +:+ cookieHeaderOf (kv' :: pairs)).
    rewrite (append_cons ";" " "), (split_append ";" _ _ (Hfree kv Hkv)).
    f_equal. rewrite append_cons, append_nil, split_cons.
    change (Ascii.eqb " " ";") with false. cbv iota.
    rewrite (IH kv' Hwf). reflexivity.
Qed.

(** X18.  The handshake of the socket server.  A handshake without a
    cookie header, or with an empty one, is refused.  Of a header of
    well-formed cookies, the middleware decodes every value, in order, and
    refuses the handshake when one of them is malformed, whichever cookie it
    belongs to; otherwise the token is the value of the last cookie named
    [connect_token], and the handshake is refused when there is none, when it
    is empty and when the verification refuses it. *)
Theorem io_use_reads_cookies pairs :
  Forall wellFormedCookie pairs ->
  io_use None = Refused
  /\ io_use (Some "") = Refused
  /\ (pairs <> [] ->
      parseCookies (Some (cookieHeaderOf pairs)) = decodeAll pairs
      /\ (forall name value,
            In (name, value) pairs -> decodeURIComponent value = None ->
            io_use (Some (cookieHeaderOf pairs)) = Refused)
      /\ (forall cookies,
            decodeAll pairs = Some cookies ->
            io_use (Some (cookieHeaderOf pairs))
            = match mapGet "connect_token" cookies with
              | None => Refused
              | Some token =>
                  if JS.falsy token then Refused
                  else match jwtVerify token with
                       | Some userId => Accepted userId
                       | None => Refused
                       end
              end)).
Proof.
  intros Hwf. split; [reflexivity|]. split; [reflexivity|]. intros Hne.
  assert (Hparse : parseCookies (Some (cookieHeaderOf pairs)) = decodeAll pairs).
  { destruct pairs as [|[name value] pairs]; [contradiction|].
    unfold parseCookies.
    assert (Hfalsy : JS.falsy (cookieHeaderOf ((name, value) :: pairs)) = false).
    { apply List.Forall_cons_iff in Hwf as [(Hname & _) _]. cbn [fst] in Hname.
      unfold cookieHeaderOf. cbn [List.map]. unfold cookieItem at 1. cbn [fst snd].
      destruct name as [|c name]; [contradiction|].
      destruct (List.map cookieItem pairs); reflexivity. }
    rewrite Hfalsy, (split_cookieHeader _ _ Hwf).
    pose proof Hwf as Hwf'. apply List.Forall_cons_iff in Hwf' as [Hkv Hrest].
    cbn [parseCookieItems decodeAll].
    destruct (parse_cookieItem _ (cookieItem (name, value)) Hkv (or_introl eq_refl))
      as (rest & -> & ->).
    cbn [fst snd]. destruct Hkv as (Hname & _). cbn [fst] in Hname.
    destruct (JS.falsy name) eqn:E; [apply falsy_empty in E; contradiction|].
    destruct (decodeURIComponent value) as [decoded|]; [|reflexivity].
    rewrite (parseCookieItems_header _ _ Hrest).
    now destruct (decodeAll pairs). }
  split; [exact Hparse|]. split.
  - intros name value Hin Hbad. unfold io_use. rewrite Hparse.
    assert (Hnone : decodeAll pairs = None).
    { clear - Hin Hbad. induction pairs as [|[n v] pairs IH]; [destruct Hin|].
      cbn [decodeAll]. destruct Hin as [[= -> ->]|Hin]; [now rewrite Hbad|].
      destruct (decodeURIComponent v); [|reflexivity]. now rewrite (IH Hin). }
    now rewrite Hnone.
  - intros cookies Hall. unfold io_use. now rewrite Hparse, Hall.
Qed.

(* ------------------------------------------------------------------- *)
(** *** The page, under copies of an event *)

Lemma existsb_snoc_self {A} (p : A -> bool) l x :
  p x = true -> existsb p (l ++ [x]) = true.
Proof. intros H. rewrite existsb_app. simpl. rewrite H. now rewrite orb_true_r. Qed.

Lemma filter_filter_same {A} (p : A -> bool) l :
  List.filter p (List.filter p l) = List.filter p l.
Proof.
  induction l as [|x l IH]; simpl; [reflexivity|].
  destruct (p x) eqn:E; simpl; [rewrite E; now f_equal | exact IH].
Qed.

(** X19.  The page, under copies of an event.  The router hands a session
    several copies of one event; on the page a copy handled after the first
    changes nothing, for [message:new], [message:read] and [message:deleted]
    alike, whatever conversation is open, and, for a delete, whatever the
    clock shows when the second copy is handled.  A [message:new] event adds
    one message at most, at the end, and a list in which identifiers name one
    message each stays such a list. *)
Theorem page_copies_change_nothing (conversationIdRef : option string)
    (previous : list Page.Message) :
  (forall incoming,
     let next := Page.onMessageNew conversationIdRef incoming previous in
     Page.onMessageNew conversationIdRef incoming next = next
     /\ (next = previous \/ next = previous ++ [incoming])
     /\ (List.NoDup (List.map Page.id previous) -> List.NoDup (List.map Page.id next)))
  /\ (forall conversationId readerId messageIds,
        let next := Page.onMessageRead conversationIdRef conversationId readerId
                      messageIds previous in
        Page.onMessageRead conversationIdRef conversationId readerId messageIds next
        = next)
  /\ (forall conversationId messageId mode payloadDeletedAt now now',
        let next := Page.onMessageDeleted conversationIdRef conversationId messageId
                      mode payloadDeletedAt now previous in
        Page.onMessageDeleted conversationIdRef conversationId messageId mode
          payloadDeletedAt now' next
        = next).
Proof.
  split; [|split].
  - intros incoming. cbv zeta. unfold Page.onMessageNew.
    destruct (existsb _ previous) eqn:Hex.
    + rewrite Hex. auto.
    + destruct (Page.setAndNot conversationIdRef (Page.conversationId incoming)) eqn:Href.
      * rewrite Hex. auto.
      * rewrite existsb_snoc_self by apply String.eqb_refl.
        split; [reflexivity|]. split; [now right|].
        intros Hnd. rewrite List.map_app. simpl.
        apply List.NoDup_rev in Hnd. rewrite <- (List.rev_involutive (_ ++ _)).
        apply List.NoDup_rev. rewrite List.rev_app_distr. simpl.
        constructor; [|exact Hnd].
        intros Hin. apply List.in_rev, List.in_map_iff in Hin as (m & Hid & Hm).
        assert (E : existsb (fun message => Page.id message =? Page.id incoming)
                      previous = true).
        { apply existsb_exists. exists m. split; [exact Hm|].
          rewrite Hid. apply String.eqb_refl. }
        congruence.
  - intros conversationId readerId messageIds. cbv zeta. unfold Page.onMessageRead.
    destruct (Page.setAndNot conversationIdRef conversationId); [reflexivity|].
    rewrite List.map_map. apply List.map_ext. intros m.
    destruct (existsb (String.eqb (Page.id m)) messageIds) eqn:Hin;
      cbn [Page.id]; rewrite Hin; [|reflexivity].
    cbn [Page.readBy Page.conversationId Page.senderId Page.recipientId Page.text
         Page.isDeletedForEveryone Page.deletedAt Page.createdAt].
    destruct (existsb (String.eqb readerId) (Page.readBy m)) eqn:Hread.
    + now rewrite Hread.
    + now rewrite existsb_snoc_self by apply String.eqb_refl.
  - intros conversationId messageId mode payloadDeletedAt now now'. cbv zeta.
    unfold Page.onMessageDeleted.
    destruct (Page.setAndIs conversationIdRef conversationId); [|reflexivity].
    destruct (mode =? "me").
    + apply filter_filter_same.
    + rewrite List.map_map. apply List.map_ext. intros m.
      destruct (Page.id m =? messageId) eqn:Hid; cbn [Page.id]; rewrite Hid;
        [|reflexivity].
      cbn [Page.readBy Page.conversationId Page.senderId Page.recipientId Page.text
           Page.isDeletedForEveryone Page.deletedAt Page.createdAt].
      now destruct payloadDeletedAt.
Qed.

Lemma page_fresh (l : list Page.Message) m :
  negb (existsb (String.eqb (Page.id m)) (List.map Page.id l)) = true
  <-> ~ In (Page.id m) (List.map Page.id l).
Proof.
  rewrite negb_true_iff. split.
  - intros H Hin.
    assert (E : existsb (String.eqb (Page.id m)) (List.map Page.id l) = true).
    { apply existsb_exists. exists (Page.id m). split; [exact Hin | apply String.eqb_refl]. }
    congruence.
  - intros H. destruct (existsb _ _) eqn:E; [|reflexivity].
    apply existsb_exists in E as (x & Hx & Heq). apply String.eqb_eq in Heq.
    subst x. contradiction.
Qed.

(** X20.  The page, loading a page of the history.  When the page is not
    replaced, the messages loaded go before those the page has, which keep
    their places; a message that the page has already is not taken again, so
    loading the same messages once more adds nothing; and identifiers still
    name one message each if they did in the list and in what was loaded. *)
Theorem page_load_adds_once (resultMessages previous : list Page.Message) :
  let next := Page.onMessagesLoaded false resultMessages previous in
  (exists older, next = older ++ previous
                 /\ forall m, In m older ->
                      In m resultMessages
                      /\ ~ In (Page.id m) (List.map Page.id previous))
  /\ Page.onMessagesLoaded false resultMessages next = next
  /\ (List.NoDup (List.map Page.id resultMessages) ->
      List.NoDup (List.map Page.id previous) ->
      List.NoDup (List.map Page.id next))
  /\ Page.onMessagesLoaded true resultMessages previous = resultMessages.
Proof.
  cbv zeta. unfold Page.onMessagesLoaded.
  set (older := List.filter _ resultMessages).
  assert (Holder : forall m, In m older ->
            In m resultMessages /\ ~ In (Page.id m) (List.map Page.id previous)).
  { intros m Hm. apply filter_In in Hm as [Hm Hf]. split; [exact Hm|].
    now apply page_fresh. }
  split; [exists older; auto|]. split; [|split; [|reflexivity]].
  - rewrite (filter_none _ resultMessages); [reflexivity|].
    intros m Hm. apply negb_false_iff, existsb_exists. exists (Page.id m).
    split; [|apply String.eqb_refl]. rewrite List.map_app. apply in_or_app.
    destruct (in_dec string_dec (Page.id m) (List.map Page.id previous))
      as [Hin|Hout]; [now right|].
    left. apply List.in_map, filter_In. split; [exact Hm|]. now apply page_fresh.
  - intros Hr Hp. rewrite List.map_app.
    apply List.NoDup_app; [now apply NoDup_map_filter | exact Hp |].
    intros x Hx Hx'. apply List.in_map_iff in Hx as (m & <- & Hm).
    now destruct (Holder m Hm) as [_ Hout].
Qed.

(* ------------------------------------------------------------------- *)
(** *** The pages of a conversation list *)



(* ------------------------------------------------------------------- *)
(** *** A subscription outlives its conversation *)

Lemma removeFirst_gone (c : Conversation.t) l :
  List.NoDup (List.map Conversation._id l) ->
  ~ In c (removeFirst (convHasId (Conversation._id c)) l).
Proof.
  induction l as [|x l IH]; simpl; [auto|].
  intros Hnd. apply List.NoDup_cons_iff in Hnd as [Hx Hl].
  destruct (convHasId (Conversation._id c) x) eqn:Hid.
  - unfold convHasId in Hid. apply N.eqb_eq in Hid.
    intros Hin. apply Hx. rewrite Hid. now apply List.in_map.
  - intros [->|Hin]; [|exact (IH Hl Hin)].
    unfold convHasId in Hid. now rewrite N.eqb_refl in Hid.
Qed.

(** X22.  A subscription outlives its conversation.  In a sound store with
    no fault pending, a session of one participant is in the watch room of
    the other, and the conversation between them is the only stored one that
    has both.  The first deletes it for everyone: the delete is answered 200;
    from then on the presence check between the two answers false, yet no
    room has changed, so the session is still in the watch room and each
    presence event of the other still hands it a copy. *)
Theorem watch_outlives_conversation sid a b ao bo conversationIdField modeField c w :
  let conversationId := JS.trim (JS.orEmpty conversationIdField) in
  let room := "presence:watch:" +:+ b in
  wellStored w -> faults w = [] ->
  JS.falsy a = false -> JS.falsy b = false -> a <> b ->
  parseOid a = Some ao -> parseOid b = Some bo ->
  JS.toLowerCase (JS.trim (default "everyone" modeField)) = "everyone" ->
  JS.falsy conversationId = false ->
  parseOid conversationId = Some (Conversation._id c) ->
  In c (conversations w) ->
  In ao (Conversation.participants c) ->
  (forall c', In c' (conversations w) ->
      In ao (Conversation.participants c') -> In bo (Conversation.participants c') ->
      c' = c) ->
  sid ∈ members w room ->
  exists w',
    DELETE_conversations (Some a) conversationIdField modeField w
    = (Ok (json 200 (BConversationDeleted conversationId "everyone")), w')
    /\ canWatchPresence a b w' = (Ok false, w')
    /\ rooms w' = rooms w
    /\ sid ∈ members w' room
    /\ forall isOnline lastSeen,
         1 <= copiesTo sid (emissions w' "presence:update"
                              (presencePayload b isOnline lastSeen)
                              (presenceRoutes b)).
Proof.
  intros conversationId room Hw Hf Ha Hb Hab Hao Hbo Hmode Hne Hcid Hc Hpart Honly Hsid.
  destruct Hw as (Hnd & _).
  assert (Hfind : List.find (fun x => convHasId (Conversation._id c) x
                                      && oidIn ao (Conversation.participants x))
                            (conversations w) = Some c).
  { apply (find_unique_id (fun x => oidIn ao (Conversation.participants x)));
      [exact Hnd | exact Hc | now apply oidIn_In]. }
  set (w' := with_conversations (removeFirst (convHasId (Conversation._id c)))
               (with_messages
                  (List.filter (fun m => negb (Message.conversationId m
                                               =? Conversation._id c)%N)) w)).
  assert (Hrun : DELETE_conversations (Some a) conversationIdField modeField w
                 = (Ok (json 200 (BConversationDeleted conversationId "everyone")), w')).
  { unfold DELETE_conversations. fold conversationId.
    rewrite Hmode, Hne, (isValid_parse _ _ Hcid). cbn [orb negb].
    unfold newObjectId, Conversation_findOne. rewrite Hcid, Hao. unfold_m.
    rewrite (store_ok _ Hf), Hfind. cbn [String.eqb Ascii.eqb Bool.eqb negb andb].
    unfold Message_deleteMany, Conversation_deleteOne. unfold_m.
    rewrite (store_ok _ Hf).
    rewrite (store_ok _ (Hf : faults (with_messages _ w) = [])). reflexivity. }
  exists w'. split; [exact Hrun|].
  assert (Hin : sid ∈ members w' room) by exact Hsid.
  split.
  { rewrite (canWatchPresence_query a b ao bo w' Ha Hb Hab Hao Hbo Hf).
    f_equal. f_equal. destruct (existsb _ (conversations w')) eqn:E; [|reflexivity].
    exfalso. apply existsb_exists in E as (c' & Hc' & Hboth).
    apply andb_true_iff in Hboth as [H1 H2]. apply oidIn_In in H1, H2.
    unfold w' in Hc'. fields in Hc'.
    pose proof (In_removeFirst _ _ _ Hc') as Hstored.
    rewrite (Honly c' Hstored H1 H2) in Hc'.
    exact (removeFirst_gone _ _ Hnd Hc'). }
  split; [reflexivity|]. split; [exact Hin|].
  intros isOnline lastSeen. rewrite copies_of_emissions.
  unfold memberships, presenceRoutes. cbn [List.filter]. fold room.
  rewrite (bool_decide_eq_true_2 _ Hin). cbn [length]. lia.
Qed.

(* ------------------------------------------------------------------- *)
(** *** Delete for me, of a conversation: who brings it back *)

Lemma keptHidden_faultBlind x cid : faultBlind (keptHidden x cid).
Proof. intros w fs H. exact H. Qed.

Lemma keptHidden_messages x cid f w :
  keptHidden x cid w -> keptHidden x cid (with_messages f w).
Proof. intros H. exact H. Qed.

Lemma keptHidden_outbox x cid f w :
  keptHidden x cid w -> keptHidden x cid (with_outbox f w).
Proof. intros H. exact H. Qed.

Lemma keptHidden_conversations_removeFirst x cid p w :
  keptHidden x cid w -> keptHidden x cid (with_conversations (removeFirst p) w).
Proof.
  intros [Hh Hs]. split; [|exact Hs].
  intros c Hc. apply In_removeFirst in Hc. now apply Hh.
Qed.

(** A write to the first conversation of [p] keeps the conversation hidden
    when the document written, if it is of the identifier, is hidden for
    [x]. *)
Lemma keptHidden_conversations_updateFirst x cid p f w :
  (forall c, Conversation._id (f c) = Conversation._id c) ->
  (forall c, In c (conversations w) -> p c = true -> Conversation._id c = cid ->
             oidIn x (Conversation.hiddenFor c) = true ->
             oidIn x (Conversation.hiddenFor (f c)) = true) ->
  keptHidden x cid w -> keptHidden x cid (with_conversations (updateFirst p f) w).
Proof.
  intros Hid Hf [Hh Hs]. split; [|exact Hs].
  intros c Hc E. cbn [conversations with_conversations] in Hc.
  apply In_updateFirst in Hc as [Hc|(y & Hy & Hp & ->)]; [now apply Hh|].
  rewrite Hid in E. apply Hf; auto.
Qed.

Lemma Message_create_keptHidden x cid conv sender recipient txt readBy :
  preserves (keptHidden x cid) (Message_create conv sender recipient txt readBy).
Proof.
  intros w r w' Hw. unfold Message_create. unfold_m. rewrite Message_text_run.
  destruct (JS.falsy (JS.trim txt)); [now intros [= <- <-]|].
  destruct (store w) as [r0 w0] eqn:Hs0.
  pose proof (preserves_store _ (keptHidden_faultBlind x cid) _ _ _ Hw Hs0) as [Hh Hs].
  destruct r0 as [[]|e]; intros [= <- <-]; [|now split].
  split; [exact Hh|]. cbn [oidSeed with_messages with_oidSeed]. lia.
Qed.


Ltac hidden :=
  first
    [ exact (keptHidden_faultBlind _ _)
    | apply Message_create_keptHidden
    | intros ? ?; first
        [ assumption
        | apply keptHidden_conversations_updateFirst;
            [reflexivity | intros ? _ _ _ ?; assumption | assumption]
        | apply keptHidden_conversations_removeFirst; assumption
        | apply keptHidden_messages; assumption
        | apply keptHidden_outbox; assumption ] ].




(** **** The list that holds the conversation *)


















End Connect.

(* ===================================================================== *)
(** ** The properties at work on the sample worlds *)
(* ===================================================================== *)

Lemma getOrCreateConversation_order_independent_witness :
  buildParticipantKey Sample.alice Sample.bob = buildParticipantKey Sample.bob Sample.alice
  /\ exists c1 w1 c2 w2,
       getOrCreateConversation Hex.parse Sample.alice Sample.bob Sample.start = (Ok c1, w1)
       /\ getOrCreateConversation Hex.parse Sample.bob Sample.alice w1 = (Ok c2, w2)
       /\ Conversation._id c1 = Conversation._id c2
       /\ Conversation.participantKey c1 = buildParticipantKey Sample.alice Sample.bob
       /\ Conversation.participantKey c2 = buildParticipantKey Sample.alice Sample.bob
       /\ keyCount (buildParticipantKey Sample.alice Sample.bob) w2
          = Nat.max 1 (keyCount (buildParticipantKey Sample.alice Sample.bob) Sample.start).
Proof.
  apply (getOrCreateConversation_order_independent Hex.parse Sample.alice Sample.bob
           Sample.start); reflexivity.
Defined.

(** C8, the claim as written fails: two equal identifiers are refused when
    they are empty; and two well-formed identifiers that differ as strings,
    but denote the same user, are accepted on the strength of any
    conversation of that user, although no conversation has exactly these
    participants. *)
Lemma canWatchPresence_counterexample :
  canWatchPresence Hex.parse "" "" Sample.chatting = (Ok false, Sample.chatting)
  /\ (Sample.alice <> Sample.aliceCapitals
      /\ isValid Hex.parse Sample.alice = true
      /\ isValid Hex.parse Sample.aliceCapitals = true
      /\ Hex.parse Sample.alice = Some Sample.aliceId
      /\ Hex.parse Sample.aliceCapitals = Some Sample.aliceId
      /\ canWatchPresence Hex.parse Sample.alice Sample.aliceCapitals Sample.chatting
         = (Ok true, Sample.chatting)
      /\ ~ exists c, In c (conversations Sample.chatting)
                     /\ forall x, In x (Conversation.participants c)
                                  <-> x = Sample.aliceId \/ x = Sample.aliceId).
Proof.
  split; [reflexivity|].
  split; [discriminate|].
  repeat (split; [reflexivity|]).
  intros (c & Hin & Hset). simpl in Hin. destruct Hin as [<-|[]].
  assert (H : In Sample.bobId (Conversation.participants Sample.chat))
    by (simpl; auto).
  apply Hset in H. vm_compute in H. destruct H; discriminate.
Qed.

Lemma canWatchPresence_decides_witness :
  exists b,
    canWatchPresence Hex.parse Sample.alice Sample.bob Sample.chatting
    = (Ok b, Sample.chatting)
    /\ (Sample.alice = "" \/ Sample.bob = "" -> b = false)
    /\ (Sample.alice <> "" -> Sample.alice = Sample.bob -> b = true)
    /\ (Sample.alice <> "" -> Sample.bob <> "" -> Sample.alice <> Sample.bob ->
        isValid Hex.parse Sample.alice = false \/ isValid Hex.parse Sample.bob = false ->
        b = false)
    /\ (forall wo to,
          Sample.alice <> "" -> Sample.bob <> "" -> Sample.alice <> Sample.bob ->
          Hex.parse Sample.alice = Some wo -> Hex.parse Sample.bob = Some to ->
          (b = true <->
             exists c, In c (conversations Sample.chatting)
                       /\ In wo (Conversation.participants c)
                       /\ In to (Conversation.participants c))
          /\ (wo <> to ->
              (forall c, In c (conversations Sample.chatting) ->
                         length (Conversation.participants c) = 2) ->
              (b = true <->
                 exists c, In c (conversations Sample.chatting)
                           /\ forall x, In x (Conversation.participants c)
                                        <-> x = wo \/ x = to))).
Proof.
  apply (canWatchPresence_decides Hex.parse Sample.alice Sample.bob Sample.chatting).
  reflexivity.
Defined.

(** C10 at work: Carol is not a user of the sample store, and Alice's
    history fetch creates the conversation with her all the same; it is
    answered 200 with an empty page. *)
Lemma GET_messages_creates_without_user_check_witness :
  List.find (userHasId Sample.carolId) (users Sample.start) = None
  /\ GET_messages Hex.parse Hex.str Sample.plain
       (Some Sample.alice) (Some Sample.carol) None None Sample.start
     = (Ok (json 200 (BMessages "000000000000000000000001" [] None)),
        with_conversations
          (fun l => l ++ [Conversation.mk 1%N [Sample.aliceId; Sample.carolId]
                            (Sample.alice +:+ ":" +:+ Sample.carol) [] "" 1000%N])
          (with_oidSeed N.succ Sample.start))
  /\ exists outcome w' mo to,
       Hex.parse Sample.alice = Some mo
       /\ Hex.parse (JS.trim (JS.orEmpty (Some Sample.carol))) = Some to
       /\ GET_messages Hex.parse Hex.str Sample.plain
            (Some Sample.alice) (Some Sample.carol) None None Sample.start
          = (outcome, w')
       /\ users w' = users Sample.start
       /\ conversations w'
          = conversations Sample.start
            ++ [Conversation.mk (oidSeed Sample.start) [mo; to]
                  (buildParticipantKey Sample.alice
                     (JS.trim (JS.orEmpty (Some Sample.carol))))
                  [] "" (clock Sample.start)]
       /\ canWatchPresence Hex.parse Sample.alice
            (JS.trim (JS.orEmpty (Some Sample.carol))) w' = (Ok true, w')
       /\ canWatchPresence Hex.parse
            (JS.trim (JS.orEmpty (Some Sample.carol))) Sample.alice w' = (Ok true, w')
       /\ (Nat.min (default 30 None) 100 <> 0 ->
           exists resp, outcome = Ok resp /\ status resp = 200)
       /\ (Nat.min (default 30 None) 100 = 0 ->
           (forall m, In m (messages Sample.start) ->
                      Message.conversationId m <> oidSeed Sample.start) ->
           outcome = Throw TypeError).
Proof.
  split; [reflexivity|]. split; [reflexivity|].
  apply (GET_messages_creates_without_user_check Hex.parse Hex.str Sample.plain
           Sample.alice (Some Sample.carol) None None Sample.start); reflexivity.
Defined.

(** C10 with the limit lifted: the same fetch with [limit=0] stores the
    conversation, and then throws on the cursor of the empty page. *)
Lemma GET_messages_limit_zero :
  GET_messages Hex.parse Hex.str Sample.plain
    (Some Sample.alice) (Some Sample.carol) None (Some 0) Sample.start
  = (Throw TypeError,
     with_conversations
       (fun l => l ++ [Conversation.mk 1%N [Sample.aliceId; Sample.carolId]
                         (Sample.alice +:+ ":" +:+ Sample.carol) [] "" 1000%N])
       (with_oidSeed N.succ Sample.start)).
Proof. reflexivity. Qed.

(** C3, the claim as written fails: both calls look the conversation up and
    find nothing, the first creates it, and the second is rejected by the
    unique index; the duplicate-key error is the result of that call. *)
Lemma concurrent_first_contact_counterexample :
  fst (interleave Hex.parse Sample.alternately (Sample.bothAtOnce, Sample.start))
  = [ Returned (Conversation.mk 1%N [Sample.aliceId; Sample.bobId]
                  (Sample.alice +:+ ":" +:+ Sample.bob) [] "" 1000%N);
      Rejected DuplicateKey ].
Proof. vm_compute. reflexivity. Qed.

Lemma concurrent_first_contact_witness :
  let key := buildParticipantKey Sample.alice Sample.bob in
  let calls' := fst (interleave Hex.parse Sample.alternately
                       (Sample.bothAtOnce, Sample.start)) in
  let w' := snd (interleave Hex.parse Sample.alternately
                   (Sample.bothAtOnce, Sample.start)) in
  length calls' = length Sample.bothAtOnce
  /\ keyCount key w' <= 1
  /\ (forall conv, In (Returned conv) calls' ->
        Conversation.participantKey conv = key
        /\ option_map Conversation._id
             (List.find (convHasKey key) (conversations w'))
           = Some (Conversation._id conv))
  /\ (forall e, In (Rejected e) calls' -> e = DuplicateKey /\ keyCount key w' = 1)
  /\ ((forall i, i < length Sample.bothAtOnce ->
                 2 <= count_occ Nat.eq_dec Sample.alternately i) ->
      Forall (fun c => finished c = true) calls'
      /\ (Sample.bothAtOnce <> [] -> keyCount key w' = 1)).
Proof.
  intros key calls' w'.
  apply (concurrent_first_contact Hex.parse key Sample.bothAtOnce Sample.start
           Sample.alternately calls' w').
  - reflexivity.
  - reflexivity.
  - apply List.Forall_cons.
    { exists Sample.alice, Sample.bob. repeat split; reflexivity. }
    apply List.Forall_cons.
    { exists Sample.bob, Sample.alice. repeat split; reflexivity. }
    apply List.Forall_nil.
  - reflexivity.
Defined.

(** C9 at work: Bob marks the conversation read, twice. *)
Lemma POST_messages_read_idempotent_witness :
  exists n w1,
    POST_messages_read Hex.parse Hex.str (Some Sample.bob) (Some Sample.chatRef) Sample.talked
    = (Ok (json 200 (BUpdated n)), w1)
    /\ POST_messages_read Hex.parse Hex.str (Some Sample.bob) (Some Sample.chatRef) w1
       = (Ok (json 200 (BUpdated 0)), w1)
    /\ length (outbox w1)
       = length (outbox Sample.talked) + (if (n =? 0)%nat then 0 else 1)
    /\ (forall cid mo,
          Hex.parse (JS.trim (JS.orEmpty (Some Sample.chatRef))) = Some cid ->
          Hex.parse Sample.bob = Some mo ->
          n = length (List.filter (unreadBy cid mo) (messages Sample.talked))
          /\ List.filter (unreadBy cid mo) (messages w1) = []).
Proof.
  apply (POST_messages_read_idempotent Hex.parse Hex.str Sample.bob (Some Sample.chatRef)
           Sample.talked); reflexivity.
Defined.

(** C5 at work: Alice deletes for everyone the message that she sent.  The
    save of the emptied document is refused: the call throws, the message is
    stored as it was, and nothing is posted.  Bob, the recipient, is answered
    403. *)
Lemma DELETE_messages_everyone_witness :
  DELETE_messages Hex.parse Hex.str
    (Some Sample.alice) (Some Sample.helloRef) (Some "everyone") Sample.talked
  = (Throw ValidationError, Sample.talked)
  /\ fst (DELETE_messages Hex.parse Hex.str
            (Some Sample.bob) (Some Sample.helloRef) (Some "everyone") Sample.talked)
     = Ok (json 403 (BError "Only sender can delete for everyone."))
  /\ ((Message.senderId Sample.hello <> Sample.aliceId ->
       exists resp,
         DELETE_messages Hex.parse Hex.str
           (Some Sample.alice) (Some Sample.helloRef) (Some "everyone") Sample.talked
         = (Ok resp, Sample.talked)
         /\ status resp = 403)
      /\ (Message.senderId Sample.hello = Sample.aliceId ->
            DELETE_messages Hex.parse Hex.str
              (Some Sample.alice) (Some Sample.helloRef) (Some "everyone") Sample.talked
            = (Throw ValidationError, Sample.talked))
      /\ (forall w0 r w',
            DELETE_messages Hex.parse Hex.str
              (Some Sample.alice) (Some Sample.helloRef) (Some "everyone") w0 = (r, w') ->
            sameDocuments w0 w' /\ users w' = users w0
            /\ forall body, r <> Ok (json 200 body))).
Proof.
  split; [reflexivity|]. split; [reflexivity|].
  apply (DELETE_messages_everyone Hex.parse Hex.str Sample.alice (Some Sample.helloRef)
           (Some "everyone") 2%N Sample.aliceId Sample.hello Sample.talked); reflexivity.
Defined.

(** C7 at work: Alice opens two tabs and closes them. *)
Lemma two_sessions_presence_witness :
  exists w1 w2 w3 w4,
    onConnection Hex.parse "tab-1" Sample.alice
      (with_clock (fun _ => 1000%N) Sample.chatting) = (Ok tt, w1)
    /\ onConnection Hex.parse "tab-2" Sample.alice (with_clock (fun _ => 2000%N) w1)
       = (Ok tt, w2)
    /\ onDisconnect Hex.parse "tab-1" (with_clock (fun _ => 3000%N) w2) = (Ok tt, w3)
    /\ onDisconnect Hex.parse "tab-2" (with_clock (fun _ => 4000%N) w3) = (Ok tt, w4)
    /\ (onlineCounts w2 !! Sample.alice = Some 2%Z
        /\ presenceOf Sample.aliceId w2 = Some (true, 2000%N))
    /\ (onlineCounts w3 !! Sample.alice = Some 1%Z
        /\ presenceOf Sample.aliceId w3 = Some (true, 2000%N)
        /\ wire w3 = wire w2)
    /\ (onlineCounts w4 !! Sample.alice = None
        /\ presenceOf Sample.aliceId w4 = Some (false, 4000%N)
        /\ exists emitted,
             wire w4 = wire w3 ++ emitted
             /\ List.map e_room emitted = presenceRoutes Sample.alice
             /\ Forall (fun e => e_event e = "presence:update"
                                 /\ e_payload e = presencePayload Sample.alice false 4000%N)
                       emitted)
    /\ (countsPositive w1 /\ countsPositive w2 /\ countsPositive w3 /\ countsPositive w4)
    /\ (forall sid u w0 r w0',
          countsPositive w0 -> onConnection Hex.parse sid u w0 = (r, w0') ->
          countsPositive w0')
    /\ (forall sid w0 r w0',
          countsPositive w0 -> onDisconnect Hex.parse sid w0 = (r, w0') ->
          countsPositive w0').
Proof.
  apply (two_sessions_presence Hex.parse Sample.alice Sample.aliceId "tab-1" "tab-2"
           1000%N 2000%N 3000%N 4000%N (Sample.user Sample.aliceId "alice") Sample.chatting).
  - reflexivity.
  - reflexivity.
  - discriminate.
  - reflexivity.
  - reflexivity.
  - reflexivity.
  - intros u n H. change ((∅ : gmap string Z) !! u = Some n) in H.
    rewrite lookup_empty in H. discriminate.
Defined.

(** C6 at work: Alice sends " hello " to Bob.  The text is trimmed; the
    message is stored, the preview is written, the event is posted, and the
    call answers 200 with the message. *)
Lemma POST_messages_send_witness :
  let toUserId := JS.trim (JS.orEmpty (Some Sample.bob)) in
  let text := JS.slice0 2000 (sanitizeMessage Sample.plain (JS.orEmpty (Some " hello "))) in
  let w := Sample.chatting in
  let r := fst (POST_messages Hex.parse Hex.str Sample.plain
                  (Some Sample.alice) (Some Sample.bob) (Some " hello ") w) in
  let w' := snd (POST_messages Hex.parse Hex.str Sample.plain
                   (Some Sample.alice) (Some Sample.bob) (Some " hello ") w) in
  (text = "hello"
   /\ r = Ok (json 200
                (BMessage (mkMessageView Sample.helloRef Sample.chatRef Sample.alice
                             Sample.bob "hello" [Sample.alice] false None 2000%N)))
   /\ messages w'
      = [Message.mk 2%N 1%N Sample.aliceId Sample.bobId "hello" [Sample.aliceId] []
                    false None 2000%N]
   /\ conversations w'
      = [Conversation.mk 1%N [Sample.aliceId; Sample.bobId]
           (Sample.alice +:+ ":" +:+ Sample.bob) [] "hello" 2000%N]
   /\ outbox w'
      = [sent Sample.chatRef Sample.helloRef Sample.alice Sample.bob "hello" 2000%N])
  /\ text = JS.slice0 2000 (JS.trim (Sample.plain (JS.orEmpty (Some " hello "))))
  /\ String.length text <= 2000
  /\ (text = "" -> (exists error, r = Ok (json 400 (BError error))) /\ w' = w)
  /\ (forall to,
        JS.falsy toUserId = false -> Hex.parse toUserId = Some to -> text <> "" ->
        faults w = [] ->
        List.find (userHasId to) (users w) = None ->
        r = Ok (json 404 (BError "Recipient not found.")) /\ w' = w)
  /\ (forall to u,
        JS.falsy toUserId = false -> Hex.parse toUserId = Some to -> text <> "" ->
        faults w = [] ->
        List.find (userHasId to) (users w) = Some u ->
        exists view,
          r = Ok (json 200 (BMessage view))
          /\ mv_text view = text
          /\ outbox w'
             = outbox w ++ [sent (mv_conversationId view) (mv_id view) Sample.alice
                                 toUserId text (mv_createdAt view)])
  /\ (outbox w' = outbox w
      \/ exists to message conv,
           Hex.parse toUserId = Some to
           /\ (exists u, List.find (userHasId to) (users w) = Some u)
           /\ text <> ""
           /\ outbox w'
              = outbox w ++ [sent (Hex.str (Conversation._id conv))
                                  (Hex.str (Message._id message))
                                  Sample.alice toUserId text (Message.createdAt message)]
           /\ In message (messages w')
           /\ Message.readBy message = [Sample.aliceId]
           /\ Message.text message = JS.trim text
           /\ Message.text message <> ""
           /\ String.length (Message.text message) <= 2000
           /\ Message.senderId message = Sample.aliceId
           /\ Message.recipientId message = to
           /\ Message.conversationId message = Conversation._id conv
           /\ In conv (conversations w')
           /\ (List.NoDup (List.map Conversation._id (conversations w')) ->
               Conversation.participantKey conv
               = buildParticipantKey Sample.alice toUserId)
           /\ Conversation.lastMessageText conv = text
           /\ Conversation.lastMessageAt conv = clock w
           /\ r = Ok (json 200
                        (BMessage (mkMessageView (Hex.str (Message._id message))
                                     (Hex.str (Conversation._id conv))
                                     Sample.alice toUserId text [Sample.alice] false None
                                     (Message.createdAt message)))))
  /\ (forall e, r = Throw e -> outbox w' = outbox w).
Proof.
  intros toUserId text w r w'.
  split; [repeat split|].
  apply (POST_messages_send Hex.parse Hex.str Sample.plain Sample.alice
           (Some Sample.bob) (Some " hello ") Sample.aliceId w r w'); reflexivity.
Defined.


(** The store of the examples is sound. *)
Lemma talked_wellStored : wellStored Sample.talked.
Proof.
  unfold wellStored. simpl.
  split; [constructor; [intros [] | constructor]|].
  split; [constructor; [intros [] | constructor]|].
  split; [constructor; [intros [] | constructor]|].
  split.
  - intros c [<-|[]]. split; reflexivity.
  - intros m [<-|[]]. reflexivity.
Defined.


(** C4 at work, step by step: Alice deletes the conversation for herself,
    Bob sends her a message, and her list is still empty; she then opens the
    history with Bob, and her list holds the conversation again. *)
Lemma DELETE_conversations_for_me_reopened :
  let w1 := snd (DELETE_conversations Hex.parse
                   (Some Sample.alice) (Some Sample.chatRef) (Some "me") Sample.talked) in
  let w2 := snd (POST_messages Hex.parse Hex.str Sample.plain
                   (Some Sample.bob) (Some Sample.alice) (Some "are you there?") w1) in
  let w3 := snd (GET_messages Hex.parse Hex.str Sample.plain
                   (Some Sample.alice) (Some Sample.bob) None None w2) in
  fst (GET_conversations Hex.parse Hex.str Sample.plain (Some Sample.alice) None None w2)
  = Ok (json 200 (BConversations [] None))
  /\ List.map Conversation.hiddenFor (conversations w3) = [[]]
  /\ fst (GET_conversations Hex.parse Hex.str Sample.plain (Some Sample.alice) None None w3)
     = Ok (json 200
             (BConversations
                [mkConversationItem Sample.chatRef "are you there?" 3000%N Sample.bob]
                None)).
Proof. vm_compute. repeat split. Qed.

(** C1, the claim as written fails: Alice's session is in her inbox group
    since it connected and in the group of the conversation since it joined
    it; the [message:new] event of a message she sent reaches it twice. *)
Lemma router_counterexample :
  let w := snd (onConversationJoin "tab-1" (Some Sample.chatRef)
                  (snd (onConnection Hex.parse "tab-1" Sample.alice Sample.chatting))) in
  let event := sent Sample.chatRef Sample.helloRef Sample.alice Sample.bob "hello" 1500%N in
  let w' := snd (internalRealtime "s3cret" (Some "s3cret")
                   (Some (fst event)) (Some (snd event)) w) in
  routes (fst event) (snd event)
  = [ "conversation:" +:+ Sample.chatRef; "user:" +:+ Sample.bob; "user:" +:+ Sample.alice ]
  /\ memberships w "tab-1" (routes (fst event) (snd event)) = 2
  /\ copiesTo "tab-1" (skipn (length (wire w)) (wire w')) = 2.
Proof. vm_compute. repeat split. Qed.

(** C1 at work, on the event of Alice's message to Bob. *)
Lemma router_copies_per_group_witness :
  let event := sent Sample.chatRef Sample.helloRef Sample.alice Sample.bob "hello" 1500%N in
  let type := fst event in
  let payload := snd event in
  let w := Sample.chatting in
  internalRealtime "s3cret" (Some "s3cret") (Some type) (Some payload) w
  = (Ok (json 200 BOk),
     with_wire (fun l => l ++ emissions w type payload (routes type payload)) w)
  /\ emitPresenceUpdate Sample.alice true 1000%N w
     = (Ok tt,
        with_wire (fun l => l ++ emissions w "presence:update"
                                  (presencePayload Sample.alice true 1000%N)
                                  (presenceRoutes Sample.alice)) w)
  /\ forall sid,
       let copies := copiesTo sid (emissions w type payload (routes type payload)) in
       let presence :=
         copiesTo sid (emissions w "presence:update"
                         (presencePayload Sample.alice true 1000%N)
                         (presenceRoutes Sample.alice)) in
       copies = memberships w sid (routes type payload)
       /\ presence = memberships w sid (presenceRoutes Sample.alice)
       /\ (type = "message:new" ->
           routes type payload
           = [ "conversation:" +:+ fieldStr "conversationId" payload;
               "user:" +:+ fieldStr "recipientId" payload;
               "user:" +:+ fieldStr "senderId" payload ]
           /\ copies <= 3)
       /\ (type = "message:read" ->
           routes type payload = [ "conversation:" +:+ fieldStr "conversationId" payload ]
           /\ copies <= 1)
       /\ (type = "message:deleted" -> fieldIs "mode" "me" payload = true ->
           routes type payload = [ "user:" +:+ fieldStr "targetUserId" payload ]
           /\ copies <= 1)
       /\ (type = "message:deleted" -> fieldIs "mode" "me" payload = false ->
           routes type payload
           = [ "conversation:" +:+ fieldStr "conversationId" payload;
               "user:" +:+ fieldStr "recipientId" payload;
               "user:" +:+ fieldStr "senderId" payload ]
           /\ copies <= 3)
       /\ (recognized type = false -> copies = 0)
       /\ presence <= 2
       /\ (copies <= 1 <-> memberships w sid (routes type payload) <= 1)
       /\ (type = "message:new" ->
           sid ∈ members w ("conversation:" +:+ fieldStr "conversationId" payload) ->
           sid ∈ members w ("user:" +:+ fieldStr "senderId" payload) ->
           2 <= copies).
Proof.
  intros event type payload w.
  apply (router_copies_per_group "s3cret" type payload Sample.alice true 1000%N w).
  reflexivity.
Defined.

(* ------------------------------------------------------------------- *)
(** *** The further properties at work *)

Lemma DELETE_messages_for_me_witness :
  (Message.senderId Sample.hello <> Sample.bobId ->
   Message.recipientId Sample.hello <> Sample.bobId ->
   DELETE_messages Hex.parse Hex.str (Some Sample.bob) (Some Sample.helloRef) (Some "me")
     Sample.talked
   = (Ok (json 403 (BError "Forbidden.")), Sample.talked))
  /\ (Message.senderId Sample.hello = Sample.bobId
      \/ Message.recipientId Sample.hello = Sample.bobId ->
      exists w1 w2,
        let answer := json 200 (BMessageDeleted (Hex.str (Message._id Sample.hello)) "me") in
        DELETE_messages Hex.parse Hex.str (Some Sample.bob) (Some Sample.helloRef)
          (Some "me") Sample.talked = (Ok answer, w1)
        /\ messages w1
           = updateFirst (msgHasId 2%N)
               (setMsgHiddenFor (addToSet Sample.bobId (Message.hiddenFor Sample.hello)))
               (messages Sample.talked)
        /\ conversations w1 = conversations Sample.talked
        /\ users w1 = users Sample.talked
        /\ outbox w1 = outbox Sample.talked ++ [deletedForMe Hex.str Sample.hello Sample.bob]
        /\ routes (fst (deletedForMe Hex.str Sample.hello Sample.bob))
                  (snd (deletedForMe Hex.str Sample.hello Sample.bob))
           = ["user:" +:+ Sample.bob]
        /\ DELETE_messages Hex.parse Hex.str (Some Sample.bob) (Some Sample.helloRef)
             (Some "me") w1 = (Ok answer, w2)
        /\ messages w2 = messages w1
        /\ outbox w2 = outbox w1 ++ [deletedForMe Hex.str Sample.hello Sample.bob]).
Proof.
  apply (DELETE_messages_for_me Hex.parse Hex.str Sample.bob (Some Sample.helloRef)
           (Some "me") 2%N Sample.bobId Sample.hello Sample.talked); reflexivity.
Defined.


Lemma DELETE_messages_me_then_fetch_witness :
  exists w1,
    DELETE_messages Hex.parse Hex.str (Some Sample.bob) (Some Sample.helloRef) (Some "me")
      Sample.talked
    = (Ok (json 200 (BMessageDeleted (Hex.str (Message._id Sample.hello)) "me")), w1)
    /\ (forall userIdParam cursor limitParam r w' conversationId views next,
          Nat.min (default 30 limitParam) 100 <> 0 ->
          GET_messages Hex.parse Hex.str Sample.plain (Some Sample.bob) userIdParam cursor
            limitParam w1 = (r, w') ->
          r = Ok (json 200 (BMessages conversationId views next)) ->
          forall view, In view views ->
            exists m, In m (messages w1)
                      /\ view = messageView Hex.str Sample.plain m
                      /\ Message._id m <> 2%N)
    /\ (forall other oo userIdParam cursor limitParam,
          Hex.parse other = Some oo -> oo <> Sample.bobId ->
          fst (GET_messages Hex.parse Hex.str Sample.plain (Some other) userIdParam cursor
                 limitParam w1)
          = fst (GET_messages Hex.parse Hex.str Sample.plain (Some other) userIdParam
                   cursor limitParam Sample.talked)).
Proof.
  apply (DELETE_messages_me_then_fetch Hex.parse Hex.str Sample.plain Sample.bob
           (Some Sample.helloRef) (Some "me") 2%N Sample.bobId Sample.hello Sample.talked).
  - reflexivity.
  - reflexivity.
  - reflexivity.
  - reflexivity.
  - reflexivity.
  - simpl. constructor; [intros [] | constructor].
  - reflexivity.
  - right. reflexivity.
Defined.

Lemma POST_then_GET_messages_witness :
  exists sentView w1 views next w2 fetched,
    POST_messages Hex.parse Hex.str Sample.plain (Some Sample.alice) (Some Sample.bob)
      (Some "hi") Sample.talked
    = (Ok (json 200 (BMessage sentView)), w1)
    /\ GET_messages Hex.parse Hex.str Sample.plain (Some Sample.bob) (Some Sample.alice)
         None None w1
       = (Ok (json 200 (BMessages (mv_conversationId sentView) views next)), w2)
    /\ last views = Some fetched
    /\ mv_id fetched = mv_id sentView
    /\ mv_conversationId fetched = mv_conversationId sentView
    /\ mv_createdAt fetched = mv_createdAt sentView
    /\ mv_readBy fetched = [Hex.str Sample.aliceId].
Proof.
  apply (POST_then_GET_messages Hex.parse Hex.str Sample.plain Sample.alice
           (Some Sample.bob) (Some "hi") Sample.bob (Some Sample.alice) None
           Sample.aliceId Sample.bobId Sample.bobId (Sample.user Sample.bobId "bob")
           Sample.talked).
  - reflexivity.
  - reflexivity.
  - reflexivity.
  - reflexivity.
  - reflexivity.
  - reflexivity.
  - reflexivity.
  - intros m [<-|[]]. reflexivity.
  - right. split; reflexivity.
  - reflexivity.
  - discriminate.
Defined.

Lemma DELETE_conversations_everyone_witness :
  let mine := fun c => convHasId 1%N c && oidIn Sample.aliceId (Conversation.participants c) in
  (List.find mine (conversations Sample.talked) = None ->
     DELETE_conversations Hex.parse (Some Sample.alice) (Some Sample.chatRef) None
       Sample.talked
     = (Ok (json 404 (BError "Conversation not found.")), Sample.talked))
  /\ (forall c, List.find mine (conversations Sample.talked) = Some c ->
        JS.toLowerCase (JS.trim (default "everyone" None)) <> "me" ->
        JS.toLowerCase (JS.trim (default "everyone" None)) <> "everyone" ->
        DELETE_conversations Hex.parse (Some Sample.alice) (Some Sample.chatRef) None
          Sample.talked
        = (Ok (json 400 (BError "mode must be 'me' or 'everyone'.")), Sample.talked))
  /\ (forall c, List.find mine (conversations Sample.talked) = Some c ->
        JS.toLowerCase (JS.trim (default "everyone" None)) = "everyone" ->
        exists w',
          DELETE_conversations Hex.parse (Some Sample.alice) (Some Sample.chatRef) None
            Sample.talked
          = (Ok (json 200 (BConversationDeleted
                             (JS.trim (JS.orEmpty (Some Sample.chatRef))) "everyone")), w')
          /\ conversations w' = removeFirst (convHasId 1%N) (conversations Sample.talked)
          /\ messages w'
             = List.filter (fun m => negb (Message.conversationId m =? 1)%N)
                 (messages Sample.talked)
          /\ (forall m, In m (messages w') -> Message.conversationId m <> 1%N)
          /\ users w' = users Sample.talked
          /\ outbox w' = outbox Sample.talked).
Proof.
  apply (DELETE_conversations_everyone Hex.parse Sample.alice (Some Sample.chatRef) None
           1%N Sample.aliceId Sample.talked); reflexivity.
Defined.

Lemma POST_messages_read_writes_witness :
  let run := POST_messages_read Hex.parse Hex.str (Some Sample.bob) (Some Sample.chatRef)
               Sample.talked in
  users (snd run) = users Sample.talked
  /\ conversations (snd run) = conversations Sample.talked
  /\ ((messages (snd run) = messages Sample.talked
       /\ outbox (snd run) = outbox Sample.talked
       /\ forall n, fst run = Ok (json 200 (BUpdated n)) -> n = 0)
      \/ (messages (snd run)
          = List.map (markedRead 1%N Sample.bobId) (messages Sample.talked)
          /\ exists event,
               outbox (snd run) = outbox Sample.talked ++ [("message:read", event)]
               /\ field "readerId" event = Some (JStr Sample.bob)
               /\ field "messageIds" event
                  = Some (JArr (List.map (fun m => Hex.str (Message._id m))
                                  (List.filter (unreadBy 1%N Sample.bobId)
                                     (messages Sample.talked))))
               /\ fst run
                  = Ok (json 200 (BUpdated
                          (length (List.filter (unreadBy 1%N Sample.bobId)
                                     (messages Sample.talked))))))).
Proof.
  intros run.
  apply (POST_messages_read_writes Hex.parse Hex.str Sample.bob (Some Sample.chatRef)
           1%N Sample.bobId Sample.talked (fst run) (snd run)).
  - reflexivity.
  - reflexivity.
  - simpl. constructor; [intros [] | constructor].
  - apply surjective_pairing.
Defined.

Lemma GET_conversations_names_others_witness :
  let entry := mkConversationItem Sample.chatRef "hello" 1500%N Sample.bob in
  ci_userId entry <> Sample.alice
  /\ exists conv other user,
       In conv (conversations Sample.talked)
       /\ ci_conversationId entry = Hex.str (Conversation._id conv)
       /\ In Sample.aliceId (Conversation.participants conv)
       /\ ~ In Sample.aliceId (Conversation.hiddenFor conv)
       /\ In other (Conversation.participants conv)
       /\ Hex.str other <> Sample.alice
       /\ In user (users Sample.talked)
       /\ Hex.str (User._id user) = Hex.str other
       /\ ci_userId entry = Hex.str (User._id user).
Proof.
  intros entry.
  apply (GET_conversations_names_others Hex.parse Hex.str Sample.plain Sample.alice
           Sample.aliceId None None Sample.talked
           (Ok (json 200 (BConversations [entry] None))) Sample.talked [entry] None).
  - reflexivity.
  - discriminate.
  - reflexivity.
  - reflexivity.
  - left. reflexivity.
Defined.

Lemma getOrCreateConversation_by_spelling_witness :
  exists c1 w1 c2 w2,
    getOrCreateConversation Hex.parse Sample.bob Sample.alice Sample.start = (Ok c1, w1)
    /\ getOrCreateConversation Hex.parse Sample.bob Sample.aliceCapitals w1 = (Ok c2, w2)
    /\ conversations w2 = conversations Sample.start ++ [c1; c2]
    /\ Conversation.participants c1 = [Sample.bobId; Sample.aliceId]
    /\ Conversation.participants c2 = [Sample.bobId; Sample.aliceId]
    /\ Conversation._id c1 <> Conversation._id c2.
Proof.
  apply (getOrCreateConversation_by_spelling Hex.parse Sample.bob Sample.alice
           Sample.aliceCapitals Sample.bobId Sample.aliceId Sample.start).
  - reflexivity.
  - reflexivity.
  - reflexivity.
  - reflexivity.
  - intros E. vm_compute in E. discriminate.
  - reflexivity.
  - reflexivity.
Defined.

Lemma serve_keeps_wellStored_witness :
  let requests :=
    [ PostMessages (Some Sample.alice) (Some Sample.bob) (Some "hi");
      DeleteMessages (Some Sample.bob) (Some Sample.helloRef) (Some "me");
      DeleteConversations (Some Sample.alice) (Some Sample.chatRef) None ] in
  let w' := serve Hex.parse Hex.str Sample.plain requests Sample.talked in
  wellStored w'
  /\ (forall key, keyCount key w' <= 1)
  /\ (forall q r w1,
        handle Hex.parse Hex.str Sample.plain q Sample.talked = (r, w1) -> wellStored w1).
Proof.
  intros requests w'.
  apply (serve_keeps_wellStored Hex.parse Hex.str Sample.plain requests Sample.talked).
  exact talked_wellStored.
Defined.

Lemma hidden_message_stays_hidden_witness :
  let w := serve Hex.parse Hex.str Sample.plain
             [PostMessages (Some Sample.alice) (Some Sample.bob) (Some "hi")]
             Sample.muted in
  let view := messageView Hex.str Sample.plain Sample.hi in
  exists m, In m (messages w)
            /\ view = messageView Hex.str Sample.plain m
            /\ Message._id m <> Message._id Sample.hiddenHello.
Proof.
  intros w view.
  apply (hidden_message_stays_hidden Hex.parse Hex.str Sample.plain Sample.bob
           Sample.bobId Sample.hiddenHello
           [PostMessages (Some Sample.alice) (Some Sample.bob) (Some "hi")]
           Sample.muted (Some Sample.alice) None None
           (Ok (json 200 (BMessages Sample.chatRef [view] None)))
           w Sample.chatRef [view] None).
  - unfold wellStored. simpl.
    split; [constructor; [intros [] | constructor]|].
    split; [constructor; [intros [] | constructor]|].
    split; [constructor; [intros [] | constructor]|].
    split.
    + intros c [<-|[]]. split; reflexivity.
    + intros m [<-|[]]. reflexivity.
  - reflexivity.
  - left. reflexivity.
  - left. reflexivity.
  - discriminate.
  - reflexivity.
  - reflexivity.
  - left. reflexivity.
Defined.

Lemma onConversationJoin_asks_nothing_witness :
  let payload := snd (sent Sample.chatRef Sample.helloRef Sample.alice Sample.bob
                        "hello" 1500%N) in
  exists w1 w2 emitted,
    onConversationJoin "tab-9" (Some Sample.chatRef) Sample.chatting = (Ok tt, w1)
    /\ "tab-9" ∈ members w1 ("conversation:" +:+ Sample.chatRef)
    /\ internalRealtime "s3cret" (Some "s3cret") (Some "message:new") (Some payload) w1
       = (Ok (json 200 BOk), w2)
    /\ wire w2 = wire w1 ++ emitted
    /\ 1 <= copiesTo "tab-9" emitted.
Proof.
  intros payload.
  apply (onConversationJoin_asks_nothing "tab-9" Sample.chatRef "s3cret" "message:new"
           payload Sample.chatting).
  - discriminate.
  - reflexivity.
  - left. reflexivity.
  - reflexivity.
Defined.

Lemma buildParticipantKey_names_pair_witness :
  buildParticipantKey Sample.alice Sample.bob = buildParticipantKey Sample.bob Sample.alice
  <-> (Sample.alice = Sample.bob /\ Sample.bob = Sample.alice)
      \/ (Sample.alice = Sample.alice /\ Sample.bob = Sample.bob).
Proof.
  apply (buildParticipantKey_names_pair Sample.alice Sample.bob Sample.bob Sample.alice);
    reflexivity.
Defined.

Lemma io_use_reads_cookies_witness :
  io_use Sample.unescape Sample.verify None = Refused
  /\ io_use Sample.unescape Sample.verify (Some "") = Refused
  /\ (Sample.cookies <> [] ->
      parseCookies Sample.unescape (Some (cookieHeaderOf Sample.cookies))
      = decodeAll Sample.unescape Sample.cookies
      /\ (forall name value,
            In (name, value) Sample.cookies -> Sample.unescape value = None ->
            io_use Sample.unescape Sample.verify (Some (cookieHeaderOf Sample.cookies))
            = Refused)
      /\ (forall cookies,
            decodeAll Sample.unescape Sample.cookies = Some cookies ->
            io_use Sample.unescape Sample.verify (Some (cookieHeaderOf Sample.cookies))
            = match mapGet "connect_token" cookies with
              | None => Refused
              | Some token =>
                  if JS.falsy token then Refused
                  else match Sample.verify token with
                       | Some userId => Accepted userId
                       | None => Refused
                       end
              end)).
Proof.
  apply (io_use_reads_cookies Sample.unescape Sample.verify Sample.cookies).
  repeat constructor; discriminate.
Defined.


Lemma watch_outlives_conversation_witness :
  let room := "presence:watch:" +:+ Sample.bob in
  exists w',
    DELETE_conversations Hex.parse (Some Sample.alice) (Some Sample.chatRef) None
      Sample.watching
    = (Ok (json 200 (BConversationDeleted (JS.trim (JS.orEmpty (Some Sample.chatRef)))
                       "everyone")), w')
    /\ canWatchPresence Hex.parse Sample.alice Sample.bob w' = (Ok false, w')
    /\ rooms w' = rooms Sample.watching
    /\ "tab-1" ∈ members w' room
    /\ forall isOnline lastSeen,
         1 <= copiesTo "tab-1" (emissions w' "presence:update"
                                  (presencePayload Sample.bob isOnline lastSeen)
                                  (presenceRoutes Sample.bob)).
Proof.
  intros room.
  apply (watch_outlives_conversation Hex.parse "tab-1" Sample.alice Sample.bob
           Sample.aliceId Sample.bobId (Some Sample.chatRef) None Sample.chat
           Sample.watching).
  - unfold wellStored. simpl.
    split; [constructor; [intros [] | constructor]|].
    split; [constructor; [intros [] | constructor]|].
    split; [constructor|].
    split.
    + intros c [<-|[]]. split; reflexivity.
    + intros m [].
  - reflexivity.
  - reflexivity.
  - reflexivity.
  - discriminate.
  - reflexivity.
  - reflexivity.
  - reflexivity.
  - reflexivity.
  - reflexivity.
  - left. reflexivity.
  - left. reflexivity.
  - intros c' [<-|[]] _ _. reflexivity.
  - unfold members, Sample.watching. cbn [rooms].
    rewrite lookup_singleton_eq. apply elem_of_singleton_2. reflexivity.
Defined.
